(** * LunaTrack: the record store and the estimation pipeline

    A shallow embedding of
      - [chrome-extension/lib/storage.js]    (the [RecordStorage] object),
      - [chrome-extension/lib/prompt-api.js] (the [PromptAPIWrapper] object),
      - the popup script (EXIF extraction, the estimation attempt and
        the handlers of the file input, of the save, re-estimate and
        delete-all buttons),
    followed by the properties of the specification that were checked
    against it and by further properties of the code.

    JavaScript values are modelled by the JSON values they hold; the
    browser (dates, the clock, [Math.random], [parseFloat], the wording of
    engine errors) is a class [Host] that every definition takes as a
    parameter, and [chrome.storage.local] is a field of the explicit
    state [World] that every asynchronous function threads. *)

From Stdlib Require Import ZArith List String Ascii Bool Lia.
From Stdlib Require Import Permutation Sorted QArith Qcanon Qround.
From Stdlib Require Import DecimalString HexadecimalString.
Import ListNotations.

Set Warnings "-register-all".
Close Scope Q_scope.
Close Scope Qc_scope.
Local Open Scope string_scope.
Local Open Scope list_scope.
Local Open Scope Z_scope.

(* ================================================================== *)
(** * JavaScript values                                                *)
(* ================================================================== *)

Module Js.

(** A value that survives [chrome.storage] or [JSON.parse].  A number is
    the exact rational a finite double denotes ([-0] is read as [0]);
    an object is its properties in insertion order. *)
Inductive json : Type :=
| JNull
| JBool (b : bool)
| JNum (q : Qc)
| JStr (s : string)
| JArr (items : list json)
| JObj (props : list (string * json)).

(** What an expression evaluates to: [None] is [undefined]. *)
Definition value : Type := option json.

Definition object : Type := list (string * json).

Definition num (z : Z) : json := JNum (Q2Qc (inject_Z z)).

(** [o[k]] on a plain object. *)
Fixpoint get (o : object) (k : string) : value :=
  match o with
  | [] => None
  | (k', v) :: o' => if String.eqb k' k then Some v else get o' k
  end.

(** [o[k] = v]: an existing key keeps its place, a new one goes last. *)
Fixpoint set (k : string) (v : json) (o : object) : object :=
  match o with
  | [] => [(k, v)]
  | (k', v') :: o' =>
      if String.eqb k' k then (k, v) :: o' else (k', v') :: set k v o'
  end.

(** [{...target, ...source}]. *)
Definition spread (target source : object) : object :=
  fold_left (fun acc kv => set (fst kv) (snd kv) acc) source target.

(** An object literal [{k1: e1, ..., kn: en}] with distinct keys.  A
    property whose value is [undefined] is left out: property reads do
    not tell the two apart and [chrome.storage] drops it on write. *)
Definition literal (fields : list (string * value)) : object :=
  flat_map (fun kv => match snd kv with
                      | Some v => [(fst kv, v)]
                      | None => []
                      end) fields.

(** ToBoolean. *)
Definition truthy (v : value) : bool :=
  match v with
  | None | Some JNull => false
  | Some (JBool b) => b
  | Some (JNum q) => negb (Qc_eq_bool q (Q2Qc 0))
  | Some (JStr s) => negb (String.eqb s "")
  | Some (JArr _) | Some (JObj _) => true
  end.

(** [a || b]. *)
Definition or_else (a b : value) : value := if truthy a then a else b.

(** [v === s] for a string [s]. *)
Definition strict_eq_string (v : value) (s : string) : bool :=
  match v with
  | Some (JStr s') => String.eqb s' s
  | _ => false
  end.

(** SameValueZero, as [Set.prototype.has] uses it, between a value read
    from storage and a value read from a freshly parsed document: two
    primitives are compared by value; an array or an object is a
    reference, and the two sides never share one. *)
Definition same_value_zero (a b : value) : bool :=
  match a, b with
  | None, None => true
  | Some JNull, Some JNull => true
  | Some (JBool x), Some (JBool y) => Bool.eqb x y
  | Some (JNum x), Some (JNum y) => Qc_eq_bool x y
  | Some (JStr x), Some (JStr y) => String.eqb x y
  | _, _ => false
  end.

(** [new Set(ids).has(v)]. *)
Definition set_has (ids : list value) (v : value) : bool :=
  existsb (same_value_zero v) ids.

(** ** Errors *)

(** The errors the engine itself raises in the modelled code. *)
Inductive engine_fault : Type :=
| ReadOfNull (key : string)        (* TypeError: null.key *)
| ReadOfUndefined (key : string)   (* TypeError: undefined.key *)
| NotAFunction (callee : string)   (* TypeError: callee(...) *)
| InvalidTimeValue                 (* RangeError of toISOString *)
| JSONSyntax.                      (* SyntaxError of JSON.parse *)

Inductive js_error : Type :=
| Error (message : string)         (* new Error(message) *)
| Thrown (f : engine_fault).

(** A synchronous computation returns or throws. *)
Inductive completion (A : Type) : Type :=
| Normal (a : A)
| Abrupt (e : js_error).
Arguments Normal {A} a.
Arguments Abrupt {A} e.

Definition cbind {A B} (c : completion A) (k : A -> completion B)
  : completion B :=
  match c with
  | Normal a => k a
  | Abrupt e => Abrupt e
  end.

(** [v.k] for the keys the program reads ([id], [createdAt], [records]):
    own properties of an object, [undefined] on any other non-null
    value, a TypeError on [null]. *)
Definition prop (v : json) (k : string) : completion value :=
  match v with
  | JNull => Abrupt (Thrown (ReadOfNull k))
  | JObj o => Normal (get o k)
  | _ => Normal None
  end.

(** [l.map(r => r.k)]. *)
Fixpoint map_prop (k : string) (l : list json) : completion (list value) :=
  match l with
  | [] => Normal []
  | r :: l' =>
      cbind (prop r k) (fun v =>
      cbind (map_prop k l') (fun vs => Normal (v :: vs)))
  end.

(** [l.filter(r => p(r.k))]. *)
Fixpoint filter_prop (k : string) (p : value -> bool) (l : list json)
  : completion (list json) :=
  match l with
  | [] => Normal []
  | r :: l' =>
      cbind (prop r k) (fun v =>
      cbind (filter_prop k p l') (fun rs =>
      Normal (if p v then r :: rs else rs)))
  end.

(** [l.findIndex(r => p(r.k))], counting from [i]; [None] is [-1]. *)
Fixpoint findIndex_prop (k : string) (p : value -> bool) (l : list json)
  (i : nat) : completion (option nat) :=
  match l with
  | [] => Normal None
  | r :: l' =>
      cbind (prop r k) (fun v =>
      if p v then Normal (Some i) else findIndex_prop k p l' (S i))
  end.

(** [l.find(r => p(r.k))]; [None] is [undefined]. *)
Fixpoint find_prop (k : string) (p : value -> bool) (l : list json)
  : completion value :=
  match l with
  | [] => Normal None
  | r :: l' =>
      cbind (prop r k) (fun v =>
      if p v then Normal (Some r) else find_prop k p l')
  end.

(** [a[i] = x] for [i] inside the array. *)
Fixpoint assign_index {A} (i : nat) (x : A) (l : list A) : list A :=
  match l, i with
  | [], _ => []
  | _ :: l', O => x :: l'
  | y :: l', S i' => y :: assign_index i' x l'
  end.

(** ** Array.prototype.sort *)

(** The sort is stable.  [comparefn a b] is a number, [None] when it is
    NaN, which the sort reads as [0]; a positive result puts [a] after
    [b].  For a consistent comparator every stable sort returns the
    list below. *)
Section ArraySort.
Context {A : Type} (comparefn : A -> A -> option Z).

Definition goes_after (a b : A) : bool :=
  match comparefn a b with
  | Some v => 0 <? v
  | None => false
  end.

Fixpoint insert (x : A) (l : list A) : list A :=
  match l with
  | [] => [x]
  | y :: l' => if goes_after x y then y :: insert x l' else x :: l
  end.

Fixpoint sort (l : list A) : list A :=
  match l with
  | [] => []
  | x :: l' => insert x (sort l')
  end.
End ArraySort.

(** ** Strings *)

(** ASCII white space (strings are byte strings here). *)
Definition is_space (c : ascii) : bool :=
  match nat_of_ascii c with
  | 9%nat | 10%nat | 11%nat | 12%nat | 13%nat | 32%nat => true
  | _ => false
  end.

Fixpoint trimStart (s : string) : string :=
  match s with
  | String c s' => if is_space c then trimStart s' else s
  | EmptyString => EmptyString
  end.

Definition reverse (s : string) : string :=
  string_of_list_ascii (rev (list_ascii_of_string s)).

Definition trim (s : string) : string :=
  reverse (trimStart (reverse (trimStart s))).

(** [s.split(sep)] for a one-character separator. *)
Fixpoint split_from (sep : ascii) (s : string) (cur : string) : list string :=
  match s with
  | EmptyString => [reverse cur]
  | String c s' =>
      if Ascii.eqb c sep then reverse cur :: split_from sep s' EmptyString
      else split_from sep s' (String c cur)
  end.

Definition split (sep : ascii) (s : string) : list string :=
  split_from sep s EmptyString.

(** [String(n)] for an integer [n]. *)
Definition string_of_Z (n : Z) : string :=
  DecimalString.NilZero.string_of_int (Z.to_int n).

(** [String(x)] for a number that is an integer or NaN. *)
Definition string_of_number (x : option Z) : string :=
  match x with
  | Some n => string_of_Z n
  | None => "NaN"
  end.

Fixpoint repeat_char (c : ascii) (n : nat) : string :=
  match n with
  | O => EmptyString
  | S n' => String c (repeat_char c n')
  end.

(** [s.padStart(n, c)]. *)
Definition padStart (n : nat) (c : ascii) (s : string) : string :=
  (repeat_char c (n - String.length s) ++ s)%string.

Definition digit_value (c : ascii) : option Z :=
  let n := Z.of_nat (nat_of_ascii c) in
  if (48 <=? n) && (n <=? 57) then Some (n - 48)
  else if (97 <=? n) && (n <=? 122) then Some (n - 87)
  else if (65 <=? n) && (n <=? 90) then Some (n - 55)
  else None.

(** The value of the longest prefix of [s] made of digits below [radix];
    [acc] is the value read so far, [None] before the first digit. *)
Fixpoint digits (radix : Z) (s : string) (acc : option Z) : option Z :=
  match s with
  | EmptyString => acc
  | String c s' =>
      match digit_value c with
      | Some d =>
          if d <? radix
          then digits radix s' (Some (radix * match acc with
                                               | Some a => a
                                               | None => 0
                                               end + d))
          else acc
      | None => acc
      end
  end.

Definition strip_hex_prefix (s : string) : option string :=
  match s with
  | String "0" (String c s') =>
      if Ascii.eqb c "x" || Ascii.eqb c "X" then Some s' else None
  | _ => None
  end.

(** [parseInt(s, radix)]; [radix = None] is the one-argument call.  The
    result is the exact integer, [None] for NaN. *)
Definition parseInt (s : string) (radix : option Z) : option Z :=
  let s := trimStart s in
  let '(negative, s) :=
    match s with
    | String "-" s' => (true, s')
    | String "+" s' => (false, s')
    | _ => (false, s)
    end in
  let r := match radix with Some r => r | None => 0 end in
  if negb (r =? 0) && ((r <? 2) || (36 <? r)) then None
  else
    let '(r, s) :=
      match (if (r =? 0) || (r =? 16) then strip_hex_prefix s else None) with
      | Some s' => (16, s')
      | None => (if r =? 0 then 10 else r, s)
      end in
    match digits r s None with
    | Some n => Some (if negative : bool then - n else n)
    | None => None
    end.

(** [parseInt(x)] where [x] may be [undefined]: "undefined" has no digit. *)
Definition parseInt_value (x : option string) : option Z :=
  match x with
  | Some s => parseInt s None
  | None => None
  end.

(** [n.toString(16)] for [n >= 0]. *)
Definition toString16 (n : Z) : string :=
  HexadecimalString.NilZero.string_of_int (Z.to_hex_int n).

End Js.
Import Js.

(* ================================================================== *)
(** * The browser and the store                                        *)
(* ================================================================== *)

(** What the program takes from its host.  Time values are milliseconds
    since the epoch. *)
Class Host : Type := {
  (** the time value of [new Date(v)]; [None] for an Invalid Date *)
  Date_value : value -> option Z;
  (** the time value of [new Date(y, m, d, h, mi, s)] on integers *)
  Date_local : Z -> Z -> Z -> Z -> Z -> Z -> option Z;
  (** [toISOString] of a valid time value *)
  toISOString : Z -> string;
  (** the local-time getters of a valid time value *)
  getFullYear : Z -> Z;
  getMonth : Z -> Z;
  getDate : Z -> Z;
  getHours : Z -> Z;
  getMinutes : Z -> Z;
  (** [parseFloat]: a finite number, or [None] for NaN *)
  parseFloat : string -> option Qc;
  (** the [message] of an error raised by the engine *)
  engine_message : engine_fault -> string;
  (** the time value the [n]-th [new Date()] of a run reads *)
  clock : nat -> Z;
  (** what the [n]-th [Math.random()] of a run returns, in [0, 1) *)
  Math_random : nat -> Q;
}.

(** [error.message]. *)
Definition message `{Host} (e : js_error) : string :=
  match e with
  | Error m => m
  | Thrown f => engine_message f
  end.

(** The state the asynchronous functions act on: the array kept under
    [STORAGE_KEY] in [chrome.storage.local] ([None] while the key is
    absent), the [chrome.runtime.lastError] of the storage calls to come
    (one entry a call, none when the list is used up), and how many
    clock reads and random draws were made. *)
Record World : Type := mkWorld {
  storage : option (list json);
  faults : list (option string);
  ticks : nat;
  draws : nat;
}.

Definition lastError (w : World) : option string := hd None (faults w).

Definition after_call (w : World) : World :=
  mkWorld (storage w) (tl (faults w)) (ticks w) (draws w).

Definition with_storage (s : option (list json)) (w : World) : World :=
  mkWorld s (faults w) (ticks w) (draws w).

(** How a promise ends; [Pending] is a promise that never settles. *)
Inductive outcome (A : Type) : Type :=
| Resolved (a : A)
| Rejected (e : js_error)
| Pending.
Arguments Resolved {A} a.
Arguments Rejected {A} e.
Arguments Pending {A}.

Definition Async (A : Type) : Type := World -> outcome A * World.

Definition ret {A} (a : A) : Async A := fun w => (Resolved a, w).

Definition reject {A} (e : js_error) : Async A := fun w => (Rejected e, w).

Definition bind {A B} (c : Async A) (k : A -> Async B) : Async B :=
  fun w =>
    match c w with
    | (Resolved a, w') => k a w'
    | (Rejected e, w') => (Rejected e, w')
    | (Pending, w') => (Pending, w')
    end.

(** A throw inside an [async] function rejects its promise. *)
Definition lift {A} (c : completion A) : Async A :=
  match c with
  | Normal a => ret a
  | Abrupt e => reject e
  end.

Notation "'let*' x ':=' c 'in' k" := (bind c (fun x => k))
  (at level 10, x name, c at level 100, k at level 200).

Inductive json_text : Type :=
| Text (document : json)   (* a text that [JSON.parse] reads as [document] *)
| Malformed.               (* a text that [JSON.parse] refuses *)

Definition JSON_parse (t : json_text) : completion json :=
  match t with
  | Text v => Normal v
  | Malformed => Abrupt (Thrown JSONSyntax)
  end.

Definition JSON_stringify (v : json) : json_text := Text v.

(* ================================================================== *)
(** * lib/storage.js                                                   *)
(* ================================================================== *)

Module RecordStorage.
Section WithHost.
Context `{host : Host}.

(** [r.k] where a throw is excluded beforehand. *)
Definition field (r : json) (k : string) : value :=
  match prop r k with
  | Normal v => v
  | Abrupt _ => None
  end.

Definition createdAt_time (r : json) : option Z :=
  Date_value (field r "createdAt").

(** [(a, b) => new Date(b.createdAt) - new Date(a.createdAt)]. *)
Definition newest_first (a b : json) : option Z :=
  match createdAt_time b, createdAt_time a with
  | Some tb, Some ta => Some (tb - ta)
  | _, _ => None
  end.

Definition is_null (r : json) : bool :=
  match r with
  | JNull => true
  | _ => false
  end.

(** The comparator reads [createdAt] of both arguments, and a sort of two
    or more elements passes each of them to it: on a [null] element it
    throws, inside the storage callback, where nothing catches it. *)
Definition comparator_throws (records : list json) : bool :=
  (2 <=? List.length records)%nat && existsb is_null records.

(** [generateId]: every [x] and [y] of the template is replaced by a hex
    digit drawn from [Math.random]; [n] counts the draws. *)
Definition template : string := "xxxxxxxx-xxxx-4xxx-yxxx-xxxxxxxxxxxx".

Fixpoint replace_xy (s : string) (n : nat) : string * nat :=
  match s with
  | EmptyString => (EmptyString, n)
  | String c s' =>
      if Ascii.eqb c "x" || Ascii.eqb c "y" then
        let r := Qfloor (Math_random n * inject_Z 16)%Q in
        let v := if Ascii.eqb c "x" then r else Z.lor (Z.land r 3) 8 in
        let '(rest, n') := replace_xy s' (S n) in
        ((toString16 v ++ rest)%string, n')
      else
        let '(rest, n') := replace_xy s' n in
        (String c rest, n')
  end.

Definition generateId : Async string := fun w =>
  let '(id, n) := replace_xy template (draws w) in
  (Resolved id, mkWorld (storage w) (faults w) (ticks w) n).

(** [new Date().toISOString()]. *)
Definition now_iso : Async string := fun w =>
  (Resolved (toISOString (clock (ticks w))),
   mkWorld (storage w) (faults w) (S (ticks w)) (draws w)).

(** [result[this.STORAGE_KEY] || []]. *)
Definition stored (w : World) : list json :=
  match storage w with
  | Some l => l
  | None => []
  end.

(** [getAllRecords] (lines 25-38). *)
Definition getAllRecords : Async (list json) := fun w =>
  match lastError w with
  | Some m => (Rejected (Error m), after_call w)
  | None =>
      let records := stored w in
      if comparator_throws records then (Pending, after_call w)
      else (Resolved (sort newest_first records), after_call w)
  end.

(** The promise around [chrome.storage.local.set]. *)
Definition storage_set (records : list json) : Async unit := fun w =>
  match lastError w with
  | Some m => (Rejected (Error m), after_call w)
  | None => (Resolved tt, after_call (with_storage (Some records) w))
  end.

(** The object literal of [saveRecord] (lines 51-60). *)
Definition newRecord_of (recordData : object) (id createdAt updatedAt : string)
  : object :=
  literal
    [ ("id", Some (JStr id));
      ("datetime", get recordData "datetime");
      ("amount", get recordData "amount");
      ("memo", or_else (get recordData "memo") (Some (JStr "")));
      ("source", or_else (get recordData "source") (Some (JStr "manual")));
      ("imageData", Some JNull);
      ("createdAt", Some (JStr createdAt));
      ("updatedAt", Some (JStr updatedAt)) ].

(** [saveRecord] (lines 48-73). *)
Definition saveRecord (recordData : object) : Async object :=
  let* records := getAllRecords in
  let* id := generateId in
  let* createdAt := now_iso in
  let* updatedAt := now_iso in
  let newRecord := newRecord_of recordData id createdAt updatedAt in
  let* _ := storage_set (records ++ [JObj newRecord]) in
  ret newRecord.

Definition own_props (r : json) : object :=
  match r with
  | JObj o => o
  | _ => []
  end.

(** [updateRecord] (lines 81-104). *)
Definition updateRecord (id : string) (updates : object) : Async json :=
  let* records := getAllRecords in
  let* index :=
    lift (findIndex_prop "id" (fun v => strict_eq_string v id) records 0) in
  match index with
  | None => reject (Error "Record not found")
  | Some index =>
      let* now := now_iso in
      let updated :=
        JObj (set "updatedAt" (JStr now)
                (spread (spread [] (own_props (nth index records JNull)))
                        updates)) in
      let records := assign_index index updated records in
      let* _ := storage_set records in
      ret updated
  end.

(** [deleteRecord] (lines 111-124). *)
Definition deleteRecord (id : string) : Async unit :=
  let* records := getAllRecords in
  let* filteredRecords :=
    lift (filter_prop "id" (fun v => negb (strict_eq_string v id)) records) in
  storage_set filteredRecords.

(** [getRecordById] (lines 131-134); [JNull] is [null]. *)
Definition getRecordById (id : string) : Async json :=
  let* records := getAllRecords in
  let* found :=
    lift (find_prop "id" (fun v => strict_eq_string v id) records) in
  ret (match or_else found (Some JNull) with
       | Some r => r
       | None => JNull
       end).

(** [clearAllRecords] (lines 140-150). *)
Definition clearAllRecords : Async unit := fun w =>
  match lastError w with
  | Some m => (Rejected (Error m), after_call w)
  | None => (Resolved tt, after_call (with_storage None w))
  end.

(** [formatDateTime] (lines 173-182); the getters of an Invalid Date
    return NaN. *)
Definition formatDateTime (isoString : value) : string :=
  let date := Date_value isoString in
  let two (x : option Z) := padStart 2 "0" (string_of_number x) in
  let year := string_of_number (option_map getFullYear date) in
  let month := two (option_map (fun t => getMonth t + 1) date) in
  let day := two (option_map getDate date) in
  let hours := two (option_map getHours date) in
  let minutes := two (option_map getMinutes date) in
  (year ++ "-" ++ month ++ "-" ++ day ++ " " ++ hours ++ ":" ++ minutes)%string.

(** The object [exportToJSON] serialises. *)
Definition export_document (now : string) (records : list json) : json :=
  JObj [ ("exportDate", JStr now);
         ("version", JStr "1.0.0");
         ("records", JArr records) ].

(** [exportToJSON] (lines 188-195). *)
Definition exportToJSON : Async json_text :=
  let* records := getAllRecords in
  let* now := now_iso in
  ret (JSON_stringify (export_document now records)).

(** [importedRecords.filter(r => !existingIds.has(r.id))]. *)
Definition filter_new (existingIds : list value) (importedRecords : value)
  : completion (list json) :=
  match importedRecords with
  | Some (JArr l) =>
      filter_prop "id" (fun v => negb (set_has existingIds v)) l
  | _ => Abrupt (Thrown (NotAFunction "importedRecords.filter"))
  end.

(** [importFromJSON] (lines 202-222). *)
Definition importFromJSON (jsonString : json_text) : Async nat :=
  let* data := lift (JSON_parse jsonString) in
  let* records := lift (prop data "records") in
  let importedRecords := or_else records (Some (JArr [])) in
  let* existingRecords := getAllRecords in
  let* existingIds := lift (map_prop "id" existingRecords) in
  let* newRecords := lift (filter_new existingIds importedRecords) in
  let allRecords := existingRecords ++ newRecords in
  let* _ := storage_set allRecords in
  ret (List.length newRecords).

End WithHost.
End RecordStorage.

(* ================================================================== *)
(** * lib/prompt-api.js                                                *)
(* ================================================================== *)

Module PromptAPIWrapper.

(** How the calls on the global [LanguageModel] end for one run. *)
Record LanguageModel : Type := mkLanguageModel {
  availability : outcome string;   (* LanguageModel.availability() *)
  create : outcome unit;           (* LanguageModel.create({...}) *)
  append : outcome unit;           (* session.append([...]) *)
  prompt : outcome string;         (* session.prompt(promptText) *)
}.

(** [{ estimatedVolume, confidence, error }]; [None] is [null]. *)
Record Estimate : Type := mkEstimate {
  estimatedVolume : option Z;
  confidence : option string;
  error : option string;
}.

(** The confidence assessment (lines 131-137). *)
Definition confidence_of (estimatedVolume : Z) : string :=
  if (10 <=? estimatedVolume) && (estimatedVolume <=? 40) then "high"
  else if (estimatedVolume <? 5) || (45 <? estimatedVolume) then "low"
  else "medium".

Definition quote : string := String "034" EmptyString.

(** The message of the error thrown on an invalid answer (line 128). *)
Definition invalid_result (result : string) (parsed : option Z) : string :=
  ("Invalid estimation result: " ++ quote ++ result ++ quote
   ++ " (must be integer 0-50, got: " ++ string_of_number parsed ++ ")")%string.

Section WithHost.
Context `{host : Host}.

(** [checkAvailability] (lines 11-29); [None] when the global
    [LanguageModel] is not defined. *)
Definition checkAvailability (lm : option LanguageModel) : outcome bool :=
  match lm with
  | None => Resolved false
  | Some m =>
      match availability m with
      | Resolved a => Resolved (negb (String.eqb a "unavailable"))
      | Rejected _ => Resolved false
      | Pending => Pending
      end
  end.

(** The [catch] clause (lines 145-152). *)
Definition failed (e : js_error) : outcome Estimate :=
  Resolved (mkEstimate None None (Some (message e))).

(** [await p] inside the [try] block. *)
Definition try_await {A} (p : outcome A) (k : A -> outcome Estimate)
  : outcome Estimate :=
  match p with
  | Resolved a => k a
  | Rejected e => failed e
  | Pending => Pending
  end.

(** [estimateFlowFromImage] (lines 36-153).  The image is only handed to
    the session, whose answer [prompt] carries. *)
Definition estimateFlowFromImage (lm : option LanguageModel)
  : outcome Estimate :=
  try_await (checkAvailability lm) (fun isAvailable =>
  match isAvailable, lm with
  | true, Some m =>
      try_await (create m) (fun _ =>
      try_await (append m) (fun _ =>
      try_await (prompt m) (fun result =>
      let parsed := parseInt (trim result) (Some 10) in
      match parsed with
      | Some estimatedVolume =>
          if (estimatedVolume <? 0) || (50 <? estimatedVolume)
          then failed (Error (invalid_result result parsed))
          else Resolved (mkEstimate (Some estimatedVolume)
                           (Some (confidence_of estimatedVolume)) None)
      | None => failed (Error (invalid_result result parsed))
      end)))
  | _, _ => failed (Error "LanguageModel not available")
  end).

End WithHost.
End PromptAPIWrapper.

(* ================================================================== *)
(** * The popup script                                                 *)
(* ================================================================== *)

Module Popup.

Inductive section : Type := main | upload | edit | success | history | error.

(** What the EXIF library does with a file: [EXIF.getData] throws, or it
    runs the callback, in which [EXIF.getTag(this, 'DateTimeOriginal')]
    throws or returns a value ([undefined] when the tag is absent). *)
Inductive exif : Type :=
| GetDataThrows (e : js_error)
| GetTagThrows (e : js_error)
| Tag (dateTimeOriginal : value).

Record File : Type := mkFile {
  lastModified : Z;
  metadata : exif;
}.

(** The part of the page and of the script's globals that the modelled
    functions write: the section [showSection] left visible, the text of
    the error section, the loading overlay, the record count, the three
    inputs of the edit form and the global [extractedDateTime] ([None]
    is [null], [Some None] an Invalid Date).  The image preview, the
    file input and the text of the success section are not tracked. *)
Record Page : Type := mkPage {
  visible : section;
  errorMessage : string;
  loading : bool;
  recordCount : string;
  dateInput : string;
  amountInput : string;
  memoInput : string;
  extractedDateTime : option (option Z);
}.

Definition showSection (s : section) (p : Page) : Page :=
  mkPage s (errorMessage p) (loading p) (recordCount p)
         (dateInput p) (amountInput p) (memoInput p) (extractedDateTime p).

Definition showLoading (show : bool) (p : Page) : Page :=
  mkPage (visible p) (errorMessage p) show (recordCount p)
         (dateInput p) (amountInput p) (memoInput p) (extractedDateTime p).

Definition showError (m : string) (p : Page) : Page :=
  showSection error
    (mkPage (visible p) m (loading p) (recordCount p)
            (dateInput p) (amountInput p) (memoInput p) (extractedDateTime p)).

Definition resetForm (p : Page) : Page :=
  mkPage (visible p) (errorMessage p) (loading p) (recordCount p)
         "" "" "" None.

Definition set_recordCount (text : string) (p : Page) : Page :=
  mkPage (visible p) (errorMessage p) (loading p) text
         (dateInput p) (amountInput p) (memoInput p) (extractedDateTime p).

(** [extractedDateTime = d; dateInput.value = text]. *)
Definition set_extracted (d : option Z) (text : string) (p : Page) : Page :=
  mkPage (visible p) (errorMessage p) (loading p) (recordCount p)
         text (amountInput p) (memoInput p) (Some d).

Definition set_amountInput (text : string) (p : Page) : Page :=
  mkPage (visible p) (errorMessage p) (loading p) (recordCount p)
         (dateInput p) text (memoInput p) (extractedDateTime p).

(** What [attemptAIEstimation] returns:
    [{ success, estimatedVolume, confidence, reason }], a missing or
    [null] property being [None]. *)
Record Attempt : Type := mkAttempt {
  ai_success : bool;
  ai_estimatedVolume : option Z;
  ai_confidence : option string;
  ai_reason : option string;
}.

(** The page together with what the other handlers write: the global
    [selectedFile], the AI badge beside the amount ([None] when there is
    none, else the confidence it was made with, [null] being [None]),
    and the text of the last toast.  The history list, whose cards are
    built as HTML from the fields of the records, is not tracked. *)
Record Screen : Type := mkScreen {
  page : Page;
  selectedFile : option File;
  badge : option (option string);
  toast : option string;
}.

Definition on_page (f : Page -> Page) (s : Screen) : Screen :=
  mkScreen (f (page s)) (selectedFile s) (badge s) (toast s).

Definition set_selectedFile (f : option File) (s : Screen) : Screen :=
  mkScreen (page s) f (badge s) (toast s).

(** [showAIEstimationBadge(confidence)]: the old badge goes, a new one
    comes. *)
Definition showAIEstimationBadge (c : option string) (s : Screen) : Screen :=
  mkScreen (page s) (selectedFile s) (Some c) (toast s).

(** [showManualInputMessage()]: the badge goes. *)
Definition showManualInputMessage (s : Screen) : Screen :=
  mkScreen (page s) (selectedFile s) None (toast s).

(** [showTemporaryMessage(message)]; the timers that fade the toast out
    are not tracked. *)
Definition showTemporaryMessage (m : string) (s : Screen) : Screen :=
  mkScreen (page s) (selectedFile s) (badge s) (Some m).

(** [input.value = v] for a number or [null]. *)
Definition input_text (v : option Z) : string :=
  match v with
  | Some n => string_of_Z n
  | None => ""
  end.

(** [new Date(t)] for a number [t]: TimeClip. *)
Definition Date_of_number (t : Z) : option Z :=
  if Z.abs t <=? 8640000000000000 then Some t else None.

Section WithHost.
Context `{host : Host}.

(** [new Date(y, m, d, h, mi, s)]: NaN in, Invalid Date out. *)
Definition Date_of_parts (y m d h mi s : option Z) : option Z :=
  match y, m, d, h, mi, s with
  | Some y, Some m, Some d, Some h, Some mi, Some s =>
      Date_local y m d h mi s
  | _, _, _, _, _, _ => None
  end.

(** [parseEXIFDate] (lines 174-188), on a truthy argument. *)
Definition parseEXIFDate (exifDateString : json) : completion (option Z) :=
  match exifDateString with
  | JStr s =>
      let parts := split " " s in
      let dateParts := split ":" (nth 0 parts "") in
      match nth_error parts 1 with
      | None => Abrupt (Thrown (ReadOfUndefined "split"))
      | Some time =>
          let timeParts := split ":" time in
          Normal (Date_of_parts
                    (parseInt_value (nth_error dateParts 0))
                    (option_map (fun m => m - 1)
                       (parseInt_value (nth_error dateParts 1)))
                    (parseInt_value (nth_error dateParts 2))
                    (parseInt_value (nth_error timeParts 0))
                    (parseInt_value (nth_error timeParts 1))
                    (parseInt_value (nth_error timeParts 2)))
      end
  | _ => Abrupt (Thrown (NotAFunction "exifDateString.split"))
  end.

(** [formatDateForInput] (lines 191-199); the getters of an Invalid Date
    return NaN. *)
Definition formatDateForInput (date : option Z) : string :=
  let two (x : option Z) := padStart 2 "0" (string_of_number x) in
  let year := string_of_number (option_map getFullYear date) in
  let month := two (option_map (fun t => getMonth t + 1) date) in
  let day := two (option_map getDate date) in
  let hours := two (option_map getHours date) in
  let minutes := two (option_map getMinutes date) in
  (year ++ "-" ++ month ++ "-" ++ day ++ "T" ++ hours ++ ":" ++ minutes)%string.

(** [extractEXIFData] (lines 146-171): how its promise ends, and the
    page it leaves. *)
Definition extractEXIFData (file : File) (p : Page) : outcome unit * Page :=
  match metadata file with
  | GetDataThrows e => (Rejected e, p)
  | GetTagThrows e =>
      (Rejected (Error ("EXIF parsing error: " ++ message e)%string), p)
  | Tag dateTimeOriginal =>
      match dateTimeOriginal with
      | Some tag =>
          if truthy dateTimeOriginal then
            match parseEXIFDate tag with
            | Normal exifDate =>
                (Resolved tt,
                 set_extracted exifDate (formatDateForInput exifDate) p)
            | Abrupt e =>
                (Rejected (Error ("EXIF parsing error: " ++ message e)%string),
                 p)
            end
          else
            let fileDate := Date_of_number (lastModified file) in
            (Resolved tt, set_extracted fileDate (formatDateForInput fileDate) p)
      | None =>
          let fileDate := Date_of_number (lastModified file) in
          (Resolved tt, set_extracted fileDate (formatDateForInput fileDate) p)
      end
  end.

(** [updateRecordCount] (lines 88-96); its [catch] only logs. *)
Definition updateRecordCount (p : Page) (w : World)
  : outcome unit * Page * World :=
  match RecordStorage.getAllRecords w with
  | (Resolved records, w') =>
      let count := List.length records in
      let text :=
        if (0 <? count)%nat
        then ("Saved: " ++ string_of_Z (Z.of_nat count) ++ " record"
              ++ (if (1 <? count)%nat then "s" else ""))%string
        else "" in
      (Resolved tt, set_recordCount text p, w')
  | (Rejected _, w') => (Resolved tt, p, w')
  | (Pending, w') => (Pending, p, w')
  end.

Definition Qc_negative (q : Qc) : bool :=
  match Qccompare q (Q2Qc 0) with
  | Lt => true
  | _ => false
  end.

(** The object [handleSave] passes to [saveRecord] (lines 219-224). *)
Definition recordData_of (datetime : string) (amount : Qc) (memo : string)
  : object :=
  [ ("datetime", JStr datetime);
    ("amount", JNum amount);
    ("memo", JStr memo);
    ("source", JStr "manual") ].

(** [handleSave] (lines 202-247). *)
Definition handleSave (p : Page) (w : World) : outcome unit * Page * World :=
  if String.eqb (dateInput p) "" then
    (Resolved tt, showError "Please enter date and time" p, w)
  else
    match parseFloat (amountInput p) with
    | None => (Resolved tt, showError "Please enter a valid flow amount" p, w)
    | Some amount =>
        if Qc_negative amount then
          (Resolved tt, showError "Please enter a valid flow amount" p, w)
        else
          let p := showLoading true p in
          match Date_value (Some (JStr (dateInput p))) with
          | None =>
              let e := Thrown InvalidTimeValue in
              (Resolved tt,
               showLoading false
                 (showError ("Error saving record: " ++ message e)%string p),
               w)
          | Some t =>
              let recordData :=
                recordData_of (toISOString t) amount (trim (memoInput p)) in
              match RecordStorage.saveRecord recordData w with
              | (Resolved savedRecord, w1) =>
                  let p := showSection success p in
                  match updateRecordCount p w1 with
                  | (Pending, p, w2) => (Pending, p, w2)
                  | (_, p, w2) =>
                      (Resolved tt, showLoading false (resetForm p), w2)
                  end
              | (Rejected e, w1) =>
                  (Resolved tt,
                   showLoading false
                     (showError ("Error saving record: " ++ message e)%string p),
                   w1)
              | (Pending, w1) => (Pending, p, w1)
              end
          end
    end.

(** [attemptAIEstimation] (lines 443-477).  [loaded] tells whether the
    wrapper script is there; [probe] is the global [LanguageModel] as
    the first availability check finds it and [lm] as the estimation
    finds it. *)
Definition attemptAIEstimation
    (loaded : bool) (probe lm : option PromptAPIWrapper.LanguageModel)
  : outcome Attempt :=
  let caught (e : js_error) :=
    Resolved (mkAttempt false None None (Some (message e))) in
  if negb loaded
  then Resolved (mkAttempt false None None (Some "API wrapper not loaded"))
  else
    match PromptAPIWrapper.checkAvailability probe with
    | Resolved false =>
        Resolved (mkAttempt false None None (Some "API not available"))
    | Resolved true =>
        match PromptAPIWrapper.estimateFlowFromImage lm with
        | Resolved result =>
            match PromptAPIWrapper.error result with
            | Some reason =>
                if negb (String.eqb reason "")
                then Resolved (mkAttempt false None None (Some reason))
                else Resolved (mkAttempt true
                                 (PromptAPIWrapper.estimatedVolume result)
                                 (PromptAPIWrapper.confidence result) None)
            | None =>
                Resolved (mkAttempt true
                            (PromptAPIWrapper.estimatedVolume result)
                            (PromptAPIWrapper.confidence result) None)
            end
        | Rejected e => caught e
        | Pending => Pending
        end
    | Rejected e => caught e
    | Pending => Pending
    end.

(** [handleFileSelect] (lines 99-143) on [event.target.files[0]], given
    with its MIME type, [None] when no file was picked. *)
Definition handleFileSelect
    (picked : option (string * File))
    (loaded : bool) (probe lm : option PromptAPIWrapper.LanguageModel)
    (s : Screen) : outcome unit * Screen :=
  match picked with
  | None => (Resolved tt, s)
  | Some (type, file) =>
      if negb (String.prefix "image/" type) then
        (Resolved tt, on_page (showError "Please select an image file") s)
      else
        let s := on_page (showLoading true) (set_selectedFile (Some file) s) in
        match extractEXIFData file (page s) with
        | (Resolved _, p) =>
            let s := on_page (fun _ => p) s in
            match attemptAIEstimation loaded probe lm with
            | Resolved aiResult =>
                let s :=
                  if ai_success aiResult then
                    showAIEstimationBadge (ai_confidence aiResult)
                      (on_page (set_amountInput
                                  (input_text (ai_estimatedVolume aiResult))) s)
                  else
                    showManualInputMessage (on_page (set_amountInput "") s) in
                (Resolved tt,
                 on_page (showLoading false) (on_page (showSection edit) s))
            | Rejected e =>
                (Resolved tt,
                 on_page (showLoading false)
                   (on_page (showError
                               ("Error processing image: " ++ message e)%string)
                            s))
            | Pending => (Pending, s)
            end
        | (Rejected e, p) =>
            (Resolved tt,
             on_page (showLoading false)
               (on_page (fun _ => showError
                           ("Error processing image: " ++ message e)%string p)
                        s))
        | (Pending, p) => (Pending, on_page (fun _ => p) s)
        end
  end.

(** [handleAIReEstimate] (lines 526-550). *)
Definition handleAIReEstimate
    (loaded : bool) (probe lm : option PromptAPIWrapper.LanguageModel)
    (s : Screen) : outcome unit * Screen :=
  match selectedFile s with
  | None =>
      (Resolved tt,
       on_page (showError "No image selected. Please select a photo first.") s)
  | Some _ =>
      let s := on_page (showLoading true) s in
      match attemptAIEstimation loaded probe lm with
      | Resolved aiResult =>
          let s :=
            if ai_success aiResult then
              showTemporaryMessage "AI estimation updated"
                (showAIEstimationBadge (ai_confidence aiResult)
                   (on_page (set_amountInput
                               (input_text (ai_estimatedVolume aiResult))) s))
            else
              on_page (showError "AI estimation failed. Please enter manually.")
                      s in
          (Resolved tt, on_page (showLoading false) s)
      | Rejected e =>
          (Resolved tt,
           on_page (showLoading false)
             (on_page (showError ("AI estimation failed: " ++ message e)%string)
                      s))
      | Pending => (Pending, s)
      end
  end.

(** [updateRecordCount] on the whole screen. *)
Definition refresh_count (s : Screen) (w : World)
  : outcome unit * Screen * World :=
  match updateRecordCount (page s) w with
  | (o, p, w') => (o, on_page (fun _ => p) s, w')
  end.

(** [handleDeleteAll] (lines 338-356); [confirmed] is the answer to the
    dialog. *)
Definition handleDeleteAll (confirmed : bool) (s : Screen) (w : World)
  : outcome unit * Screen * World :=
  if negb confirmed then (Resolved tt, s, w)
  else
    let s := on_page (showLoading true) s in
    match RecordStorage.clearAllRecords w with
    | (Resolved _, w1) =>
        match refresh_count s w1 with
        | (Pending, s, w2) => (Pending, s, w2)
        | (_, s, w2) =>
            (Resolved tt,
             on_page (showLoading false)
               (showTemporaryMessage "All records deleted"
                  (on_page (showSection main) s)),
             w2)
        end
    | (Rejected e, w1) =>
        (Resolved tt,
         on_page (showLoading false)
           (on_page (showError ("Failed to delete: " ++ message e)%string) s),
         w1)
    | (Pending, w1) => (Pending, s, w1)
    end.

(** [resetToMain] (lines 431-434); [resetForm] also forgets the file. *)
Definition resetToMain (s : Screen) : Screen :=
  on_page (showSection main) (on_page resetForm (set_selectedFile None s)).

End WithHost.
End Popup.

(* ================================================================== *)
(** * A concrete host                                                  *)
(* ================================================================== *)

(** A browser in the UTC zone, used to run the program on inputs.  Its
    [Date] reads the two formats the program itself writes
    ([toISOString] and the value of a datetime-local input), its
    [parseFloat] reads plain decimal literals, its clock advances one
    day every second read and its errors are worded as Chrome's. *)
Module Test.

Definition ms_per_day : Z := 86400000.

(** Days since the epoch of a proleptic Gregorian date, month in 1..12. *)
Definition days_from_civil (y m d : Z) : Z :=
  let y := if m <=? 2 then y - 1 else y in
  let era := y / 400 in
  let yoe := y - era * 400 in
  let doy := (153 * (if 2 <? m then m - 3 else m + 9) + 2) / 5 + d - 1 in
  let doe := yoe * 365 + yoe / 4 - yoe / 100 + doy in
  era * 146097 + doe - 719468.

(** The date (year, month in 1..12, day) of a day number. *)
Definition civil_from_days (z : Z) : Z * Z * Z :=
  let z := z + 719468 in
  let era := z / 146097 in
  let doe := z - era * 146097 in
  let yoe := (doe - doe / 1460 + doe / 36524 - doe / 146096) / 365 in
  let doy := doe - (365 * yoe + yoe / 4 - yoe / 100) in
  let mp := (5 * doy + 2) / 153 in
  let d := doy - (153 * mp + 2) / 5 + 1 in
  let m := if mp <? 10 then mp + 3 else mp - 9 in
  (if m <=? 2 then yoe + era * 400 + 1 else yoe + era * 400, m, d).

Definition year_of (t : Z) : Z := fst (fst (civil_from_days (t / ms_per_day))).
Definition month_of (t : Z) : Z := snd (fst (civil_from_days (t / ms_per_day))) - 1.
Definition day_of (t : Z) : Z := snd (civil_from_days (t / ms_per_day)).
Definition hours_of (t : Z) : Z := (t mod ms_per_day) / 3600000.
Definition minutes_of (t : Z) : Z := (t mod 3600000) / 60000.
Definition seconds_of (t : Z) : Z := (t mod 60000) / 1000.
Definition millis_of (t : Z) : Z := t mod 1000.

Definition pad (n : nat) (x : Z) : string := padStart n "0" (string_of_Z x).

Definition iso_of (t : Z) : string :=
  (pad 4 (year_of t) ++ "-" ++ pad 2 (month_of t + 1) ++ "-"
   ++ pad 2 (day_of t) ++ "T" ++ pad 2 (hours_of t) ++ ":"
   ++ pad 2 (minutes_of t) ++ ":" ++ pad 2 (seconds_of t) ++ "."
   ++ pad 3 (millis_of t) ++ "Z")%string.

Definition time_of_parts (y m d h mi s : Z) : option Z :=
  let y := if (0 <=? y) && (y <=? 99) then 1900 + y else y in
  Popup.Date_of_number
    (days_from_civil (y + m / 12) (m mod 12 + 1) d * ms_per_day
     + h * 3600000 + mi * 60000 + s * 1000).

Definition all_digits (s : string) : bool :=
  negb (String.eqb s "")
  && forallb (fun c => let n := nat_of_ascii c in
                       (48 <=? n)%nat && (n <=? 57)%nat)
             (list_ascii_of_string s).

(** The digits of [s] from [i], [n] of them. *)
Definition number_at (i n : nat) (s : string) : option Z :=
  let part := substring i n s in
  if all_digits part && (String.length part =? n)%nat
  then parseInt part (Some 10) else None.

Definition char_at (i : nat) (s : string) : string := substring i 1 s.

Definition parse_date (s : string) : option Z :=
  let separators :=
    String.eqb (char_at 4 s) "-" && String.eqb (char_at 7 s) "-"
    && String.eqb (char_at 10 s) "T" && String.eqb (char_at 13 s) ":" in
  let tail_ok :=
    (String.length s =? 16)%nat
    || ((String.length s =? 24)%nat && String.eqb (char_at 16 s) ":"
        && String.eqb (char_at 19 s) "." && String.eqb (char_at 23 s) "Z") in
  if separators && tail_ok then
    match number_at 0 4 s, number_at 5 2 s, number_at 8 2 s,
          number_at 11 2 s, number_at 14 2 s with
    | Some y, Some m, Some d, Some h, Some mi =>
        if (String.length s =? 16)%nat then
          Popup.Date_of_number
            (days_from_civil y m d * ms_per_day + h * 3600000 + mi * 60000)
        else
          match number_at 17 2 s, number_at 20 3 s with
          | Some sec, Some ms =>
              Popup.Date_of_number
                (days_from_civil y m d * ms_per_day + h * 3600000
                 + mi * 60000 + sec * 1000 + ms)
          | _, _ => None
          end
    | _, _, _, _, _ => None
    end
  else None.

Definition date_value (v : value) : option Z :=
  match v with
  | Some (JStr s) => parse_date s
  | Some JNull => Some 0
  | Some (JBool b) => Some (if b then 1 else 0)
  | Some (JNum q) =>
      if (Qden (this q) =? 1)%positive
      then Popup.Date_of_number (Qnum (this q)) else None
  | _ => None
  end.

(** The digits at the head of [s], how many, and what follows them. *)
Fixpoint span_digits (s : string) : Z * nat * string :=
  match s with
  | String c s' =>
      let n := Z.of_nat (nat_of_ascii c) in
      if (48 <=? n) && (n <=? 57) then
        let '(v, k, rest) := span_digits s' in
        ((n - 48) * 10 ^ Z.of_nat k + v, S k, rest)
      else (0, O, s)
  | EmptyString => (0, O, EmptyString)
  end.

Definition parse_float (s : string) : option Qc :=
  let s := trimStart s in
  let '(negative, s) :=
    match s with
    | String "-" s' => (true, s')
    | String "+" s' => (false, s')
    | _ => (false, s)
    end in
  let '(int_part, int_len, rest) := span_digits s in
  let '(frac_part, frac_len) :=
    match rest with
    | String "." rest' =>
        let '(v, k, _) := span_digits rest' in (v, k)
    | _ => (0, O)
    end in
  if ((int_len + frac_len)%nat =? 0)%nat then None
  else
    let scale := 10 ^ Z.of_nat frac_len in
    let n := int_part * scale + frac_part in
    Some (Q2Qc (Qred (Qmake (if negative : bool then - n else n)
                            (Z.to_pos scale)))).

Definition chrome_message (f : engine_fault) : string :=
  match f with
  | ReadOfNull k =>
      "Cannot read properties of null (reading '" ++ k ++ "')"
  | ReadOfUndefined k =>
      "Cannot read properties of undefined (reading '" ++ k ++ "')"
  | NotAFunction c => c ++ " is not a function"
  | InvalidTimeValue => "Invalid time value"
  | JSONSyntax => "Unexpected end of JSON input"
  end%string.

(** 2024-01-01T00:00:00.000Z, and the two days after it. *)
Definition T1 : Z := 1704067200000.
Definition T2 : Z := T1 + ms_per_day.
Definition T3 : Z := T2 + ms_per_day.

#[export] Instance host : Host := {|
  Date_value := date_value;
  Date_local := time_of_parts;
  toISOString := iso_of;
  getFullYear := year_of;
  getMonth := month_of;
  getDate := day_of;
  getHours := hours_of;
  getMinutes := minutes_of;
  parseFloat := parse_float;
  engine_message := chrome_message;
  clock := fun n => T1 + ms_per_day * Z.of_nat (n / 2);
  Math_random := fun n => Qmake (Z.of_nat (n mod 16)) 16;
|}.

(** The store before anything was saved. *)
Definition fresh : World := mkWorld None [] 0 0.

Definition blank : Popup.Page :=
  Popup.mkPage Popup.edit "" false "" "" "" "" None.

(** The edit form filled in with a date, an amount and a memo. *)
Definition form (date amount memo : string) : Popup.Page :=
  Popup.mkPage Popup.edit "" false "" date amount memo None.

(** A record as [saveRecord] writes it. *)
Definition record (id : string) (amount : Z) (created : string) : json :=
  JObj [ ("id", JStr id);
         ("datetime", JStr created);
         ("amount", num amount);
         ("memo", JStr "");
         ("source", JStr "manual");
         ("imageData", JNull);
         ("createdAt", JStr created);
         ("updatedAt", JStr created) ].

Definition record_a : json := record "a" 12 "2024-01-01T00:00:00.000Z".
Definition record_b : json := record "b" 30 "2024-01-02T00:00:00.000Z".

Definition record_c : json := record "c" 7 "2024-01-03T00:00:00.000Z".

(** An incoming record with the id of [record_a] and other fields. *)
Definition record_a' : json := record "a" 50 "2024-01-05T00:00:00.000Z".

(** An import document with a colliding record and a new one. *)
Definition document : json := JObj [("records", JArr [record_a'; record_c])].

(** An entry that has none of the fields of a record. *)
Definition shapeless : json := JObj [("note", JStr "neither id nor amount")].

(** An entry whose id is an array, as a JSON document can hold one. *)
Definition listed_id : json := JObj [("id", JArr [num 1])].

(** A store of two records, the older one first. *)
Definition two_records : World := mkWorld (Some [record_a; record_b]) [] 0 0.

(** A store that holds [record_b] alone. *)
Definition one_record : World := mkWorld (Some [record_b]) [] 0 0.

(** A photograph last modified at [T2] with the given EXIF answer. *)
Definition photo (m : Popup.exif) : Popup.File := Popup.mkFile T2 m.

(** The store of two records when the clock has been read four times:
    its next read is later than both records. *)
Definition later : World := mkWorld (Some [record_a; record_b]) [] 4 0.

(** A store of two records whose next storage call fails. *)
Definition failing_read : World :=
  mkWorld (Some [record_a; record_b]) [Some "Storage unavailable"] 0 0.

(** A store of two records whose next storage call but one fails. *)
Definition failing_write : World :=
  mkWorld (Some [record_a; record_b])
          [None; Some "QUOTA_BYTES quota exceeded"] 0 0.

(** A store of two records whose third storage call fails. *)
Definition failing_refresh : World :=
  mkWorld (Some [record_a; record_b])
          [None; None; Some "Storage unavailable"] 0 0.

(** A model that is available and answers [answer] to the prompt. *)
Definition model (answer : string) : PromptAPIWrapper.LanguageModel :=
  PromptAPIWrapper.mkLanguageModel
    (Resolved "available") (Resolved tt) (Resolved tt) (Resolved answer).

(** The screen around a page, with no file, no badge and no toast. *)
Definition screen (p : Popup.Page) : Popup.Screen :=
  Popup.mkScreen p None None None.

End Test.

(* ================================================================== *)
(** * The specification's sentences as predicates                      *)
(* ================================================================== *)

Module Spec.
Import RecordStorage Popup.
Section WithHost.
Context `{host : Host}.

(** The stored entry has the id [id]: [r.id === id]. *)
Definition has_id (id : string) (r : json) : bool :=
  strict_eq_string (field r "id") id.

(** An id is a primitive value, not an array or an object. *)
Definition primitive (v : value) : bool :=
  match v with
  | Some (JArr _) | Some (JObj _) => false
  | _ => true
  end.

(** The incoming record has an id that no existing record has:
    [!existingIds.has(r.id)]. *)
Definition is_new (existing : list json) (r : json) : bool :=
  negb (set_has (map (fun e => field e "id") existing) (field r "id")).

(** Section 4.2, step 3, at one file: the extraction ends well and the
    timestamp is the file's last-modified time. *)
Definition falls_back_to_file_date (file : File) (p : Page) : Prop :=
  exists p',
    extractEXIFData file p = (Resolved tt, p')
    /\ extractedDateTime p' = Some (Date_of_number (lastModified file)).

(** Section 4.1, [delete], at one id that no stored record has: the
    operation fails and the store is as it was. *)
Definition delete_absent_fails (id : string) (w : World) : Prop :=
  (forall r, In r (stored w) -> has_id id r = false) ->
  exists e w', deleteRecord id w = (Rejected e, w') /\ storage w' = storage w.

(** Section 4.1, [update], at one stored id: whatever [updates] holds,
    the updated record has the id and the [createdAt] it had. *)
Definition update_keeps_identity (id : string) (updates : object) (w : World)
  : Prop :=
  forall old, In (JObj old) (stored w) -> get old "id" = Some (JStr id) ->
  exists updated w',
    updateRecord id updates w = (Resolved (JObj updated), w')
    /\ get updated "id" = get old "id"
    /\ get updated "createdAt" = get old "createdAt".

(** Section 4.1, [importMerge], at one document that is malformed: the
    import fails and the store is as it was. *)
Definition import_rejects (document : json) (w : World) : Prop :=
  exists e w',
    importFromJSON (Text document) w = (Rejected e, w')
    /\ storage w' = storage w.

(** Section 4.1, [importMerge], at one incoming record whose id a stored
    record has: the record is skipped, the import adds nothing. *)
Definition skips_known_id (r : json) (w : World) : Prop :=
  (exists e, In e (stored w) /\ field e "id" = field r "id") ->
  exists w',
    importFromJSON (Text (JObj [("records", JArr [r])])) w
    = (Resolved 0%nat, w').

(** Section 8, the round trip at one store: the import of its export
    adds 0 records and the store lists as before. *)
Definition reimport_adds_nothing (w : World) : Prop :=
  exists snapshot we wi,
    exportToJSON w = (Resolved snapshot, we)
    /\ importFromJSON snapshot we = (Resolved 0%nat, wi)
    /\ fst (getAllRecords wi) = fst (getAllRecords w).

(** Section 4.1, [listAll], at one store: the listing holds every
    stored record, and no listed record is older than one listed after
    it. *)
Definition lists_newest_first (w : World) : Prop :=
  exists records w',
    getAllRecords w = (Resolved records, w')
    /\ Permutation records (stored w)
    /\ forall i j a b ta tb,
         (i < j)%nat ->
         nth_error records i = Some a -> nth_error records j = Some b ->
         createdAt_time a = Some ta -> createdAt_time b = Some tb ->
         tb <= ta.

(** The fields of a Record in section 3 and in the export schema of
    section 6. *)
Definition record_fields : list string :=
  ["id"; "datetime"; "amount"; "memo"; "source"; "createdAt"; "updatedAt"].

(** Section 6, the export document schema, at one store. *)
Definition export_has_schema (w : World) : Prop :=
  exists exportTimestamp formatVersion records w',
    exportToJSON w
    = (Resolved (Text (JObj [ ("exportTimestamp", JStr exportTimestamp);
                              ("formatVersion", JStr formatVersion);
                              ("records", JArr records) ])), w')
    /\ Permutation records (stored w)
    /\ Forall (fun r => forall k, In k (map fst (own_props r))
                                  <-> In k record_fields) records.

(** The id [saveRecord] gives to the record it creates in [w]. *)
Definition next_id (w : World) : string :=
  fst (replace_xy template (draws w)).

Definition is_hex (c : ascii) : bool :=
  let n := nat_of_ascii c in
  ((48 <=? n) && (n <=? 57) || (97 <=? n) && (n <=? 102))%nat.

Definition is_variant (c : ascii) : bool :=
  Ascii.eqb c "8" || Ascii.eqb c "9" || Ascii.eqb c "a" || Ascii.eqb c "b".

(** [s] is the template [t] with a lower-case hex digit in the place of
    every [x], one of 8, 9, a, b in the place of every [y], and every
    other character as it is. *)
Fixpoint fills (t s : string) : bool :=
  match t, s with
  | EmptyString, EmptyString => true
  | String ct t', String cs s' =>
      (if Ascii.eqb ct "x" then is_hex cs
       else if Ascii.eqb ct "y" then is_variant cs
       else Ascii.eqb ct cs)
      && fills t' s'
  | _, _ => false
  end.

Definition is_digit (c : ascii) : bool :=
  let n := nat_of_ascii c in ((48 <=? n) && (n <=? 57))%nat.

(** [s] is the pattern [t] with a decimal digit in the place of every
    [d] and every other character as it is. *)
Fixpoint shaped (t s : string) : bool :=
  match t, s with
  | EmptyString, EmptyString => true
  | String ct t', String cs s' =>
      (if Ascii.eqb ct "d" then is_digit cs else Ascii.eqb ct cs)
      && shaped t' s'
  | _, _ => false
  end.

(** Record [a] is at least as new as record [b]: both have a valid
    [createdAt] and [b]'s is not later. *)
Definition not_older (a b : json) : Prop :=
  match createdAt_time a, createdAt_time b with
  | Some ta, Some tb => tb <= ta
  | _, _ => False
  end.

(** The record was created at the instant [t]. *)
Definition created_at (t : Z) (r : json) : bool :=
  match createdAt_time r with
  | Some t' => t' =? t
  | None => false
  end.

(** A stored entry the comparator of [getAllRecords] can date. *)
Definition dated (r : json) : Prop :=
  is_null r = false /\ exists t, createdAt_time r = Some t.

(** The record [saveRecord recordData] builds in the world [w]: the id
    that the next random draws give and the next two clock reads. *)
Definition saved_record (recordData : object) (w : World) : object :=
  newRecord_of recordData
    (fst (replace_xy template (draws w)))
    (toISOString (clock (ticks w)))
    (toISOString (clock (S (ticks w)))).

(** The world [saveRecord recordData] leaves when it read [records]. *)
Definition after_save (recordData : object) (records : list json) (w : World)
  : World :=
  mkWorld (Some (records ++ [JObj (saved_record recordData w)]))
          (tl (tl (faults w))) (S (S (ticks w)))
          (snd (replace_xy template (draws w))).

End WithHost.
End Spec.

(* ================================================================== *)
(** * Facts about the sort                                             *)
(* ================================================================== *)

Section SortFacts.
Context {A : Type} (comparefn : A -> A -> option Z).

Lemma insert_perm (x : A) (l : list A) :
  Permutation (insert comparefn x l) (x :: l).
Proof.
  induction l as [|y l IH]; simpl.
  - apply Permutation_refl.
  - destruct (goes_after comparefn x y).
    + eapply perm_trans; [apply perm_skip, IH | apply perm_swap].
    + apply Permutation_refl.
Qed.

Lemma sort_perm (l : list A) : Permutation (sort comparefn l) l.
Proof.
  induction l as [|x l IH]; simpl.
  - constructor.
  - eapply perm_trans; [apply insert_perm | apply perm_skip, IH].
Qed.

Lemma sort_length (l : list A) :
  List.length (sort comparefn l) = List.length l.
Proof. apply Permutation_length, sort_perm. Qed.

(** Elements that the comparator never orders keep their order. *)
Lemma insert_filter (p : A -> bool) (x : A) (l : list A) :
  (forall y, In y l -> p x = true -> p y = true ->
             goes_after comparefn x y = false) ->
  filter p (insert comparefn x l) = filter p (x :: l).
Proof.
  induction l as [|y l IH]; intros Hxy; simpl.
  - reflexivity.
  - destruct (goes_after comparefn x y) eqn:Hgo.
    + simpl. rewrite IH by (intros z Hz; apply Hxy; now right).
      simpl. destruct (p x) eqn:Hpx, (p y) eqn:Hpy; try reflexivity.
      specialize (Hxy y (or_introl eq_refl) eq_refl Hpy). congruence.
    + reflexivity.
Qed.

Lemma sort_stable (p : A -> bool) (l : list A) :
  (forall a b, p a = true -> p b = true ->
               goes_after comparefn a b = false) ->
  filter p (sort comparefn l) = filter p l.
Proof.
  intros Hp. induction l as [|x l IH]; simpl.
  - reflexivity.
  - rewrite insert_filter by (intros y _; apply Hp).
    simpl. now rewrite IH.
Qed.

(** A list whose neighbours are in order is left as it is. *)
Lemma sort_fixed (l : list A) :
  Sorted (fun a b => goes_after comparefn a b = false) l ->
  sort comparefn l = l.
Proof.
  induction 1 as [|x l Hs IH Hhd]; simpl.
  - reflexivity.
  - rewrite IH. destruct Hhd as [|y l Hxy]; simpl.
    + reflexivity.
    + now rewrite Hxy.
Qed.

Hypothesis asymmetric :
  forall a b, goes_after comparefn a b = true ->
              goes_after comparefn b a = false.

Lemma insert_sorted (x : A) (l : list A) :
  Sorted (fun a b => goes_after comparefn a b = false) l ->
  Sorted (fun a b => goes_after comparefn a b = false)
         (insert comparefn x l).
Proof.
  induction 1 as [|y l Hs IH Hhd]; simpl.
  - repeat constructor.
  - destruct (goes_after comparefn x y) eqn:Hgo.
    + constructor; [exact IH|].
      destruct Hhd as [|z l Hyz]; simpl.
      * constructor. now apply asymmetric.
      * destruct (goes_after comparefn x z); constructor;
          [exact Hyz | now apply asymmetric].
    + constructor; [now constructor | now constructor].
Qed.

Lemma sort_sorted (l : list A) :
  Sorted (fun a b => goes_after comparefn a b = false) (sort comparefn l).
Proof.
  induction l as [|x l IH]; simpl.
  - constructor.
  - now apply insert_sorted.
Qed.

(** Sorting what was sorted changes nothing. *)
Lemma sort_idempotent (l : list A) :
  sort comparefn (sort comparefn l) = sort comparefn l.
Proof. apply sort_fixed, sort_sorted. Qed.
End SortFacts.

(* ================================================================== *)
(** * Facts about the store                                            *)
(* ================================================================== *)

Section StoreFacts.
Import RecordStorage Spec.
Context `{host : Host}.

Lemma existsb_perm {A} (p : A -> bool) (l l' : list A) :
  Permutation l l' -> existsb p l = existsb p l'.
Proof.
  induction 1; simpl; try congruence.
  destruct (p x), (p y); reflexivity.
Qed.

Lemma goes_after_newest_first (a b : json) :
  goes_after newest_first a b =
  match createdAt_time a, createdAt_time b with
  | Some ta, Some tb => ta <? tb
  | _, _ => false
  end.
Proof.
  unfold goes_after, newest_first.
  destruct (createdAt_time a) as [ta|], (createdAt_time b) as [tb|];
    try reflexivity.
  destruct (Z.ltb_spec ta tb), (Z.ltb_spec 0 (tb - ta)); auto; lia.
Qed.

Lemma newest_first_asymmetric (a b : json) :
  goes_after newest_first a b = true -> goes_after newest_first b a = false.
Proof.
  rewrite !goes_after_newest_first.
  destruct (createdAt_time a) as [ta|], (createdAt_time b) as [tb|];
    try discriminate; try reflexivity.
  intros H. apply Z.ltb_lt in H. apply Z.ltb_ge. lia.
Qed.

Lemma no_null_no_throw (l : list json) :
  existsb is_null l = false -> comparator_throws l = false.
Proof. intros H. unfold comparator_throws. rewrite H. apply andb_false_r. Qed.

Lemma comparator_throws_sort (l : list json) :
  comparator_throws (sort newest_first l) = comparator_throws l.
Proof.
  unfold comparator_throws.
  now rewrite sort_length, (existsb_perm _ _ _ (sort_perm newest_first l)).
Qed.

Lemma dated_no_null (l : list json) :
  Forall dated l -> existsb is_null l = false.
Proof.
  induction 1 as [|r l [Hr _] _ IH]; simpl.
  - reflexivity.
  - now rewrite Hr, IH.
Qed.

(** With no fault ahead, the next two storage calls succeed. *)
Lemma no_faults_ahead (w : World) :
  faults w = [] -> lastError w = None /\ lastError (after_call w) = None.
Proof. intros Hw. unfold lastError, after_call. simpl. now rewrite Hw. Qed.

(** What a resolved read says about the world it ran in. *)
Lemma getAllRecords_resolved (w w1 : World) (records : list json) :
  getAllRecords w = (Resolved records, w1) ->
  lastError w = None /\ comparator_throws (stored w) = false
  /\ records = sort newest_first (stored w) /\ w1 = after_call w.
Proof.
  unfold getAllRecords. destruct (lastError w); [discriminate|].
  destruct (comparator_throws (stored w)); [discriminate|].
  intros H. inversion H. auto.
Qed.

Lemma getAllRecords_run (w : World) :
  lastError w = None -> comparator_throws (stored w) = false ->
  getAllRecords w = (Resolved (sort newest_first (stored w)), after_call w).
Proof. intros H1 H2. unfold getAllRecords. now rewrite H1, H2. Qed.

(** A rejected or pending read leaves the store alone as well. *)
Lemma getAllRecords_storage (w w1 : World) (o : outcome (list json)) :
  getAllRecords w = (o, w1) -> w1 = after_call w.
Proof.
  unfold getAllRecords. destruct (lastError w).
  - congruence.
  - destruct (comparator_throws (stored w)); congruence.
Qed.

Lemma insert_descending (x : json) (l : list json) :
  (exists t, createdAt_time x = Some t) ->
  Forall (fun r => exists t, createdAt_time r = Some t) l ->
  StronglySorted not_older l ->
  StronglySorted not_older (insert newest_first x l).
Proof.
  intros [tx Hx] Hall. induction 1 as [|y l Hs IH Hy]; simpl.
  - repeat constructor.
  - inversion Hall as [|? ? [ty Hty] Hall']; subst.
    rewrite goes_after_newest_first, Hx, Hty.
    destruct (Z.ltb_spec tx ty) as [Hlt|Hge].
    + constructor; [now apply IH|].
      eapply Permutation_Forall; [apply Permutation_sym, insert_perm|].
      constructor; [|exact Hy].
      unfold not_older. rewrite Hty, Hx. lia.
    + constructor; [now constructor|].
      constructor.
      * unfold not_older. now rewrite Hx, Hty.
      * eapply Forall_impl; [|exact Hy].
        intros z. unfold not_older. rewrite Hty, Hx.
        destruct (createdAt_time z); [lia|tauto].
Qed.

Lemma sort_descending (l : list json) :
  Forall dated l -> StronglySorted not_older (sort newest_first l).
Proof.
  induction 1 as [|x l [_ Hx] Hl IH]; simpl.
  - constructor.
  - apply insert_descending; [exact Hx| |exact IH].
    eapply Permutation_Forall; [apply Permutation_sym, sort_perm|].
    eapply Forall_impl; [|exact Hl]. now intros r [_ Hr].
Qed.

(** Records created at the same instant are never swapped. *)
Lemma sort_keeps_ties (t : Z) (l : list json) :
  filter (created_at t) (sort newest_first l) = filter (created_at t) l.
Proof.
  apply sort_stable. intros a b. unfold created_at.
  rewrite goes_after_newest_first.
  destruct (createdAt_time a) as [ta|], (createdAt_time b) as [tb|];
    try discriminate.
  intros Ha Hb. apply Z.eqb_eq in Ha, Hb. apply Z.ltb_ge. lia.
Qed.

(** Reading twice gives the same list: the second sort finds the
    array in order. *)
Lemma getAllRecords_sorted_again (l : list json) :
  sort newest_first (sort newest_first l) = sort newest_first l.
Proof. apply sort_idempotent, newest_first_asymmetric. Qed.

Lemma or_else_default (a : value) (d : json) :
  or_else a (Some d) = Some (match a with
                             | Some v => if truthy a then v else d
                             | None => d
                             end).
Proof. unfold or_else. destruct a as [v|]; [destruct (truthy _)|]; reflexivity. Qed.

(** The keys of a new record, by what [recordData] supplies. *)
Lemma newRecord_fields (recordData : object) (id c u : string) :
  exists memo source,
    or_else (get recordData "memo") (Some (JStr "")) = Some memo
    /\ or_else (get recordData "source") (Some (JStr "manual")) = Some source
    /\ newRecord_of recordData id c u =
       ("id", JStr id)
       :: literal [("datetime", get recordData "datetime");
                   ("amount", get recordData "amount")]
       ++ [("memo", memo); ("source", source); ("imageData", JNull);
           ("createdAt", JStr c); ("updatedAt", JStr u)].
Proof.
  rewrite !or_else_default. do 2 eexists. split; [reflexivity|].
  split; [reflexivity|].
  unfold newRecord_of, literal. simpl. rewrite !or_else_default. simpl.
  destruct (get recordData "datetime"), (get recordData "amount");
    reflexivity.
Qed.

Lemma newRecord_get (recordData : object) (id c u : string) :
  get (newRecord_of recordData id c u) "id" = Some (JStr id)
  /\ get (newRecord_of recordData id c u) "datetime"
     = get recordData "datetime"
  /\ get (newRecord_of recordData id c u) "amount" = get recordData "amount"
  /\ get (newRecord_of recordData id c u) "memo"
     = or_else (get recordData "memo") (Some (JStr ""))
  /\ get (newRecord_of recordData id c u) "source"
     = or_else (get recordData "source") (Some (JStr "manual"))
  /\ get (newRecord_of recordData id c u) "imageData" = Some JNull
  /\ get (newRecord_of recordData id c u) "createdAt" = Some (JStr c)
  /\ get (newRecord_of recordData id c u) "updatedAt" = Some (JStr u).
Proof.
  destruct (newRecord_fields recordData id c u) as (m & s & Hm & Hs & ->).
  rewrite Hm, Hs. unfold literal. simpl.
  destruct (get recordData "datetime"), (get recordData "amount");
    simpl; repeat split; reflexivity.
Qed.

(** One run of [saveRecord] whose read and write both succeed. *)
Lemma saveRecord_run (recordData : object) (w w1 : World)
      (records : list json) :
  getAllRecords w = (Resolved records, w1) ->
  lastError w1 = None ->
  saveRecord recordData w
  = (Resolved (saved_record recordData w), after_save recordData records w).
Proof.
  intros Hget Hset.
  apply getAllRecords_resolved in Hget as Hw.
  destruct Hw as (_ & _ & _ & ->).
  unfold saveRecord, bind. rewrite Hget.
  unfold generateId, saved_record, after_save. simpl.
  destruct (replace_xy template (draws w)) as [id n]. simpl.
  unfold storage_set, lastError in *. simpl in *. rewrite Hset.
  reflexivity.
Qed.
End StoreFacts.

(* ================================================================== *)
(** * listAll: [getAllRecords]                                         *)
(* ================================================================== *)

Section ListAll.
Import RecordStorage Spec.
Context `{host : Host}.

Lemma saved_record_time (recordData : object) (w : World) (t : Z) :
  clock (ticks w) = t ->
  Date_value (Some (JStr (toISOString t))) = Some t ->
  createdAt_time (JObj (saved_record recordData w)) = Some t.
Proof.
  intros Hclock Hdate.
  destruct (newRecord_get recordData
              (fst (replace_xy template (draws w)))
              (toISOString (clock (ticks w)))
              (toISOString (clock (S (ticks w)))))
    as (_ & _ & _ & _ & _ & _ & Hget & _).
  unfold createdAt_time, field, prop, saved_record.
  now rewrite Hget, Hclock.
Qed.

(** The sorted read of any store of dated records. *)
Lemma getAllRecords_sorted (w : World) :
  lastError w = None ->
  Forall dated (stored w) ->
  getAllRecords w = (Resolved (sort newest_first (stored w)), after_call w)
  /\ Permutation (sort newest_first (stored w)) (stored w)
  /\ StronglySorted not_older (sort newest_first (stored w))
  /\ forall t, filter (created_at t) (sort newest_first (stored w))
               = filter (created_at t) (stored w).
Proof.
  intros Herr Hdated. repeat split.
  - apply getAllRecords_run; [exact Herr|].
    now apply no_null_no_throw, dated_no_null.
  - apply sort_perm.
  - now apply sort_descending.
  - intros t. apply sort_keeps_ties.
Qed.

(** [saveRecord] keeps a store of dated records dated, when the host's
    [Date] reads back the [toISOString] of the creation time. *)
Lemma saveRecord_keeps_dated
    (recordData : object) (w w1 : World) (records : list json) :
  getAllRecords w = (Resolved records, w1) ->
  Date_value (Some (JStr (toISOString (clock (ticks w)))))
  = Some (clock (ticks w)) ->
  Forall dated (stored w) ->
  Forall dated (stored (after_save recordData records w)).
Proof.
  intros Hget Hdate Hdated.
  apply getAllRecords_resolved in Hget as (_ & _ & -> & _).
  unfold after_save, stored at 1. simpl. apply Forall_app. split.
  - eapply Permutation_Forall; [apply Permutation_sym, sort_perm|exact Hdated].
  - constructor; [|constructor]. split; [reflexivity|].
    exists (clock (ticks w)). now apply saved_record_time.
Qed.


(** In a list sorted by [R], [R] holds from every place to every
    later place. *)
Lemma sorted_places {A} (R : A -> A -> Prop) (l : list A) :
  StronglySorted R l ->
  forall i j a b,
    (i < j)%nat -> nth_error l i = Some a -> nth_error l j = Some b -> R a b.
Proof.
  induction 1 as [|x l Hs IH Hx]; intros i j a b Hlt Ha Hb.
  - destruct i; discriminate.
  - destruct j as [|j]; [lia|]. destruct i as [|i]; simpl in Ha, Hb.
    + inversion Ha; subst. rewrite Forall_forall in Hx.
      apply Hx. eapply nth_error_In. exact Hb.
    + apply (IH i j); [lia|assumption..].
Qed.

(** A store of dated records is listed newest first. *)
Lemma dated_lists_newest_first (w : World) :
  lastError w = None -> Forall dated (stored w) -> lists_newest_first w.
Proof.
  intros Herr Hdated.
  destruct (getAllRecords_sorted w Herr Hdated) as (Hrun & Hperm & Hs & _).
  exists (sort newest_first (stored w)), (after_call w).
  split; [exact Hrun|]. split; [exact Hperm|].
  intros i j a b ta tb Hlt Ha Hb Hta Htb.
  pose proof (sorted_places not_older _ Hs i j a b Hlt Ha Hb) as Hab.
  unfold not_older in Hab. now rewrite Hta, Htb in Hab.
Qed.

End ListAll.




(* ================================================================== *)
(** * Confidence of an estimate                                        *)
(* ================================================================== *)

Section Confidence.
Import PromptAPIWrapper.
Context `{host : Host}.

Lemma confidence_high (v : Z) : confidence_of v = "high" <-> 10 <= v <= 40.
Proof.
  unfold confidence_of.
  destruct (Z.leb_spec 10 v), (Z.leb_spec v 40),
           (Z.ltb_spec v 5), (Z.ltb_spec 45 v);
    simpl; split; intros; try discriminate; try lia; reflexivity.
Qed.

Lemma confidence_low (v : Z) : confidence_of v = "low" <-> v < 5 \/ 45 < v.
Proof.
  unfold confidence_of.
  destruct (Z.leb_spec 10 v), (Z.leb_spec v 40),
           (Z.ltb_spec v 5), (Z.ltb_spec 45 v);
    simpl; split; intros; try discriminate; try lia; reflexivity.
Qed.

Lemma confidence_medium (v : Z) :
  confidence_of v = "medium" <-> 5 <= v < 10 \/ 40 < v <= 45.
Proof.
  unfold confidence_of.
  destruct (Z.leb_spec 10 v), (Z.leb_spec v 40),
           (Z.ltb_spec v 5), (Z.ltb_spec 45 v);
    simpl; split; intros; try discriminate; try lia; reflexivity.
Qed.

(** A run in which the model is usable and answers with an integer of
    the range. *)
Lemma estimate_run (lm : LanguageModel) (status result : string) (v : Z) :
  availability lm = Resolved status ->
  status <> "unavailable" ->
  create lm = Resolved tt ->
  append lm = Resolved tt ->
  prompt lm = Resolved result ->
  parseInt (trim result) (Some 10) = Some v ->
  0 <= v <= 50 ->
  estimateFlowFromImage (Some lm)
  = Resolved (mkEstimate (Some v) (Some (confidence_of v)) None).
Proof.
  intros Ha Hs Hc Hp Hr Hv Hrange.
  unfold estimateFlowFromImage, checkAvailability, try_await.
  rewrite Ha. apply String.eqb_neq in Hs. rewrite Hs. simpl.
  rewrite Hc, Hp, Hr, Hv.
  destruct (Z.ltb_spec v 0), (Z.ltb_spec 50 v); try lia. reflexivity.
Qed.

(** C9.  The confidence of an estimate is a function of the validated
    integer alone: when the model is usable and its answer parses to an
    integer [v] of [0, 50], the result carries [v] and [confidence_of v];
    and [confidence_of v] is high exactly on [10, 40], low exactly below
    5 and above 45, medium exactly on [5, 10) and (40, 45]; 3 is low, 7
    medium, 25 high, 42 medium, 48 low. *)
Theorem confidence_classification
    (lm : LanguageModel) (status result : string) (v : Z) :
  availability lm = Resolved status ->
  status <> "unavailable" ->
  create lm = Resolved tt ->
  append lm = Resolved tt ->
  prompt lm = Resolved result ->
  parseInt (trim result) (Some 10) = Some v ->
  0 <= v <= 50 ->
  estimateFlowFromImage (Some lm)
  = Resolved (mkEstimate (Some v) (Some (confidence_of v)) None)
  /\ (confidence_of v = "high" <-> 10 <= v <= 40)
  /\ (confidence_of v = "low" <-> v < 5 \/ 45 < v)
  /\ (confidence_of v = "medium" <-> 5 <= v < 10 \/ 40 < v <= 45)
  /\ confidence_of 3 = "low"
  /\ confidence_of 7 = "medium"
  /\ confidence_of 25 = "high"
  /\ confidence_of 42 = "medium"
  /\ confidence_of 48 = "low".
Proof.
  intros Ha Hs Hc Hp Hr Hv Hrange.
  split; [now apply estimate_run with (status := status) (result := result)|].
  split; [apply confidence_high|].
  split; [apply confidence_low|].
  split; [apply confidence_medium|].
  repeat split; reflexivity.
Qed.
End Confidence.

(** The model answers " 42 " with white space around it. *)
Lemma confidence_classification_witness :
  PromptAPIWrapper.estimateFlowFromImage (host := Test.host)
    (Some (PromptAPIWrapper.mkLanguageModel
             (Resolved "available") (Resolved tt) (Resolved tt)
             (Resolved " 42 ")))
  = Resolved (PromptAPIWrapper.mkEstimate (Some 42) (Some "medium") None).
Proof.
  apply (confidence_classification (host := Test.host)
           (PromptAPIWrapper.mkLanguageModel
              (Resolved "available") (Resolved tt) (Resolved tt)
              (Resolved " 42 "))
           "available" " 42 " 42);
    try reflexivity; [discriminate | lia].
Defined.

(* ================================================================== *)
(** * create: [saveRecord], and what an export shows of it             *)
(* ================================================================== *)

Section Create.
Import RecordStorage Spec.
Context `{host : Host}.

(** One run of [exportToJSON] whose read succeeds. *)
Lemma exportToJSON_run (w w1 : World) (records : list json) :
  getAllRecords w = (Resolved records, w1) ->
  exportToJSON w
  = (Resolved (Text (export_document (toISOString (clock (ticks w))) records)),
     mkWorld (storage w) (tl (faults w)) (S (ticks w)) (draws w)).
Proof.
  intros Hget. apply getAllRecords_resolved in Hget as Hw.
  destruct Hw as (_ & _ & _ & ->).
  unfold exportToJSON, bind. now rewrite Hget.
Qed.

(** C10.  Whatever [recordData] holds, the record [saveRecord] stores
    has the memo [''] when the memo is missing or empty, the source
    ['manual'] when the source is missing, and a field [imageData] set to
    [null]; the record is appended as it is, and an export of the store
    made next carries it, [imageData] included. *)
Theorem saveRecord_defaults
    (recordData : object) (w w1 : World) (records : list json) :
  getAllRecords w = (Resolved records, w1) ->
  lastError w1 = None ->
  lastError (after_call w1) = None ->
  existsb is_null records = false ->
  exists newRecord w2,
    saveRecord recordData w = (Resolved newRecord, w2)
    /\ storage w2 = Some (records ++ [JObj newRecord])
    /\ (get recordData "memo" = None \/ get recordData "memo" = Some (JStr "")
        -> get newRecord "memo" = Some (JStr ""))
    /\ (get recordData "source" = None
        -> get newRecord "source" = Some (JStr "manual"))
    /\ get newRecord "imageData" = Some JNull
    /\ exists now exported w3,
         exportToJSON w2 = (Resolved (Text (export_document now exported)), w3)
         /\ In (JObj newRecord) exported
         /\ prop (JObj newRecord) "imageData" = Normal (Some JNull).
Proof.
  intros Hget Hset Hnext Hnull.
  exists (saved_record recordData w), (after_save recordData records w).
  destruct (newRecord_get recordData
              (fst (replace_xy template (draws w)))
              (toISOString (clock (ticks w)))
              (toISOString (clock (S (ticks w)))))
    as (_ & _ & _ & Hmemo & Hsource & Himage & _).
  fold (saved_record recordData w) in Hmemo, Hsource, Himage.
  split; [now apply saveRecord_run with (w1 := w1)|].
  split; [reflexivity|].
  split; [intros [H|H]; rewrite Hmemo, H; reflexivity|].
  split; [intros H; rewrite Hsource, H; reflexivity|].
  split; [exact Himage|].
  apply getAllRecords_resolved in Hget as (Herr & _ & Hrecords & Hw1).
  set (w2 := after_save recordData records w).
  assert (Hread : getAllRecords w2
                  = (Resolved (sort newest_first (stored w2)), after_call w2)).
  { apply getAllRecords_run.
    - subst w1. exact Hnext.
    - apply no_null_no_throw. unfold w2, after_save, stored. simpl.
      rewrite existsb_app, Hnull. reflexivity. }
  eexists _, _, _. split; [apply (exportToJSON_run _ _ _ Hread)|].
  split.
  - eapply Permutation_in; [apply Permutation_sym, sort_perm|].
    unfold w2, after_save, stored. simpl. apply in_or_app. right. now left.
  - unfold prop. now rewrite Himage.
Qed.
End Create.

(** A record saved with neither memo nor source, on the concrete host. *)
Lemma saveRecord_defaults_witness :
  exists newRecord w2,
    RecordStorage.saveRecord (host := Test.host)
      [("datetime", JStr "2024-01-01T00:00:00.000Z"); ("amount", num 12)]
      Test.fresh = (Resolved newRecord, w2)
    /\ get newRecord "memo" = Some (JStr "")
    /\ get newRecord "source" = Some (JStr "manual")
    /\ get newRecord "imageData" = Some JNull.
Proof.
  destruct (saveRecord_defaults (host := Test.host)
              [("datetime", JStr "2024-01-01T00:00:00.000Z");
               ("amount", num 12)]
              Test.fresh (after_call Test.fresh) [])
    as (r & w2 & Hrun & _ & Hmemo & Hsource & Himage & _);
    try reflexivity.
  exists r, w2. repeat split; auto.
Defined.

(* ================================================================== *)
(** * create: the save handler                                         *)
(* ================================================================== *)

Section SaveHandler.
Import RecordStorage Spec.
Context `{host : Host}.

(** [saveRecord] stores the amount it is given, whatever it is. *)
Lemma saveRecord_any_amount
    (recordData : object) (w w1 : World) (records : list json) :
  getAllRecords w = (Resolved records, w1) ->
  lastError w1 = None ->
  exists newRecord w2,
    saveRecord recordData w = (Resolved newRecord, w2)
    /\ storage w2 = Some (records ++ [JObj newRecord])
    /\ get newRecord "amount" = get recordData "amount"
    /\ get newRecord "datetime" = get recordData "datetime".
Proof.
  intros Hget Hset.
  exists (saved_record recordData w), (after_save recordData records w).
  destruct (newRecord_get recordData
              (fst (replace_xy template (draws w)))
              (toISOString (clock (ticks w)))
              (toISOString (clock (S (ticks w)))))
    as (_ & Hdate & Hamount & _).
  split; [now apply saveRecord_run with (w1 := w1)|].
  repeat split; assumption.
Qed.
End SaveHandler.

(** C1.  The code at the inputs the claim names, on the concrete host
    and an empty store.  With the amount field holding 51, or 3.5, the
    save handler ends on the success section and the store holds one
    record with that amount; with -1 it shows an error and the store is
    untouched; [saveRecord] itself stores -1. *)
Theorem handleSave_accepts_51_and_3_5 :
  Popup.handleSave (host := Test.host)
    (Test.form "2024-01-01T00:00" "51" "") Test.fresh
  = (Resolved tt,
     Popup.mkPage Popup.success "" false "Saved: 1 record" "" "" "" None,
     mkWorld
       (Some [JObj [("id", JStr "01234567-89ab-4cde-b012-3456789abcde");
                    ("datetime", JStr "2024-01-01T00:00:00.000Z");
                    ("amount", num 51);
                    ("memo", JStr "");
                    ("source", JStr "manual");
                    ("imageData", JNull);
                    ("createdAt", JStr "2024-01-01T00:00:00.000Z");
                    ("updatedAt", JStr "2024-01-01T00:00:00.000Z")]])
       [] 2 31)
  /\ Popup.handleSave (host := Test.host)
       (Test.form "2024-01-01T00:00" "3.5" "") Test.fresh
     = (Resolved tt,
        Popup.mkPage Popup.success "" false "Saved: 1 record" "" "" "" None,
        mkWorld
          (Some [JObj [("id", JStr "01234567-89ab-4cde-b012-3456789abcde");
                       ("datetime", JStr "2024-01-01T00:00:00.000Z");
                       ("amount", JNum (Q2Qc (Qmake 7 2)));
                       ("memo", JStr "");
                       ("source", JStr "manual");
                       ("imageData", JNull);
                       ("createdAt", JStr "2024-01-01T00:00:00.000Z");
                       ("updatedAt", JStr "2024-01-01T00:00:00.000Z")]])
          [] 2 31)
  /\ Popup.handleSave (host := Test.host)
       (Test.form "2024-01-01T00:00" "-1" "") Test.fresh
     = (Resolved tt,
        Popup.showError "Please enter a valid flow amount"
          (Test.form "2024-01-01T00:00" "-1" ""),
        Test.fresh)
  /\ storage (snd (RecordStorage.saveRecord (host := Test.host)
                     [("datetime", JStr "2024-01-01T00:00:00.000Z");
                      ("amount", num (-1))] Test.fresh))
     = Some [JObj [("id", JStr "01234567-89ab-4cde-b012-3456789abcde");
                   ("datetime", JStr "2024-01-01T00:00:00.000Z");
                   ("amount", num (-1));
                   ("memo", JStr "");
                   ("source", JStr "manual");
                   ("imageData", JNull);
                   ("createdAt", JStr "2024-01-01T00:00:00.000Z");
                   ("updatedAt", JStr "2024-01-01T00:00:00.000Z")]].
Proof. repeat split; vm_compute; reflexivity. Qed.

(* ================================================================== *)
(** * Timestamp extraction                                             *)
(* ================================================================== *)

Section Extraction.
Import Popup Spec.
Context `{host : Host}.

Lemma split_from_no_separator (sep : ascii) (s cur : string) :
  ~ In sep (list_ascii_of_string s) ->
  exists part, split_from sep s cur = [part].
Proof.
  revert cur. induction s as [|c s IH]; intros cur Hno; simpl.
  - eauto.
  - destruct (Ascii.eqb_spec c sep) as [->|Hne].
    + exfalso. apply Hno. now left.
    + apply IH. intros Hin. apply Hno. now right.
Qed.

(** A tag without a space has no time part: [parts[1]] is undefined. *)
Lemma parseEXIFDate_no_space (s : string) :
  ~ In " "%char (list_ascii_of_string s) ->
  parseEXIFDate (JStr s) = Abrupt (Thrown (ReadOfUndefined "split")).
Proof.
  intros Hno. unfold parseEXIFDate, split.
  destruct (split_from_no_separator " " s EmptyString Hno) as [part ->].
  reflexivity.
Qed.

(** C3, as the code has it.  When the capture-time tag is absent, or is
    any other falsy value, the extraction resolves with the file's
    last-modified time.  It does not fall back on an error: when the tag
    is a non-empty string without a space (no time part), or when
    reading the tag throws, its promise is rejected with
    ['EXIF parsing error: ...'], and a throw of [EXIF.getData] rejects
    it as it is; the page is left as it was.  A well-formed tag gives
    the local time it spells. *)
Theorem extraction_outcomes
    (modified : Z) (p : Page) (v : value) (s : string) (e : js_error) :
  truthy v = false ->
  s <> "" ->
  ~ In " "%char (list_ascii_of_string s) ->
  extractEXIFData (mkFile modified (Tag v)) p
  = (Resolved tt,
     set_extracted (Date_of_number modified)
                   (formatDateForInput (Date_of_number modified)) p)
  /\ extractEXIFData (mkFile modified (Tag (Some (JStr s)))) p
     = (Rejected (Error ("EXIF parsing error: "
                         ++ engine_message (ReadOfUndefined "split"))%string),
        p)
  /\ extractEXIFData (mkFile modified (GetTagThrows e)) p
     = (Rejected (Error ("EXIF parsing error: " ++ message e)%string), p)
  /\ extractEXIFData (mkFile modified (GetDataThrows e)) p = (Rejected e, p)
  /\ extractEXIFData
       (mkFile modified (Tag (Some (JStr "2024:12:25 14:30:45")))) p
     = (Resolved tt,
        set_extracted (Date_local 2024 11 25 14 30 45)
          (formatDateForInput (Date_local 2024 11 25 14 30 45)) p).
Proof.
  intros Hfalsy Hne Hno. repeat split.
  - unfold extractEXIFData. simpl. rewrite Hfalsy.
    destruct v; reflexivity.
  - unfold extractEXIFData. cbn [metadata]. unfold truthy.
    apply String.eqb_neq in Hne. rewrite Hne. cbn [negb].
    now rewrite parseEXIFDate_no_space.
Qed.
End Extraction.

(** A photograph without the tag, and one whose tag is ["garbage"]. *)
Lemma extraction_outcomes_witness :
  Popup.extractEXIFData (host := Test.host) (Test.photo (Popup.Tag None))
    Test.blank
  = (Resolved tt,
     Popup.mkPage Popup.edit "" false "" "2024-01-02T00:00" "" ""
                  (Some (Some Test.T2)))
  /\ Popup.extractEXIFData (host := Test.host)
       (Test.photo (Popup.Tag (Some (JStr "garbage")))) Test.blank
     = (Rejected (Error "EXIF parsing error: Cannot read properties of undefined (reading 'split')"),
        Test.blank).
Proof.
  destruct (extraction_outcomes (host := Test.host) Test.T2 Test.blank
              None "garbage" (Error "unused"))
    as (Hfallback & Hreject & _).
  - reflexivity.
  - discriminate.
  - simpl. intros H.
    repeat (destruct H as [H|H]; [discriminate H|]). exact H.
  - split; [exact Hfallback | exact Hreject].
Defined.

(** The claim fails on a malformed tag: the extraction is rejected, it
    does not fall back to the last-modified time. *)
Lemma extraction_counterexample :
  Popup.extractEXIFData (host := Test.host)
    (Test.photo (Popup.Tag (Some (JStr "garbage")))) Test.blank
  = (Rejected (Error "EXIF parsing error: Cannot read properties of undefined (reading 'split')"),
     Test.blank)
  /\ ~ Spec.falls_back_to_file_date (host := Test.host)
         (Test.photo (Popup.Tag (Some (JStr "garbage")))) Test.blank.
Proof.
  split; [vm_compute; reflexivity|].
  intros (p' & Hrun & _). vm_compute in Hrun. discriminate Hrun.
Qed.

(* ================================================================== *)
(** * delete and update                                                *)
(* ================================================================== *)

Section DeleteUpdate.
Import RecordStorage Spec.
Context `{host : Host}.

Lemma prop_field (r : json) (k : string) :
  is_null r = false -> prop r k = Normal (field r k).
Proof. unfold field. destruct r; simpl; intros; try discriminate; reflexivity. Qed.

Lemma filter_prop_total (k : string) (p : value -> bool) (l : list json) :
  existsb is_null l = false ->
  filter_prop k p l = Normal (filter (fun r => p (field r k)) l).
Proof.
  induction l as [|r l IH]; simpl; intros Hnull.
  - reflexivity.
  - apply orb_false_iff in Hnull as [Hr Hl].
    rewrite (prop_field r k Hr), (IH Hl). reflexivity.
Qed.

Lemma map_prop_total (k : string) (l : list json) :
  existsb is_null l = false ->
  map_prop k l = Normal (map (fun r => field r k) l).
Proof.
  induction l as [|r l IH]; simpl; intros Hnull.
  - reflexivity.
  - apply orb_false_iff in Hnull as [Hr Hl].
    rewrite (prop_field r k Hr), (IH Hl). reflexivity.
Qed.

Lemma has_id_object (id : string) (r : json) :
  has_id id r = true ->
  exists o, r = JObj o /\ get o "id" = Some (JStr id).
Proof.
  unfold has_id, field, strict_eq_string.
  destruct r as [| | | | |o]; simpl; try discriminate.
  destruct (get o "id") as [[| | |s| |]|] eqn:Hg; try discriminate.
  intros H. apply String.eqb_eq in H. subst. eauto.
Qed.

Lemma filter_unchanged {A} (p : A -> bool) (l : list A) :
  (forall x, In x l -> p x = true) -> filter p l = l.
Proof.
  induction l as [|x l IH]; simpl; intros H.
  - reflexivity.
  - rewrite (H x (or_introl eq_refl)), IH; auto.
Qed.

(** With distinct ids, one record at most has a given id. *)
Lemma one_record_per_id (id : string) (l : list json) (r : json) :
  NoDup (map (fun x => field x "id") l) ->
  In r l -> has_id id r = true ->
  List.length (filter (has_id id) l) = 1%nat.
Proof.
  induction l as [|x l IH]; simpl; intros Hnd Hin Hr.
  - contradiction.
  - inversion Hnd as [|? ? Hnotin Hnd']; subst.
    destruct (has_id id x) eqn:Hx.
    + simpl. f_equal.
      rewrite (proj2 (length_zero_iff_nil _)); [reflexivity|].
      destruct (filter (has_id id) l) as [|y rest] eqn:Hf; [reflexivity|].
      exfalso. apply Hnotin.
      assert (Hy : In y (filter (has_id id) l)) by (rewrite Hf; now left).
      apply filter_In in Hy as [Hyl Hy].
      apply has_id_object in Hx as (ox & -> & Hox).
      apply has_id_object in Hy as (oy & -> & Hoy).
      apply in_map_iff. exists (JObj oy). split; [|exact Hyl].
      unfold field. simpl. congruence.
    + destruct Hin as [->|Hin]; [congruence|]. now apply IH.
Qed.

(** One run of [deleteRecord] whose read and write both succeed. *)
Lemma deleteRecord_run (id : string) (w w1 : World) (records : list json) :
  getAllRecords w = (Resolved records, w1) ->
  lastError w1 = None ->
  existsb is_null records = false ->
  deleteRecord id w
  = (Resolved tt,
     after_call
       (with_storage (Some (filter (fun r => negb (has_id id r)) records)) w1)).
Proof.
  intros Hget Hset Hnull. unfold deleteRecord, bind. rewrite Hget.
  rewrite (filter_prop_total _ _ _ Hnull). simpl.
  unfold storage_set. now rewrite Hset.
Qed.

(** C4, as the code has it.  [deleteRecord] writes back the records
    whose id differs from [id] and resolves: for an id that no record
    has it does not fail, and the store holds what [getAllRecords]
    listed; for an id that is present it removes every record of that
    id, which is exactly one record when the ids are distinct. *)
Theorem deleteRecord_filters
    (id : string) (w w1 : World) (records : list json) :
  getAllRecords w = (Resolved records, w1) ->
  lastError w1 = None ->
  existsb is_null records = false ->
  exists w2,
    deleteRecord id w = (Resolved tt, w2)
    /\ storage w2 = Some (filter (fun r => negb (has_id id r)) records)
    /\ Permutation records (stored w)
    /\ ((forall r, In r records -> has_id id r = false) ->
        storage w2 = Some records)
    /\ (forall r, In r records -> has_id id r = true ->
                  NoDup (map (fun x => field x "id") records) ->
                  S (List.length (filter (fun r => negb (has_id id r)) records))
                  = List.length records).
Proof.
  intros Hget Hset Hnull. eexists.
  split; [apply (deleteRecord_run id w w1 records Hget Hset Hnull)|].
  split; [reflexivity|].
  split.
  { apply getAllRecords_resolved in Hget as (_ & _ & -> & _).
    apply sort_perm. }
  split.
  - intros Habsent. simpl. f_equal. apply filter_unchanged.
    intros r Hr. now rewrite (Habsent r Hr).
  - intros r Hr Hid Hnd.
    pose proof (filter_length (has_id id) records) as Hlen.
    rewrite (one_record_per_id id records r Hnd Hr Hid) in Hlen.
    simpl in Hlen. exact Hlen.
Qed.

Lemma get_set (k : string) (v : json) (o : object) (k' : string) :
  get (set k v o) k' = if String.eqb k k' then Some v else get o k'.
Proof.
  induction o as [|[k1 v1] o IH]; simpl.
  - reflexivity.
  - destruct (String.eqb_spec k1 k) as [->|Hne]; simpl.
    + now destruct (String.eqb k k').
    + rewrite IH.
      destruct (String.eqb_spec k1 k') as [->|], (String.eqb_spec k k');
        congruence.
Qed.

Lemma get_absent (o : object) (k : string) :
  ~ In k (map fst o) -> get o k = None.
Proof.
  induction o as [|[k1 v1] o IH]; simpl; intros Hno.
  - reflexivity.
  - destruct (String.eqb_spec k1 k) as [->|Hne]; [tauto|]. apply IH. tauto.
Qed.

(** [{...target, ...source}] reads from [source] first. *)
Lemma get_spread (target source : object) (k : string) :
  NoDup (map fst source) ->
  get (spread target source) k
  = match get source k with
    | Some v => Some v
    | None => get target k
    end.
Proof.
  unfold spread. revert target.
  induction source as [|[k1 v1] source IH]; simpl; intros target Hnd.
  - reflexivity.
  - inversion Hnd as [|? ? Hnotin Hnd']; subst.
    rewrite (IH _ Hnd'), get_set. simpl.
    destruct (String.eqb_spec k1 k) as [->|Hne].
    + now rewrite (get_absent source k Hnotin).
    + reflexivity.
Qed.

Lemma findIndex_found (id : string) (before after : list json) (r : json)
      (i : nat) :
  existsb is_null before = false ->
  forallb (fun x => negb (has_id id x)) before = true ->
  has_id id r = true ->
  findIndex_prop "id" (fun v => strict_eq_string v id)
                 (before ++ r :: after) i
  = Normal (Some (i + List.length before)%nat).
Proof.
  revert i. induction before as [|x before IH]; simpl; intros i Hnull Hno Hr.
  - apply has_id_object in Hr as Ho. destruct Ho as (o & -> & Ho).
    simpl. unfold has_id, field in Hr. simpl in Hr. rewrite Hr.
    now rewrite Nat.add_0_r.
  - apply orb_false_iff in Hnull as [Hx Hnull].
    apply andb_true_iff in Hno as [Hnx Hno].
    rewrite (prop_field x "id" Hx). simpl.
    unfold has_id in Hnx. apply negb_true_iff in Hnx. rewrite Hnx.
    rewrite (IH (S i) Hnull Hno Hr). f_equal. f_equal. lia.
Qed.

Lemma findIndex_absent (id : string) (l : list json) (i : nat) :
  existsb is_null l = false ->
  forallb (fun x => negb (has_id id x)) l = true ->
  findIndex_prop "id" (fun v => strict_eq_string v id) l i = Normal None.
Proof.
  revert i. induction l as [|x l IH]; simpl; intros i Hnull Hno.
  - reflexivity.
  - apply orb_false_iff in Hnull as [Hx Hnull].
    apply andb_true_iff in Hno as [Hnx Hno].
    rewrite (prop_field x "id" Hx). simpl.
    unfold has_id in Hnx. apply negb_true_iff in Hnx. rewrite Hnx.
    now apply IH.
Qed.

Lemma assign_index_middle {A} (before after : list A) (x y : A) :
  assign_index (List.length before) y (before ++ x :: after)
  = before ++ y :: after.
Proof. induction before as [|z before IH]; simpl; [|rewrite IH]; reflexivity. Qed.

(** The object [updateRecord] writes for the record [r]. *)
Lemma updated_fields (r : json) (updates : object) (now : string) (k : string) :
  NoDup (map fst updates) ->
  NoDup (map fst (own_props r)) ->
  get (set "updatedAt" (JStr now) (spread (spread [] (own_props r)) updates)) k
  = if String.eqb "updatedAt" k then Some (JStr now)
    else match get updates k with
         | Some v => Some v
         | None => get (own_props r) k
         end.
Proof.
  intros Hu Hr. rewrite get_set, (get_spread _ updates k Hu).
  rewrite (get_spread [] (own_props r) k Hr). simpl.
  now destruct (get (own_props r) k).
Qed.

(** C5, as the code has it.  [updateRecord] replaces the first record
    of the given id by the record with the fields of [updates] laid
    over it and [updatedAt] set to the current time: a field that
    [updates] supplies takes the supplied value, [id] and [createdAt]
    included, and every other field but [updatedAt] keeps its value.
    When no record has the id the promise is rejected with
    ['Record not found'] and the store is as it was. *)
Theorem updateRecord_merges
    (id : string) (updates : object) (w w1 : World)
    (before after : list json) (r : json) :
  getAllRecords w = (Resolved (before ++ r :: after), w1) ->
  lastError w1 = None ->
  existsb is_null before = false ->
  forallb (fun x => negb (has_id id x)) before = true ->
  has_id id r = true ->
  NoDup (map fst updates) ->
  NoDup (map fst (own_props r)) ->
  (exists updated w2,
      updateRecord id updates w = (Resolved (JObj updated), w2)
      /\ storage w2 = Some (before ++ JObj updated :: after)
      /\ get updated "updatedAt" = Some (JStr (toISOString (clock (ticks w))))
      /\ (forall k, k <> "updatedAt" ->
                    get updated k = match get updates k with
                                    | Some v => Some v
                                    | None => field r k
                                    end))
  /\ (forall w' w1' records,
         getAllRecords w' = (Resolved records, w1') ->
         existsb is_null records = false ->
         forallb (fun x => negb (has_id id x)) records = true ->
         updateRecord id updates w' = (Rejected (Error "Record not found"), w1')
         /\ storage w1' = storage w').
Proof.
  intros Hget Hset Hnull Hbefore Hr Hu Hnd. split.
  - apply getAllRecords_resolved in Hget as Hw. destruct Hw as (_ & _ & _ & ->).
    unfold updateRecord, bind. rewrite Hget.
    rewrite (findIndex_found id before after r 0 Hnull Hbefore Hr). simpl.
    rewrite nth_middle, assign_index_middle.
    unfold storage_set, lastError in *. simpl in *. rewrite Hset.
    eexists _, _. split; [reflexivity|]. split; [reflexivity|]. split.
    + rewrite updated_fields by assumption. reflexivity.
    + intros k Hk. rewrite updated_fields by assumption.
      apply String.eqb_neq in Hk. rewrite String.eqb_sym, Hk.
      apply has_id_object in Hr as (o & -> & _). reflexivity.
  - intros w' w1' records Hget' Hnull' Habsent.
    apply getAllRecords_resolved in Hget' as Hw. destruct Hw as (_ & _ & _ & ->).
    unfold updateRecord, bind. rewrite Hget'.
    rewrite (findIndex_absent id records 0 Hnull' Habsent). simpl.
    split; reflexivity.
Qed.
End DeleteUpdate.

(** A delete of record "a" in a store of two, and a delete of an id
    that the store of one does not hold. *)
Lemma deleteRecord_filters_witness :
  (exists w2,
      RecordStorage.deleteRecord (host := Test.host) "a" Test.two_records
      = (Resolved tt, w2)
      /\ storage w2 = Some [Test.record_b])
  /\ (exists w2,
         RecordStorage.deleteRecord (host := Test.host) "a" Test.one_record
         = (Resolved tt, w2)
         /\ storage w2 = Some [Test.record_b]).
Proof.
  split.
  - destruct (deleteRecord_filters (host := Test.host) "a" Test.two_records
                (after_call Test.two_records) [Test.record_b; Test.record_a])
      as (w2 & Hrun & Hstore & _).
    + vm_compute. reflexivity.
    + reflexivity.
    + reflexivity.
    + exists w2. split; [exact Hrun|]. rewrite Hstore.
      vm_compute. reflexivity.
  - destruct (deleteRecord_filters (host := Test.host) "a" Test.one_record
                (after_call Test.one_record) [Test.record_b])
      as (w2 & Hrun & _ & _ & Habsent & _).
    + vm_compute. reflexivity.
    + reflexivity.
    + reflexivity.
    + exists w2. split; [exact Hrun|]. apply Habsent.
      intros r [<-|[]]. reflexivity.
Defined.

(** The claim fails on an id that is not stored: the delete resolves. *)
Lemma deleteRecord_counterexample :
  RecordStorage.deleteRecord (host := Test.host) "no-such-id" Test.two_records
  = (Resolved tt, mkWorld (Some [Test.record_b; Test.record_a]) [] 0 0)
  /\ ~ Spec.delete_absent_fails (host := Test.host) "no-such-id"
         Test.two_records.
Proof.
  split; [vm_compute; reflexivity|].
  intros H. destruct H as (e & w' & Hrun & _).
  - intros r [<-|[<-|[]]]; reflexivity.
  - vm_compute in Hrun. discriminate Hrun.
Qed.

(** An update of the amount of record "a" in a store of two, and the
    same update in a store that does not hold "a". *)
Lemma updateRecord_merges_witness :
  (exists updated w2,
      RecordStorage.updateRecord (host := Test.host) "a" [("amount", num 20)]
        Test.two_records = (Resolved (JObj updated), w2)
      /\ get updated "amount" = Some (num 20)
      /\ get updated "id" = Some (JStr "a")
      /\ get updated "updatedAt" = Some (JStr "2024-01-01T00:00:00.000Z"))
  /\ RecordStorage.updateRecord (host := Test.host) "a" [("amount", num 20)]
       Test.one_record
     = (Rejected (Error "Record not found"), after_call Test.one_record).
Proof.
  destruct (updateRecord_merges (host := Test.host) "a" [("amount", num 20)]
              Test.two_records (after_call Test.two_records)
              [Test.record_b] [] Test.record_a)
    as [(updated & w2 & Hrun & _ & Hnow & Hkeys) Habsent].
  - vm_compute. reflexivity.
  - reflexivity.
  - reflexivity.
  - reflexivity.
  - reflexivity.
  - repeat constructor; simpl; tauto.
  - repeat constructor; simpl; intuition discriminate.
  - split.
    + exists updated, w2. split; [exact Hrun|]. split; [|split].
      * rewrite Hkeys by discriminate. reflexivity.
      * rewrite Hkeys by discriminate. reflexivity.
      * rewrite Hnow. vm_compute. reflexivity.
    + apply (Habsent Test.one_record (after_call Test.one_record)
                     [Test.record_b]); reflexivity.
Defined.

(** The claim fails when [updates] carries an id: the record gets it. *)
Lemma updateRecord_counterexample :
  fst (RecordStorage.updateRecord (host := Test.host) "a"
         [("id", JStr "z"); ("createdAt", JStr "1999-12-31T00:00:00.000Z")]
         Test.two_records)
  = Resolved (JObj [("id", JStr "z");
                    ("datetime", JStr "2024-01-01T00:00:00.000Z");
                    ("amount", num 12);
                    ("memo", JStr "");
                    ("source", JStr "manual");
                    ("imageData", JNull);
                    ("createdAt", JStr "1999-12-31T00:00:00.000Z");
                    ("updatedAt", JStr "2024-01-01T00:00:00.000Z")])
  /\ ~ Spec.update_keeps_identity (host := Test.host) "a"
         [("id", JStr "z"); ("createdAt", JStr "1999-12-31T00:00:00.000Z")]
         Test.two_records.
Proof.
  split; [vm_compute; reflexivity|].
  intros H.
  destruct (H (RecordStorage.own_props Test.record_a))
    as (updated & w' & Hrun & Hid & _).
  - left. reflexivity.
  - reflexivity.
  - vm_compute in Hrun. inversion Hrun; subst.
    vm_compute in Hid. discriminate Hid.
Qed.

(* ================================================================== *)
(** * export and import                                                *)
(* ================================================================== *)

Section ExportImport.
Import RecordStorage Spec.
Context `{host : Host}.

(** One run of [importFromJSON] on a document whose [records] is an
    array without [null], or is missing. *)
Lemma importFromJSON_run
    (document : json) (v : value) (incoming existing : list json)
    (w w1 : World) :
  prop document "records" = Normal v ->
  or_else v (Some (JArr [])) = Some (JArr incoming) ->
  getAllRecords w = (Resolved existing, w1) ->
  lastError w1 = None ->
  existsb is_null existing = false ->
  existsb is_null incoming = false ->
  importFromJSON (Text document) w
  = (Resolved (List.length (filter (is_new existing) incoming)),
     after_call
       (with_storage (Some (existing ++ filter (is_new existing) incoming))
                     w1)).
Proof.
  intros Hprop Hor Hget Hset Hex Hin.
  unfold importFromJSON, bind. simpl. rewrite Hprop. simpl.
  rewrite Hget, (map_prop_total "id" existing Hex). simpl.
  rewrite Hor. unfold filter_new.
  rewrite (filter_prop_total "id" _ incoming Hin). simpl.
  unfold storage_set. rewrite Hset. reflexivity.
Qed.

Lemma same_value_zero_refl (v : value) :
  primitive v = true -> same_value_zero v v = true.
Proof.
  destruct v as [[|b|q|s| |]|]; simpl; try discriminate; intros _.
  - reflexivity.
  - apply Bool.eqb_reflx.
  - unfold Qc_eq_bool. destruct (Qc_eq_dec q q); congruence.
  - apply String.eqb_refl.
  - reflexivity.
Qed.

(** A record of the store is not new to the store. *)
Lemma own_records_not_new (existing : list json) (r : json) :
  In r existing -> primitive (field r "id") = true ->
  is_new existing r = false.
Proof.
  intros Hin Hprim. unfold is_new, set_has. apply negb_false_iff.
  apply existsb_exists. exists (field r "id"). split.
  - apply in_map_iff. eauto.
  - now apply same_value_zero_refl.
Qed.

Lemma nothing_new (existing : list json) :
  Forall (fun r => primitive (field r "id") = true) existing ->
  filter (is_new existing) existing = [].
Proof.
  intros Hprim.
  assert (H : forall l, incl l existing -> filter (is_new existing) l = []).
  { induction l as [|r l IH]; simpl; intros Hincl.
    - reflexivity.
    - rewrite own_records_not_new.
      + apply IH. intros x Hx. apply Hincl. now right.
      + apply Hincl. now left.
      + rewrite Forall_forall in Hprim. apply Hprim, Hincl. now left. }
  apply H, incl_refl.
Qed.

(** On a primitive value [SameValueZero] is equality. *)
Lemma same_value_zero_eq (v u : value) :
  primitive v = true -> same_value_zero v u = true <-> u = v.
Proof.
  intros Hprim. split.
  - destruct v as [[|b|q|x|l|o]|], u as [[|b'|q'|x'|l'|o']|];
      simpl in *; try discriminate; intros H; try reflexivity.
    + apply Bool.eqb_prop in H. now subst.
    + apply Qc_eq_bool_correct in H. now subst.
    + apply String.eqb_eq in H. now subst.
  - intros ->. now apply same_value_zero_refl.
Qed.

(** An incoming record with a primitive id is new exactly when no
    existing record has its id. *)
Lemma is_new_no_such_id (existing : list json) (r : json) :
  primitive (field r "id") = true ->
  is_new existing r = true
  <-> forall e, In e existing -> field e "id" <> field r "id".
Proof.
  intros Hprim. unfold is_new, set_has. rewrite negb_true_iff. split.
  - intros Hnone e He Heq.
    assert (Hsome : existsb (same_value_zero (field r "id"))
                            (map (fun e => field e "id") existing) = true).
    { apply existsb_exists. exists (field e "id"). split.
      - apply in_map_iff. eauto.
      - now apply same_value_zero_eq. }
    congruence.
  - intros Hnone.
    destruct (existsb (same_value_zero (field r "id"))
                      (map (fun e => field e "id") existing)) eqn:Hsome;
      [|reflexivity].
    apply existsb_exists in Hsome as (u & Hu & Hsame).
    apply in_map_iff in Hu as (e & <- & He).
    apply same_value_zero_eq in Hsame; [|exact Hprim].
    elim (Hnone e He Hsame).
Qed.

(** C2, as the code has it.  For a document whose records have ids that
    are primitive values, [importFromJSON] leaves the existing records
    as they are and appends, as they are and in the order of the
    document, the incoming records whose id no existing record has;
    every other incoming record is skipped, and the number of appended
    records is returned.  An export of a store whose records have ids
    that are primitive values, imported back into it, adds no record
    and the store lists as before. *)
Theorem importFromJSON_merges
    (document : json) (v : value) (incoming existing : list json)
    (w w1 : World) :
  prop document "records" = Normal v ->
  or_else v (Some (JArr [])) = Some (JArr incoming) ->
  getAllRecords w = (Resolved existing, w1) ->
  lastError w1 = None ->
  existsb is_null existing = false ->
  existsb is_null incoming = false ->
  Forall (fun r => primitive (field r "id") = true) incoming ->
  (exists added w2,
      importFromJSON (Text document) w = (Resolved (List.length added), w2)
      /\ storage w2 = Some (existing ++ added)
      /\ added = filter (is_new existing) incoming
      /\ forall r, In r incoming ->
           (is_new existing r = true
            <-> forall e, In e existing -> field e "id" <> field r "id"))
  /\ (faults w = [] ->
      Forall (fun r => primitive (field r "id") = true) existing ->
      exists snapshot we wi,
        exportToJSON w = (Resolved snapshot, we)
        /\ importFromJSON snapshot we = (Resolved 0%nat, wi)
        /\ getAllRecords wi = (Resolved existing, after_call wi)).
Proof.
  intros Hprop Hor Hget Hset Hex Hin Hids. split.
  - exists (filter (is_new existing) incoming). eexists.
    split; [now apply importFromJSON_run with (v := v) (w1 := w1)|].
    split; [reflexivity|]. split; [reflexivity|].
    intros r Hr. apply is_new_no_such_id.
    rewrite Forall_forall in Hids. now apply Hids.
  - intros Hfaults Hprim.
    apply getAllRecords_resolved in Hget as Hw.
    destruct Hw as (Herr & Hthrow & Hsorted & ->).
    set (now := toISOString (clock (ticks w))).
    set (we := mkWorld (storage w) (tl (faults w)) (S (ticks w)) (draws w)).
    assert (Hread : getAllRecords we = (Resolved existing, after_call we)).
    { rewrite getAllRecords_run.
      - now rewrite Hsorted.
      - apply no_faults_ahead. simpl. now rewrite Hfaults.
      - exact Hthrow. }
    exists (Text (export_document now existing)), we. eexists.
    split; [apply (exportToJSON_run _ _ _ Hget)|].
    split.
    + rewrite (importFromJSON_run (export_document now existing)
                 (Some (JArr existing)) existing existing we (after_call we));
        try reflexivity; try assumption.
      * now rewrite (nothing_new existing Hprim).
      * apply (no_faults_ahead we). simpl. now rewrite Hfaults.
    + rewrite getAllRecords_run.
      * unfold stored. simpl. rewrite app_nil_r, Hsorted.
        now rewrite getAllRecords_sorted_again.
      * apply no_faults_ahead. simpl. now rewrite Hfaults.
      * unfold stored. simpl.
        rewrite app_nil_r, Hsorted, comparator_throws_sort.
        exact Hthrow.
Qed.

(** Whatever makes [importFromJSON] reject, the store is as it was. *)
Lemma importFromJSON_rejected (t : json_text) (w w' : World) (e : js_error) :
  importFromJSON t w = (Rejected e, w') -> storage w' = storage w.
Proof.
  unfold importFromJSON, bind.
  destruct t as [document|]; simpl; [|intros H; now inversion H].
  destruct (prop document "records") as [v|e0]; simpl;
    [|intros H; now inversion H].
  destruct (getAllRecords w) as [[existing|e1|] w1] eqn:Hget;
    apply getAllRecords_storage in Hget; subst w1;
    [|intros H; now inversion H|discriminate].
  destruct (map_prop "id" existing) as [ids|e2]; simpl;
    [|intros H; now inversion H].
  destruct (filter_new ids (or_else v (Some (JArr [])))) as [new|e3]; simpl;
    [|intros H; now inversion H].
  unfold storage_set. simpl.
  destruct (lastError (after_call w)); intros H; now inversion H.
Qed.

(** C6, as the code has it.  [importFromJSON] checks no shape: a
    document without [records] (or with a falsy one) is read as an
    empty list, so that the import resolves with 0 and the store holds
    what it held; an entry of any shape that is not [null], with an id
    that is new, is appended as it is.  The import is rejected when the
    text is not JSON, and whenever it is rejected the store is as it
    was. *)
Theorem importFromJSON_unvalidated
    (document : json) (v : value) (entry : json) (existing : list json)
    (w w1 : World) :
  prop document "records" = Normal v ->
  truthy v = false ->
  getAllRecords w = (Resolved existing, w1) ->
  lastError w1 = None ->
  existsb is_null existing = false ->
  is_null entry = false ->
  is_new existing entry = true ->
  (exists w2,
      importFromJSON (Text document) w = (Resolved 0%nat, w2)
      /\ storage w2 = Some existing)
  /\ (exists w2,
         importFromJSON (Text (JObj [("records", JArr [entry])])) w
         = (Resolved 1%nat, w2)
         /\ storage w2 = Some (existing ++ [entry]))
  /\ importFromJSON Malformed w = (Rejected (Thrown JSONSyntax), w)
  /\ (forall t w0 w' e,
         importFromJSON t w0 = (Rejected e, w') -> storage w' = storage w0).
Proof.
  intros Hprop Hfalsy Hget Hset Hex Hentry Hnew. repeat split.
  - eexists. split.
    + apply (importFromJSON_run document v [] existing w w1);
        try assumption; try reflexivity.
      unfold or_else. now rewrite Hfalsy.
    + simpl. now rewrite app_nil_r.
  - assert (Hf : filter (is_new existing) [entry] = [entry])
      by (cbn [filter]; now rewrite Hnew).
    eexists. split.
    + rewrite (importFromJSON_run _ (Some (JArr [entry])) [entry] existing w w1);
        try assumption; try reflexivity.
      * rewrite Hf. reflexivity.
      * cbn [existsb]. now rewrite Hentry.
    + reflexivity.
  - intros t w0 w' e. apply importFromJSON_rejected.
Qed.

(** C7, as the code has it.  [exportToJSON] serialises an object with
    exactly the fields [exportDate] (the ISO string of the current
    time), [version] (the string ['1.0.0']) and [records], the array
    [getAllRecords] returns: every stored record as it is stored, and
    the store is not written.  A record made by [saveRecord] from a
    datetime and an amount has the eight fields [id], [datetime],
    [amount], [memo], [source], [imageData], [createdAt], [updatedAt]. *)
Theorem exportToJSON_document
    (w w1 : World) (records : list json)
    (recordData : object) (id c u : string) (datetime amount : json) :
  getAllRecords w = (Resolved records, w1) ->
  get recordData "datetime" = Some datetime ->
  get recordData "amount" = Some amount ->
  (exists w2,
      exportToJSON w
      = (Resolved
           (Text (JObj [("exportDate", JStr (toISOString (clock (ticks w))));
                        ("version", JStr "1.0.0");
                        ("records", JArr records)])), w2)
      /\ storage w2 = storage w)
  /\ Permutation records (stored w)
  /\ map fst (newRecord_of recordData id c u)
     = ["id"; "datetime"; "amount"; "memo"; "source"; "imageData";
        "createdAt"; "updatedAt"].
Proof.
  intros Hget Hdate Hamount. split; [|split].
  - eexists. split; [apply (exportToJSON_run _ _ _ Hget)|reflexivity].
  - apply getAllRecords_resolved in Hget as (_ & _ & -> & _). apply sort_perm.
  - destruct (newRecord_fields recordData id c u) as (m & s & _ & _ & ->).
    unfold literal. simpl. rewrite Hdate, Hamount. reflexivity.
Qed.
End ExportImport.

(** An import of one colliding and one new record into a store of two,
    and the store's own export imported back. *)
Lemma importFromJSON_merges_witness :
  (exists w2,
      RecordStorage.importFromJSON (host := Test.host) (Text Test.document)
        Test.two_records = (Resolved 1%nat, w2)
      /\ storage w2 = Some [Test.record_b; Test.record_a; Test.record_c])
  /\ (exists snapshot we wi,
         RecordStorage.exportToJSON (host := Test.host) Test.two_records
         = (Resolved snapshot, we)
         /\ RecordStorage.importFromJSON (host := Test.host) snapshot we
            = (Resolved 0%nat, wi)
         /\ RecordStorage.getAllRecords (host := Test.host) wi
            = (Resolved [Test.record_b; Test.record_a], after_call wi)).
Proof.
  destruct (importFromJSON_merges (host := Test.host) Test.document
              (Some (JArr [Test.record_a'; Test.record_c]))
              [Test.record_a'; Test.record_c]
              [Test.record_b; Test.record_a]
              Test.two_records (after_call Test.two_records))
    as [(added & w2 & Hrun & Hstore & -> & _) Hround].
  - reflexivity.
  - reflexivity.
  - vm_compute. reflexivity.
  - reflexivity.
  - reflexivity.
  - reflexivity.
  - repeat constructor.
  - split.
    + exists w2. split; [exact Hrun | exact Hstore].
    + apply Hround; [reflexivity|]. repeat constructor.
Defined.

(** The claim fails on an id that is an array.  An entry with such an
    id, once imported, is not skipped when it comes again, and the
    import of the export of that store adds one record. *)
Lemma importFromJSON_merges_counterexample :
  RecordStorage.importFromJSON (host := Test.host)
    (Text (JObj [("records", JArr [Test.listed_id])])) Test.fresh
  = (Resolved 1%nat, mkWorld (Some [Test.listed_id]) [] 0 0)
  /\ ~ Spec.skips_known_id (host := Test.host) Test.listed_id
         (mkWorld (Some [Test.listed_id]) [] 0 0)
  /\ ~ Spec.reimport_adds_nothing (host := Test.host)
         (mkWorld (Some [Test.listed_id]) [] 0 0).
Proof.
  split; [vm_compute; reflexivity|]. split.
  - intros H. destruct H as (w' & Hrun).
    + exists Test.listed_id. split; [now left|reflexivity].
    + vm_compute in Hrun. discriminate Hrun.
  - intros (snapshot & we & wi & Hexport & Himport & _).
    vm_compute in Hexport. inversion Hexport; subst snapshot we.
    vm_compute in Himport. discriminate Himport.
Qed.

(** An import of a document without [records], and of one shapeless
    entry, into a store of two. *)
Lemma importFromJSON_unvalidated_witness :
  (exists w2,
      RecordStorage.importFromJSON (host := Test.host) (Text (JObj []))
        Test.two_records = (Resolved 0%nat, w2)
      /\ storage w2 = Some [Test.record_b; Test.record_a])
  /\ (exists w2,
         RecordStorage.importFromJSON (host := Test.host)
           (Text (JObj [("records", JArr [Test.shapeless])])) Test.two_records
         = (Resolved 1%nat, w2)
         /\ storage w2 = Some [Test.record_b; Test.record_a; Test.shapeless]).
Proof.
  destruct (importFromJSON_unvalidated (host := Test.host) (JObj []) None
              Test.shapeless [Test.record_b; Test.record_a]
              Test.two_records (after_call Test.two_records))
    as (Hmissing & Hentry & _).
  - reflexivity.
  - reflexivity.
  - vm_compute. reflexivity.
  - reflexivity.
  - reflexivity.
  - reflexivity.
  - reflexivity.
  - split; [exact Hmissing | exact Hentry].
Defined.

(** The claim fails on a document without [records] and on a document
    with a shapeless entry: neither import is rejected. *)
Lemma importFromJSON_counterexample :
  RecordStorage.importFromJSON (host := Test.host) (Text (JObj []))
    Test.two_records
  = (Resolved 0%nat, mkWorld (Some [Test.record_b; Test.record_a]) [] 0 0)
  /\ RecordStorage.importFromJSON (host := Test.host)
       (Text (JObj [("records", JArr [Test.shapeless])])) Test.two_records
     = (Resolved 1%nat,
        mkWorld (Some [Test.record_b; Test.record_a; Test.shapeless]) [] 0 0)
  /\ ~ Spec.import_rejects (host := Test.host) (JObj []) Test.two_records
  /\ ~ Spec.import_rejects (host := Test.host)
         (JObj [("records", JArr [Test.shapeless])]) Test.two_records.
Proof.
  split; [vm_compute; reflexivity|]. split; [vm_compute; reflexivity|].
  split; intros (e & w' & Hrun & _); vm_compute in Hrun; discriminate Hrun.
Qed.

(** The export of a store of two. *)
Lemma exportToJSON_document_witness :
  exists w2,
    RecordStorage.exportToJSON (host := Test.host) Test.two_records
    = (Resolved
         (Text (JObj [("exportDate", JStr "2024-01-01T00:00:00.000Z");
                      ("version", JStr "1.0.0");
                      ("records", JArr [Test.record_b; Test.record_a])])),
       w2)
    /\ storage w2 = storage Test.two_records.
Proof.
  destruct (exportToJSON_document (host := Test.host) Test.two_records
              (after_call Test.two_records) [Test.record_b; Test.record_a]
              [("datetime", JStr "2024-01-01T00:00:00.000Z");
               ("amount", num 12)]
              "id" "created" "updated"
              (JStr "2024-01-01T00:00:00.000Z") (num 12))
    as ((w2 & Hrun & Hstore) & _).
  - vm_compute. reflexivity.
  - reflexivity.
  - reflexivity.
  - exists w2. split; [exact Hrun | exact Hstore].
Defined.

(** The claim fails on a store of two: the document has no field
    [exportTimestamp] or [formatVersion], and the records it carries
    have a field, [imageData], that the schema does not list. *)
Lemma exportToJSON_counterexample :
  fst (RecordStorage.exportToJSON (host := Test.host) Test.two_records)
  = Resolved
      (Text (JObj [("exportDate", JStr "2024-01-01T00:00:00.000Z");
                   ("version", JStr "1.0.0");
                   ("records", JArr [Test.record_b; Test.record_a])]))
  /\ ~ Spec.export_has_schema (host := Test.host) Test.two_records
  /\ ~ Forall (fun r => forall k, In k (map fst (RecordStorage.own_props r))
                                  <-> In k Spec.record_fields)
              [Test.record_b; Test.record_a].
Proof.
  split; [vm_compute; reflexivity|]. split.
  - intros (ts & ver & records & w' & Hrun & _).
    vm_compute in Hrun. discriminate Hrun.
  - intros H. inversion H as [|? ? Hb _]; subst.
    destruct (Hb "imageData") as [Hin _].
    assert (Hno : ~ In "imageData" Spec.record_fields).
    { simpl. intros Hk.
      repeat (destruct Hk as [Hk|Hk]; [discriminate Hk|]). exact Hk. }
    apply Hno, Hin. simpl. tauto.
Qed.

(* ================================================================== *)
(** * More on the sort                                                 *)
(* ================================================================== *)

Section SortMore.
Context {A : Type} (comparefn : A -> A -> option Z).

(** An element that every other one goes after comes out first. *)
Lemma sort_newest_last (x : A) (l : list A) :
  (forall y, In y l -> goes_after comparefn y x = true) ->
  sort comparefn (l ++ [x]) = x :: sort comparefn l.
Proof.
  induction l as [|a l IH]; simpl; intros Hafter.
  - reflexivity.
  - rewrite IH by auto. simpl. now rewrite (Hafter a (or_introl eq_refl)).
Qed.

(** An insertion leaves the selected elements as they were, when the
    first of them is not to come before the new one. *)
Lemma insert_before_selected (p : A -> bool) (a : A) (l : list A) :
  p a = true ->
  HdRel (fun x y => goes_after comparefn x y = false) a (filter p l) ->
  filter p (insert comparefn a l) = a :: filter p l.
Proof.
  intros Ha. induction l as [|y l IH]; simpl; intros Hhd.
  - now rewrite Ha.
  - destruct (goes_after comparefn a y) eqn:Hgo.
    + destruct (p y) eqn:Hy.
      * inversion Hhd; congruence.
      * simpl. rewrite Hy. now apply IH.
    + simpl. now rewrite Ha.
Qed.

(** Sorting an ordered list with one more element at its end, and
    taking that element out again, gives the list back. *)
Lemma sort_without_last (p : A -> bool) (x : A) (l : list A) :
  Sorted (fun a b => goes_after comparefn a b = false) l ->
  (forall y, In y l -> p y = true) ->
  p x = false ->
  filter p (sort comparefn (l ++ [x])) = l.
Proof.
  intros Hs Hl Hx. induction Hs as [|a l Hs IH Hhd]; simpl.
  - now rewrite Hx.
  - rewrite insert_before_selected.
    + f_equal. apply IH. intros y Hy. apply Hl. now right.
    + apply Hl. now left.
    + rewrite IH by (intros y Hy; apply Hl; now right). exact Hhd.
Qed.
End SortMore.

(* ================================================================== *)
(** * The store: create, look up, delete, clear                        *)
(* ================================================================== *)

Section StoreMore.
Import RecordStorage Spec.
Context `{host : Host}.

Lemma find_prop_total (k : string) (p : value -> bool) (l : list json) :
  existsb is_null l = false ->
  find_prop k p l = Normal (find (fun r => p (field r k)) l).
Proof.
  induction l as [|r l IH]; simpl; intros Hnull.
  - reflexivity.
  - apply orb_false_iff in Hnull as [Hr Hl].
    rewrite (prop_field r k Hr). simpl.
    destruct (p (field r k)); [reflexivity|now apply IH].
Qed.

Lemma find_only {A} (p : A -> bool) (x : A) (l : list A) :
  In x l -> p x = true ->
  (forall y, In y l -> p y = true -> y = x) ->
  find p l = Some x.
Proof.
  intros Hin Hx Honly.
  destruct (find p l) as [y|] eqn:Hfind.
  - apply find_some in Hfind as [Hy Hpy]. f_equal. now apply Honly.
  - rewrite (find_none _ _ Hfind x Hin) in Hx. discriminate.
Qed.

(** One run of [getRecordById] whose read succeeds. *)
Lemma getRecordById_run (id : string) (w w1 : World) (records : list json) :
  getAllRecords w = (Resolved records, w1) ->
  existsb is_null records = false ->
  getRecordById id w
  = (Resolved (match find (has_id id) records with
               | Some r => r
               | None => JNull
               end), w1).
Proof.
  intros Hget Hnull. unfold getRecordById, bind. rewrite Hget.
  rewrite (find_prop_total _ _ _ Hnull). simpl. unfold ret. f_equal. f_equal.
  change (fun r => strict_eq_string (field r "id") id) with (has_id id).
  destruct (find (has_id id) records) as [r|] eqn:Hfind; [|reflexivity].
  apply find_some in Hfind as [_ Hid].
  apply has_id_object in Hid as (o & -> & _). reflexivity.
Qed.

Lemma saved_record_has_id (recordData : object) (w : World) :
  has_id (next_id w) (JObj (saved_record recordData w)) = true.
Proof.
  unfold has_id, field, prop, saved_record, next_id.
  destruct (newRecord_get recordData
              (fst (replace_xy template (draws w)))
              (toISOString (clock (ticks w)))
              (toISOString (clock (S (ticks w)))))
    as (-> & _).
  simpl. apply String.eqb_refl.
Qed.

(** The read that follows a save. *)
Lemma getAllRecords_after_save
    (recordData : object) (w : World) (records : list json) :
  lastError (after_save recordData records w) = None ->
  existsb is_null records = false ->
  getAllRecords (after_save recordData records w)
  = (Resolved (sort newest_first
                 (records ++ [JObj (saved_record recordData w)])),
     after_call (after_save recordData records w)).
Proof.
  intros Herr Hnull. apply getAllRecords_run; [exact Herr|].
  apply no_null_no_throw. unfold after_save, stored. simpl.
  now rewrite existsb_app, Hnull.
Qed.

(** X1.  After a create that succeeds, the listing holds the records
    it held, as they were, and the new record, which carries the
    datetime and the amount it was given: it is one longer, and on an
    empty store it is the new record alone. *)
Theorem saveRecord_then_list
    (recordData : object) (w w1 : World) (records : list json) :
  getAllRecords w = (Resolved records, w1) ->
  lastError w1 = None ->
  lastError (after_call w1) = None ->
  existsb is_null records = false ->
  exists newRecord w2 listing,
    saveRecord recordData w = (Resolved newRecord, w2)
    /\ getAllRecords w2 = (Resolved listing, after_call w2)
    /\ Permutation listing (JObj newRecord :: records)
    /\ List.length listing = S (List.length records)
    /\ get newRecord "datetime" = get recordData "datetime"
    /\ get newRecord "amount" = get recordData "amount"
    /\ (records = [] -> listing = [JObj newRecord]).
Proof.
  intros Hget Hset Hnext Hnull.
  apply getAllRecords_resolved in Hget as Hw. destruct Hw as (_ & _ & _ & Hw1).
  assert (Hperm : Permutation
                    (sort newest_first
                       (records ++ [JObj (saved_record recordData w)]))
                    (JObj (saved_record recordData w) :: records)).
  { eapply perm_trans; [apply sort_perm|].
    apply Permutation_sym, Permutation_cons_append. }
  exists (saved_record recordData w), (after_save recordData records w).
  eexists.
  split; [now apply saveRecord_run with (w1 := w1)|].
  split; [apply getAllRecords_after_save; [subst w1; exact Hnext|exact Hnull]|].
  split; [exact Hperm|].
  split; [now rewrite (Permutation_length Hperm)|].
  destruct (newRecord_get recordData
              (fst (replace_xy template (draws w)))
              (toISOString (clock (ticks w)))
              (toISOString (clock (S (ticks w)))))
    as (_ & Hdate & Hamount & _).
  repeat split; try assumption.
  intros ->. reflexivity.
Qed.

(** X2.  A record created at an instant later than the [createdAt] of
    every listed record comes first in the next listing, and the other
    records follow in the order they had. *)
Theorem saveRecord_lists_first
    (recordData : object) (w w1 : World) (records : list json) (now : Z) :
  getAllRecords w = (Resolved records, w1) ->
  lastError w1 = None ->
  lastError (after_call w1) = None ->
  existsb is_null records = false ->
  clock (ticks w) = now ->
  Date_value (Some (JStr (toISOString now))) = Some now ->
  Forall (fun r => exists t, createdAt_time r = Some t /\ t < now) records ->
  exists newRecord w2,
    saveRecord recordData w = (Resolved newRecord, w2)
    /\ getAllRecords w2 = (Resolved (JObj newRecord :: records), after_call w2).
Proof.
  intros Hget Hset Hnext Hnull Hclock Hdate Holder.
  apply getAllRecords_resolved in Hget as Hw.
  destruct Hw as (_ & _ & Hsorted & Hw1).
  exists (saved_record recordData w), (after_save recordData records w).
  split; [now apply saveRecord_run with (w1 := w1)|].
  rewrite getAllRecords_after_save; [|subst w1; exact Hnext|exact Hnull].
  rewrite sort_newest_last.
  - replace (sort newest_first records) with records; [reflexivity|].
    rewrite Hsorted. symmetry. apply getAllRecords_sorted_again.
  - intros r Hr. rewrite goes_after_newest_first.
    rewrite (saved_record_time recordData w now Hclock Hdate).
    rewrite Forall_forall in Holder.
    destruct (Holder r Hr) as (t & -> & Hlt). now apply Z.ltb_lt.
Qed.

(** X3.  [getRecordById] resolves with [null] exactly when no listed
    record has the id, and otherwise with a listed record that has it:
    the first in the order of the listing. *)
Theorem getRecordById_finds
    (id : string) (w w1 : World) (records : list json) :
  getAllRecords w = (Resolved records, w1) ->
  existsb is_null records = false ->
  exists r,
    getRecordById id w = (Resolved r, w1)
    /\ storage w1 = storage w
    /\ ((r = JNull /\ forall x, In x records -> has_id id x = false)
        \/ (exists before after,
               records = before ++ r :: after
               /\ has_id id r = true
               /\ forall x, In x before -> has_id id x = false)).
Proof.
  intros Hget Hnull. eexists.
  split; [apply (getRecordById_run id w w1 records Hget Hnull)|].
  split.
  { apply getAllRecords_resolved in Hget as (_ & _ & _ & ->). reflexivity. }
  clear Hget Hnull. induction records as [|x records IH]; simpl.
  - left. split; [reflexivity|]. intros x [].
  - destruct (has_id id x) eqn:Hx.
    + right. exists [], records. repeat split; auto. intros y [].
    + destruct IH as [[Hr Hnone]|(before & after & Hrec & Hid & Hnone)].
      * left. split; [exact Hr|]. intros y [<-|Hy]; auto.
      * right. exists (x :: before), after. split; [simpl; now f_equal|].
        split; [exact Hid|]. intros y [<-|Hy]; auto.
Qed.

(** X4.  The record a create has just stored is what a look-up of its
    id returns, when no listed record had that id. *)
Theorem getRecordById_after_save
    (recordData : object) (w w1 : World) (records : list json) :
  getAllRecords w = (Resolved records, w1) ->
  lastError w1 = None ->
  lastError (after_call w1) = None ->
  existsb is_null records = false ->
  (forall r, In r records -> has_id (next_id w) r = false) ->
  exists newRecord w2 w3,
    saveRecord recordData w = (Resolved newRecord, w2)
    /\ get newRecord "id" = Some (JStr (next_id w))
    /\ getRecordById (next_id w) w2 = (Resolved (JObj newRecord), w3).
Proof.
  intros Hget Hset Hnext Hnull Hfresh.
  apply getAllRecords_resolved in Hget as Hw. destruct Hw as (_ & _ & _ & Hw1).
  exists (saved_record recordData w), (after_save recordData records w).
  eexists.
  split; [now apply saveRecord_run with (w1 := w1)|].
  split.
  { unfold saved_record, next_id.
    now destruct (newRecord_get recordData
                    (fst (replace_xy template (draws w)))
                    (toISOString (clock (ticks w)))
                    (toISOString (clock (S (ticks w)))))
      as (-> & _). }
  rewrite (getRecordById_run _ _ _ _
             (getAllRecords_after_save recordData w records
                ltac:(subst w1; exact Hnext) Hnull)).
  - rewrite (find_only (has_id (next_id w))
               (JObj (saved_record recordData w))); [reflexivity| | |].
    + apply (Permutation_in _ (Permutation_sym (sort_perm newest_first _))).
      apply in_or_app. right. now left.
    + apply saved_record_has_id.
    + intros y Hy Hid.
      apply (Permutation_in _ (sort_perm newest_first _)) in Hy.
      apply in_app_or in Hy as [Hy|[Hy|[]]]; [|now symmetry].
      rewrite (Hfresh y Hy) in Hid. discriminate.
  - rewrite (existsb_perm _ _ _ (sort_perm newest_first _)), existsb_app, Hnull.
    reflexivity.
Qed.

(** X5.  A create followed by a delete of the id it gave leaves the
    store with the records the listing held before, in that order, when
    no listed record had that id. *)
Theorem save_then_delete_restores
    (recordData : object) (w w1 : World) (records : list json) :
  getAllRecords w = (Resolved records, w1) ->
  faults w = [] ->
  existsb is_null records = false ->
  (forall r, In r records -> has_id (next_id w) r = false) ->
  exists newRecord w2 w3,
    saveRecord recordData w = (Resolved newRecord, w2)
    /\ deleteRecord (next_id w) w2 = (Resolved tt, w3)
    /\ storage w3 = Some records.
Proof.
  intros Hget Hfaults Hnull Hfresh.
  apply getAllRecords_resolved in Hget as Hw.
  destruct Hw as (_ & _ & Hsorted & Hw1).
  assert (Hf1 : lastError w1 = None)
    by (subst w1; now apply no_faults_ahead).
  set (w2 := after_save recordData records w).
  assert (Hf2 : faults w2 = []) by (unfold w2; simpl; now rewrite Hfaults).
  exists (saved_record recordData w), w2. eexists.
  split; [now apply saveRecord_run with (w1 := w1)|].
  assert (Hread := getAllRecords_after_save recordData w records
                     (proj1 (no_faults_ahead w2 Hf2)) Hnull).
  split.
  - apply (deleteRecord_run _ _ _ _ Hread (proj2 (no_faults_ahead w2 Hf2))).
    rewrite (existsb_perm _ _ _ (sort_perm newest_first _)), existsb_app, Hnull.
    reflexivity.
  - simpl. f_equal.
    apply (sort_without_last newest_first
             (fun r => negb (has_id (next_id w) r))).
    + rewrite Hsorted. apply sort_sorted, newest_first_asymmetric.
    + intros r Hr. now rewrite (Hfresh r Hr).
    + now rewrite saved_record_has_id.
Qed.

(** X6.  After a delete that succeeds no listed record has the id and a
    look-up of it resolves with [null]. *)
Theorem delete_then_lookup
    (id : string) (w w1 : World) (records : list json) :
  getAllRecords w = (Resolved records, w1) ->
  lastError w1 = None ->
  lastError (after_call w1) = None ->
  existsb is_null records = false ->
  exists w2 listing w3,
    deleteRecord id w = (Resolved tt, w2)
    /\ getAllRecords w2 = (Resolved listing, w3)
    /\ (forall r, In r listing -> In r records /\ has_id id r = false)
    /\ getRecordById id w2 = (Resolved JNull, w3).
Proof.
  intros Hget Hset Hnext Hnull.
  set (kept := filter (fun r => negb (has_id id r)) records).
  assert (Hkept : existsb is_null kept = false).
  { destruct (existsb is_null kept) eqn:He; [|reflexivity].
    apply existsb_exists in He as (r & Hr & Hn).
    apply filter_In in Hr as [Hr _].
    assert (existsb is_null records = true)
      by (apply existsb_exists; eauto).
    congruence. }
  set (w2 := after_call (with_storage (Some kept) w1)).
  assert (Hread : getAllRecords w2
                  = (Resolved (sort newest_first kept), after_call w2)).
  { apply getAllRecords_run; [exact Hnext|].
    now apply no_null_no_throw. }
  assert (Hnone : forall r, In r (sort newest_first kept) ->
                            In r records /\ has_id id r = false).
  { intros r Hr. apply (Permutation_in _ (sort_perm newest_first _)) in Hr.
    apply filter_In in Hr as [Hr Hid]. split; [exact Hr|].
    now apply negb_true_iff. }
  exists w2, (sort newest_first kept), (after_call w2).
  split; [apply (deleteRecord_run id w w1 records Hget Hset Hnull)|].
  split; [exact Hread|]. split; [exact Hnone|].
  rewrite (getRecordById_run id _ _ _ Hread).
  - destruct (find (has_id id) (sort newest_first kept)) as [r|] eqn:Hfind;
      [|reflexivity].
    apply find_some in Hfind as [Hin Hid].
    destruct (Hnone r Hin) as [_ Hno]. congruence.
  - now rewrite (existsb_perm _ _ _ (sort_perm newest_first _)).
Qed.

(** X7.  [clearAllRecords] does not read the store: it succeeds
    whatever the store holds, a store whose listing never settles
    included, and leaves one whose listing is empty; clearing again
    succeeds and changes nothing. *)
Theorem clearAllRecords_empties (w : World) :
  faults w = [] ->
  exists w1 w2,
    clearAllRecords w = (Resolved tt, w1)
    /\ storage w1 = None
    /\ getAllRecords w1 = (Resolved [], after_call w1)
    /\ clearAllRecords w1 = (Resolved tt, w2)
    /\ storage w2 = None.
Proof.
  intros Hfaults.
  exists (after_call (with_storage None w)),
         (after_call (with_storage None (after_call (with_storage None w)))).
  unfold clearAllRecords, getAllRecords, lastError. simpl.
  rewrite Hfaults. simpl. repeat split; reflexivity.
Qed.
End StoreMore.

(** A create into a store of two records. *)
Lemma saveRecord_then_list_witness :
  exists newRecord w2 listing,
    RecordStorage.saveRecord (host := Test.host)
      [("datetime", JStr "2024-01-04T09:30:00.000Z"); ("amount", num 12)]
      Test.two_records = (Resolved newRecord, w2)
    /\ RecordStorage.getAllRecords (host := Test.host) w2
       = (Resolved listing, after_call w2)
    /\ Permutation listing [JObj newRecord; Test.record_b; Test.record_a]
    /\ List.length listing = 3%nat.
Proof.
  destruct (saveRecord_then_list (host := Test.host)
              [("datetime", JStr "2024-01-04T09:30:00.000Z");
               ("amount", num 12)]
              Test.two_records (after_call Test.two_records)
              [Test.record_b; Test.record_a])
    as (r & w2 & l & Hrun & Hlist & Hperm & Hlen & _);
    try reflexivity.
  exists r, w2, l. repeat split; assumption.
Defined.

(** A create when the clock is past both stored records. *)
Lemma saveRecord_lists_first_witness :
  exists newRecord w2,
    RecordStorage.saveRecord (host := Test.host)
      [("datetime", JStr "2024-01-04T09:30:00.000Z"); ("amount", num 12)]
      Test.later = (Resolved newRecord, w2)
    /\ RecordStorage.getAllRecords (host := Test.host) w2
       = (Resolved [JObj newRecord; Test.record_b; Test.record_a],
          after_call w2).
Proof.
  destruct (saveRecord_lists_first (host := Test.host)
              [("datetime", JStr "2024-01-04T09:30:00.000Z");
               ("amount", num 12)]
              Test.later (after_call Test.later)
              [Test.record_b; Test.record_a] Test.T3)
    as (r & w2 & Hrun & Hlist).
  - reflexivity.
  - reflexivity.
  - reflexivity.
  - reflexivity.
  - reflexivity.
  - vm_compute. reflexivity.
  - repeat constructor.
    + exists Test.T2. split; vm_compute; reflexivity.
    + exists Test.T1. split; vm_compute; reflexivity.
  - exists r, w2. split; assumption.
Defined.

(** The look-up of a stored id and of one that is not stored. *)
Lemma getRecordById_finds_witness :
  (exists r,
      RecordStorage.getRecordById (host := Test.host) "a" Test.two_records
      = (Resolved r, after_call Test.two_records)
      /\ (r = JNull \/ Spec.has_id "a" r = true))
  /\ (exists r,
         RecordStorage.getRecordById (host := Test.host) "z" Test.two_records
         = (Resolved r, after_call Test.two_records)
         /\ (r = JNull \/ Spec.has_id "z" r = true)).
Proof.
  split.
  - destruct (getRecordById_finds (host := Test.host) "a" Test.two_records
                (after_call Test.two_records) [Test.record_b; Test.record_a])
      as (r & Hrun & _ & [[Hr _]|(b & a & _ & Hid & _)]);
      try reflexivity; exists r; auto.
  - destruct (getRecordById_finds (host := Test.host) "z" Test.two_records
                (after_call Test.two_records) [Test.record_b; Test.record_a])
      as (r & Hrun & _ & [[Hr _]|(b & a & _ & Hid & _)]);
      try reflexivity; exists r; auto.
Defined.

(** A create into a store of two records, then the look-up of its id. *)
Lemma getRecordById_after_save_witness :
  exists newRecord w2 w3,
    RecordStorage.saveRecord (host := Test.host)
      [("datetime", JStr "2024-01-04T09:30:00.000Z"); ("amount", num 12)]
      Test.two_records = (Resolved newRecord, w2)
    /\ RecordStorage.getRecordById (host := Test.host)
         (Spec.next_id (host := Test.host) Test.two_records) w2
       = (Resolved (JObj newRecord), w3).
Proof.
  destruct (getRecordById_after_save (host := Test.host)
              [("datetime", JStr "2024-01-04T09:30:00.000Z");
               ("amount", num 12)]
              Test.two_records (after_call Test.two_records)
              [Test.record_b; Test.record_a])
    as (r & w2 & w3 & Hrun & _ & Hfind).
  - reflexivity.
  - reflexivity.
  - reflexivity.
  - reflexivity.
  - intros x [<-|[<-|[]]]; vm_compute; reflexivity.
  - exists r, w2, w3. split; assumption.
Defined.

(** A create into a store of two records, then the delete of its id. *)
Lemma save_then_delete_restores_witness :
  exists newRecord w2 w3,
    RecordStorage.saveRecord (host := Test.host)
      [("datetime", JStr "2024-01-04T09:30:00.000Z"); ("amount", num 12)]
      Test.two_records = (Resolved newRecord, w2)
    /\ RecordStorage.deleteRecord (host := Test.host)
         (Spec.next_id (host := Test.host) Test.two_records) w2
       = (Resolved tt, w3)
    /\ storage w3 = Some [Test.record_b; Test.record_a].
Proof.
  destruct (save_then_delete_restores (host := Test.host)
              [("datetime", JStr "2024-01-04T09:30:00.000Z");
               ("amount", num 12)]
              Test.two_records (after_call Test.two_records)
              [Test.record_b; Test.record_a])
    as (r & w2 & w3 & Hrun & Hdel & Hstore).
  - reflexivity.
  - reflexivity.
  - reflexivity.
  - intros x [<-|[<-|[]]]; vm_compute; reflexivity.
  - exists r, w2, w3. repeat split; assumption.
Defined.

(** The delete of a stored id, then its look-up. *)
Lemma delete_then_lookup_witness :
  exists w2 w3,
    RecordStorage.deleteRecord (host := Test.host) "a" Test.two_records
    = (Resolved tt, w2)
    /\ RecordStorage.getRecordById (host := Test.host) "a" w2
       = (Resolved JNull, w3).
Proof.
  destruct (delete_then_lookup (host := Test.host) "a" Test.two_records
              (after_call Test.two_records) [Test.record_b; Test.record_a])
    as (w2 & l & w3 & Hrun & _ & _ & Hfind);
    try reflexivity.
  exists w2, w3. split; assumption.
Defined.

(** Clearing a store of two records. *)
Lemma clearAllRecords_empties_witness :
  exists w1,
    RecordStorage.clearAllRecords Test.two_records = (Resolved tt, w1)
    /\ storage w1 = None
    /\ RecordStorage.getAllRecords (host := Test.host) w1
       = (Resolved [], after_call w1).
Proof.
  destruct (clearAllRecords_empties (host := Test.host) Test.two_records)
    as (w1 & w2 & Hrun & Hstore & Hlist & _);
    [reflexivity|].
  exists w1. repeat split; assumption.
Defined.

(* ================================================================== *)
(** * The store: failures                                              *)
(* ================================================================== *)

Section StoreFailures.
Import RecordStorage Spec.
Context `{host : Host}.

Lemma storage_set_storage (records : list json) (w w' : World)
      (o : outcome unit) :
  storage_set records w = (o, w') ->
  (forall r, o <> Resolved r) -> storage w' = storage w.
Proof.
  unfold storage_set. intros H Hnot.
  destruct (lastError w); inversion H; subst; [reflexivity|].
  exfalso. eapply Hnot. reflexivity.
Qed.

(** A create that does not resolve writes nothing. *)
Lemma saveRecord_unresolved
    (recordData : object) (w w' : World) (o : outcome object) :
  saveRecord recordData w = (o, w') ->
  (forall r, o <> Resolved r) -> storage w' = storage w.
Proof.
  intros Hrun Hnot. unfold saveRecord, bind in Hrun.
  destruct (getAllRecords w) as [[records|e|] w1] eqn:Hget;
    apply getAllRecords_storage in Hget; subst w1;
    [|inversion Hrun; now subst|inversion Hrun; now subst].
  unfold generateId in Hrun.
  simpl in Hrun.
  destruct (replace_xy template (draws w)) as [newid n]. simpl in Hrun.
  match type of Hrun with
  | context [storage_set ?l ?w2] =>
      destruct (storage_set l w2) as [[[]|e|] w3] eqn:Hset
  end; inversion Hrun; subst;
    [exfalso; eapply Hnot; reflexivity
    |apply storage_set_storage in Hset;
     [rewrite Hset; reflexivity|intros r; discriminate]..].
Qed.

(** X8.  A write happens only in a run that resolves: when
    [saveRecord], [updateRecord], [deleteRecord], [clearAllRecords] or
    [importFromJSON] is rejected, or never settles, the stored array is
    the one it was; and [getAllRecords], [getRecordById] and
    [exportToJSON] never change it, however they end. *)
Theorem unresolved_leaves_store
    (recordData updates : object) (id : string) (t : json_text) (w : World) :
  (forall o w', saveRecord recordData w = (o, w') ->
                (forall r, o <> Resolved r) -> storage w' = storage w)
  /\ (forall o w', updateRecord id updates w = (o, w') ->
                   (forall r, o <> Resolved r) -> storage w' = storage w)
  /\ (forall o w', deleteRecord id w = (o, w') ->
                   (forall r, o <> Resolved r) -> storage w' = storage w)
  /\ (forall o w', clearAllRecords w = (o, w') ->
                   (forall r, o <> Resolved r) -> storage w' = storage w)
  /\ (forall o w', importFromJSON t w = (o, w') ->
                   (forall r, o <> Resolved r) -> storage w' = storage w)
  /\ (forall o w', getAllRecords w = (o, w') -> storage w' = storage w)
  /\ (forall o w', getRecordById id w = (o, w') -> storage w' = storage w)
  /\ (forall o w', exportToJSON w = (o, w') -> storage w' = storage w).
Proof.
  repeat split.
  - intros o w'. apply saveRecord_unresolved.
  - intros o w' Hrun Hnot. unfold updateRecord, bind in Hrun.
    destruct (getAllRecords w) as [[records|e|] w1] eqn:Hget;
      apply getAllRecords_storage in Hget; subst w1;
      [|inversion Hrun; now subst|inversion Hrun; now subst].
    destruct (findIndex_prop "id" (fun v => strict_eq_string v id) records 0)
      as [[index|]|e]; simpl in Hrun;
      [|inversion Hrun; now subst|inversion Hrun; now subst].
    match type of Hrun with
    | context [storage_set ?l ?w2] =>
        destruct (storage_set l w2) as [[[]|e|] w3] eqn:Hset
    end; inversion Hrun; subst;
      [exfalso; eapply Hnot; reflexivity
      |apply storage_set_storage in Hset;
       [rewrite Hset; reflexivity|intros r; discriminate]..].
  - intros o w' Hrun Hnot. unfold deleteRecord, bind in Hrun.
    destruct (getAllRecords w) as [[records|e|] w1] eqn:Hget;
      apply getAllRecords_storage in Hget; subst w1;
      [|inversion Hrun; now subst|inversion Hrun; now subst].
    destruct (filter_prop "id" (fun v => negb (strict_eq_string v id)) records)
      as [kept|e]; simpl in Hrun; [|inversion Hrun; now subst].
    apply storage_set_storage in Hrun; [|exact Hnot]. now rewrite Hrun.
  - intros o w' Hrun Hnot. unfold clearAllRecords in Hrun.
    destruct (lastError w); inversion Hrun; subst; [reflexivity|].
    exfalso. eapply Hnot. reflexivity.
  - intros o w' Hrun Hnot. unfold importFromJSON, bind in Hrun.
    destruct t as [document|]; simpl in Hrun; [|inversion Hrun; now subst].
    destruct (prop document "records") as [v|e0]; simpl in Hrun;
      [|inversion Hrun; now subst].
    destruct (getAllRecords w) as [[existing|e|] w1] eqn:Hget;
      apply getAllRecords_storage in Hget; subst w1;
      [|inversion Hrun; now subst|inversion Hrun; now subst].
    destruct (map_prop "id" existing) as [ids|e]; simpl in Hrun;
      [|inversion Hrun; now subst].
    destruct (filter_new ids (or_else v (Some (JArr [])))) as [new|e];
      simpl in Hrun; [|inversion Hrun; now subst].
    match type of Hrun with
    | context [storage_set ?l ?w2] =>
        destruct (storage_set l w2) as [[[]|e|] w3] eqn:Hset
    end; inversion Hrun; subst;
      [exfalso; eapply Hnot; reflexivity
      |apply storage_set_storage in Hset;
       [rewrite Hset; reflexivity|intros r; discriminate]..].
  - intros o w' Hrun. apply getAllRecords_storage in Hrun. now subst.
  - intros o w' Hrun. unfold getRecordById, bind in Hrun.
    destruct (getAllRecords w) as [[records|e|] w1] eqn:Hget;
      apply getAllRecords_storage in Hget; subst w1;
      [|inversion Hrun; now subst|inversion Hrun; now subst].
    destruct (find_prop "id" (fun v => strict_eq_string v id) records)
      as [found|e]; simpl in Hrun; inversion Hrun; now subst.
  - intros o w' Hrun. unfold exportToJSON, bind in Hrun.
    destruct (getAllRecords w) as [[records|e|] w1] eqn:Hget;
      apply getAllRecords_storage in Hget; subst w1;
      inversion Hrun; now subst.
Qed.

(** X9.  When the storage read fails, every operation that reads is
    rejected with an [Error] carrying the message of
    [chrome.runtime.lastError]; nothing is written, no id is drawn and
    the clock is not read. *)
Theorem read_failure_reported
    (m : string) (recordData updates : object) (id : string)
    (document : json) (v : value) (w : World) :
  lastError w = Some m ->
  prop document "records" = Normal v ->
  getAllRecords w = (Rejected (Error m), after_call w)
  /\ saveRecord recordData w = (Rejected (Error m), after_call w)
  /\ updateRecord id updates w = (Rejected (Error m), after_call w)
  /\ deleteRecord id w = (Rejected (Error m), after_call w)
  /\ getRecordById id w = (Rejected (Error m), after_call w)
  /\ exportToJSON w = (Rejected (Error m), after_call w)
  /\ importFromJSON (Text document) w = (Rejected (Error m), after_call w)
  /\ storage (after_call w) = storage w
  /\ ticks (after_call w) = ticks w
  /\ draws (after_call w) = draws w.
Proof.
  intros Herr Hprop.
  assert (Hget : getAllRecords w = (Rejected (Error m), after_call w))
    by (unfold getAllRecords; now rewrite Herr).
  unfold saveRecord, updateRecord, deleteRecord, getRecordById, exportToJSON,
    importFromJSON, bind.
  simpl. rewrite Hprop. simpl. rewrite Hget. repeat split; reflexivity.
Qed.

(** X10.  When the write of a create fails, the create is rejected
    with the message of the failure and the store keeps the array it
    had, although an id was drawn and the clock was read twice. *)
Theorem write_failure_reported
    (m : string) (recordData : object) (w w1 : World) (records : list json) :
  getAllRecords w = (Resolved records, w1) ->
  lastError w1 = Some m ->
  exists w2,
    saveRecord recordData w = (Rejected (Error m), w2)
    /\ storage w2 = storage w
    /\ ticks w2 = S (S (ticks w))
    /\ draws w2 = snd (replace_xy template (draws w)).
Proof.
  intros Hget Hset.
  apply getAllRecords_resolved in Hget as Hw. destruct Hw as (_ & _ & _ & ->).
  unfold saveRecord, bind. rewrite Hget. unfold generateId. simpl.
  destruct (replace_xy template (draws w)) as [newid n]. simpl.
  unfold storage_set, lastError in *. simpl in *. rewrite Hset.
  eexists. split; [reflexivity|]. repeat split.
Qed.
End StoreFailures.

(** A create whose write fails, and a delete whose read fails. *)
Lemma unresolved_leaves_store_witness :
  (exists e w',
      RecordStorage.saveRecord (host := Test.host)
        [("datetime", JStr "2024-01-04T09:30:00.000Z"); ("amount", num 12)]
        Test.failing_write = (Rejected e, w')
      /\ storage w' = storage Test.failing_write)
  /\ (exists e w',
         RecordStorage.deleteRecord (host := Test.host) "a" Test.failing_read
         = (Rejected e, w')
         /\ storage w' = storage Test.failing_read).
Proof.
  destruct (unresolved_leaves_store (host := Test.host)
              [("datetime", JStr "2024-01-04T09:30:00.000Z");
               ("amount", num 12)]
              [] "a" (Text JNull) Test.failing_write)
    as (Hsave & _).
  destruct (unresolved_leaves_store (host := Test.host)
              [] [] "a" (Text JNull) Test.failing_read)
    as (_ & _ & Hdelete & _).
  split.
  - eexists _, _. split; [vm_compute; reflexivity|].
    eapply Hsave; [vm_compute; reflexivity|discriminate].
  - eexists _, _. split; [vm_compute; reflexivity|].
    eapply Hdelete; [vm_compute; reflexivity|discriminate].
Defined.

(** Every reading operation on a store whose read fails. *)
Lemma read_failure_reported_witness :
  RecordStorage.getAllRecords (host := Test.host) Test.failing_read
  = (Rejected (Error "Storage unavailable"), after_call Test.failing_read)
  /\ RecordStorage.saveRecord (host := Test.host)
       [("datetime", JStr "2024-01-04T09:30:00.000Z"); ("amount", num 12)]
       Test.failing_read
     = (Rejected (Error "Storage unavailable"), after_call Test.failing_read)
  /\ RecordStorage.importFromJSON (host := Test.host) (Text Test.document)
       Test.failing_read
     = (Rejected (Error "Storage unavailable"), after_call Test.failing_read).
Proof.
  destruct (read_failure_reported (host := Test.host) "Storage unavailable"
              [("datetime", JStr "2024-01-04T09:30:00.000Z");
               ("amount", num 12)]
              [("amount", num 20)] "a" Test.document
              (Some (JArr [Test.record_a'; Test.record_c])) Test.failing_read)
    as (Hlist & Hsave & _ & _ & _ & _ & Himport & _);
    try reflexivity.
  repeat split; assumption.
Defined.

(** A create on a store whose write fails. *)
Lemma write_failure_reported_witness :
  exists w2,
    RecordStorage.saveRecord (host := Test.host)
      [("datetime", JStr "2024-01-04T09:30:00.000Z"); ("amount", num 12)]
      Test.failing_write
    = (Rejected (Error "QUOTA_BYTES quota exceeded"), w2)
    /\ storage w2 = Some [Test.record_a; Test.record_b]
    /\ ticks w2 = 2%nat.
Proof.
  destruct (write_failure_reported (host := Test.host)
              "QUOTA_BYTES quota exceeded"
              [("datetime", JStr "2024-01-04T09:30:00.000Z");
               ("amount", num 12)]
              Test.failing_write (after_call Test.failing_write)
              [Test.record_b; Test.record_a])
    as (w2 & Hrun & Hstore & Hticks & _);
    try reflexivity.
  exists w2. repeat split; assumption.
Defined.

(* ================================================================== *)
(** * The ids                                                          *)
(* ================================================================== *)

Section Ids.
Import RecordStorage Spec.
Context `{host : Host}.

Lemma below_16 (v : Z) :
  0 <= v < 16 ->
  v = 0 \/ v = 1 \/ v = 2 \/ v = 3 \/ v = 4 \/ v = 5 \/ v = 6 \/ v = 7
  \/ v = 8 \/ v = 9 \/ v = 10 \/ v = 11 \/ v = 12 \/ v = 13 \/ v = 14
  \/ v = 15.
Proof. lia. Qed.

Lemma toString16_hex (v : Z) :
  0 <= v < 16 ->
  exists c, toString16 v = String c EmptyString /\ is_hex c = true.
Proof.
  intros H. apply below_16 in H.
  repeat (destruct H as [->|H]; [eexists; split; reflexivity|]).
  subst. eexists; split; reflexivity.
Qed.

Lemma toString16_variant (r : Z) :
  0 <= r < 16 ->
  exists c, toString16 (Z.lor (Z.land r 3) 8) = String c EmptyString
            /\ is_variant c = true.
Proof.
  intros H. apply below_16 in H.
  repeat (destruct H as [->|H]; [eexists; split; reflexivity|]).
  subst. eexists; split; reflexivity.
Qed.

(** [Math.random() * 16 | 0] for a number of [0, 1). *)
Lemma random_digit (q : Q) :
  (0 <= q)%Q -> (q < 1)%Q -> 0 <= Qfloor (q * inject_Z 16)%Q < 16.
Proof.
  intros H0 H1. split.
  - rewrite <- (Qfloor_Z 0). apply Qfloor_resp_le.
    apply Qmult_le_0_compat; [exact H0|discriminate].
  - rewrite Zlt_Qlt. eapply Qle_lt_trans; [apply Qfloor_le|].
    setoid_replace (inject_Z 16) with (1 * inject_Z 16)%Q at 2 by ring.
    apply Qmult_lt_r; [reflexivity|exact H1].
Qed.

Lemma replace_xy_fills (t : string) (n : nat) :
  (forall k, 0 <= Math_random k < 1)%Q ->
  fills t (fst (replace_xy t n)) = true.
Proof.
  intros Hrandom. revert n. induction t as [|c t IH]; intros n.
  - reflexivity.
  - cbn [replace_xy].
    destruct (random_digit (Math_random n)
                (proj1 (Hrandom n)) (proj2 (Hrandom n))) as [Hlo Hhi].
    destruct (Ascii.eqb c "x") eqn:Hx; cbn [orb].
    + specialize (IH (S n)).
      destruct (replace_xy t (S n)) as [rest n'].
      destruct (toString16_hex _ (conj Hlo Hhi)) as (d & -> & Hd).
      cbn [String.append fst fills] in *. now rewrite Hx, Hd, IH.
    + destruct (Ascii.eqb c "y") eqn:Hy.
      * specialize (IH (S n)).
        destruct (replace_xy t (S n)) as [rest n'].
        destruct (toString16_variant _ (conj Hlo Hhi)) as (d & -> & Hd).
        cbn [String.append fst fills] in *. now rewrite Hx, Hy, Hd, IH.
      * specialize (IH n).
        destruct (replace_xy t n) as [rest n'].
        cbn [fst fills] in *. now rewrite Hx, Hy, Ascii.eqb_refl, IH.
Qed.

Lemma fills_length (t s : string) :
  fills t s = true -> String.length s = String.length t.
Proof.
  revert s. induction t as [|c t IH]; intros [|d s]; simpl; try discriminate.
  - reflexivity.
  - intros H. apply andb_true_iff in H as [_ H]. f_equal. now apply IH.
Qed.

(** The number of [x] and [y] in a template. *)
Lemma replace_xy_draws (t : string) (n : nat) :
  snd (replace_xy t n)
  = (n + List.length (filter (fun c => Ascii.eqb c "x" || Ascii.eqb c "y")
                             (list_ascii_of_string t)))%nat.
Proof.
  revert n. induction t as [|c t IH]; intros n; simpl.
  - now rewrite Nat.add_0_r.
  - destruct (Ascii.eqb c "x" || Ascii.eqb c "y").
    + specialize (IH (S n)). destruct (replace_xy t (S n)) as [rest n'].
      simpl in *. lia.
    + specialize (IH n). destruct (replace_xy t n) as [rest n'].
      simpl in *. exact IH.
Qed.

(** X11.  With [Math.random] in [0, 1), an id has the shape of a
    version-4 UUID, [xxxxxxxx-xxxx-4xxx-yxxx-xxxxxxxxxxxx] with a
    lower-case hex digit for every [x] and one of 8, 9, a, b for the
    [y]: 36 characters from 31 random draws; making it touches neither
    the store nor the clock. *)
Theorem generateId_shape (w : World) :
  (forall k, 0 <= Math_random k < 1)%Q ->
  exists id,
    generateId w
    = (Resolved id,
       mkWorld (storage w) (faults w) (ticks w) (draws w + 31)%nat)
    /\ fills template id = true
    /\ String.length id = 36%nat.
Proof.
  intros Hrandom. exists (fst (replace_xy template (draws w))).
  pose proof (replace_xy_fills template (draws w) Hrandom) as Hfills.
  pose proof (replace_xy_draws template (draws w)) as Hdraws.
  split; [|split].
  - unfold generateId.
    destruct (replace_xy template (draws w)) as [id n]. simpl in *.
    now rewrite Hdraws.
  - exact Hfills.
  - now rewrite (fills_length _ _ Hfills).
Qed.
End Ids.

(** The id drawn in the fresh store. *)
Lemma generateId_shape_witness :
  exists id,
    RecordStorage.generateId (host := Test.host) Test.fresh
    = (Resolved id, mkWorld None [] 0 31)
    /\ Spec.fills RecordStorage.template id = true
    /\ String.length id = 36%nat.
Proof.
  destruct (generateId_shape (host := Test.host) Test.fresh)
    as (id & Hrun & Hfills & Hlength).
  - intros k. unfold Qle, Qlt. cbn [Math_random Test.host Qnum Qden].
    pose proof (Nat.mod_upper_bound k 16 ltac:(discriminate)). lia.
  - exists id. repeat split; assumption.
Defined.

(* ================================================================== *)
(** * import replayed, ids kept apart, update looked up                *)
(* ================================================================== *)

Section ImportMore.
Import RecordStorage Spec.
Context `{host : Host}.

Lemma is_new_perm (l l' : list json) (r : json) :
  Permutation l l' -> is_new l r = is_new l' r.
Proof.
  intros Hperm. unfold is_new, set_has. f_equal.
  apply existsb_perm, Permutation_map, Hperm.
Qed.

Lemma is_new_app (l l' : list json) (r : json) :
  is_new (l ++ l') r = is_new l r && is_new l' r.
Proof.
  unfold is_new, set_has. now rewrite map_app, existsb_app, negb_orb.
Qed.

Lemma filter_none {A} (p : A -> bool) (l : list A) :
  (forall x, In x l -> p x = false) -> filter p l = [].
Proof.
  induction l as [|x l IH]; simpl; intros H.
  - reflexivity.
  - rewrite (H x (or_introl eq_refl)). apply IH. auto.
Qed.

Lemma filter_no_null (p : json -> bool) (l : list json) :
  existsb is_null l = false -> existsb is_null (filter p l) = false.
Proof.
  induction l as [|x l IH]; simpl; intros H.
  - reflexivity.
  - apply orb_false_iff in H as [Hx Hl].
    destruct (p x); simpl; [rewrite Hx|]; auto.
Qed.

(** Once a document is merged none of its records is new. *)
Lemma merged_not_new (existing incoming : list json) (r : json) :
  In r incoming -> primitive (field r "id") = true ->
  is_new (sort newest_first (existing ++ filter (is_new existing) incoming)) r
  = false.
Proof.
  intros Hin Hprim.
  rewrite (is_new_perm _ _ r (sort_perm newest_first _)), is_new_app.
  destruct (is_new existing r) eqn:Hnew; [|reflexivity]. simpl.
  apply own_records_not_new; [|exact Hprim].
  apply filter_In. now split.
Qed.

(** X12.  An import replayed adds nothing: after a document was
    merged, importing the same document again resolves with 0 and the
    listing is the one the first import left. *)
Theorem importFromJSON_replay
    (document : json) (v : value) (incoming existing : list json)
    (w w1 : World) :
  prop document "records" = Normal v ->
  or_else v (Some (JArr [])) = Some (JArr incoming) ->
  getAllRecords w = (Resolved existing, w1) ->
  faults w = [] ->
  existsb is_null existing = false ->
  existsb is_null incoming = false ->
  Forall (fun r => primitive (field r "id") = true) incoming ->
  exists n w2 listing w3,
    importFromJSON (Text document) w = (Resolved n, w2)
    /\ getAllRecords w2 = (Resolved listing, after_call w2)
    /\ importFromJSON (Text document) w2 = (Resolved 0%nat, w3)
    /\ getAllRecords w3 = (Resolved listing, after_call w3).
Proof.
  intros Hprop Hor Hget Hfaults Hex Hin Hprim.
  apply getAllRecords_resolved in Hget as Hw. destruct Hw as (_ & _ & _ & Hw1).
  set (added := filter (is_new existing) incoming).
  set (w2 := after_call (with_storage (Some (existing ++ added)) w1)).
  set (listing := sort newest_first (existing ++ added)).
  assert (Hf2 : faults w2 = [])
    by (unfold w2; subst w1; simpl; now rewrite Hfaults).
  assert (Hmerged : existsb is_null (existing ++ added) = false)
    by (rewrite existsb_app, Hex; now apply filter_no_null).
  assert (Hlisting : existsb is_null listing = false)
    by (unfold listing;
        now rewrite (existsb_perm _ _ _ (sort_perm newest_first _))).
  assert (Hread : getAllRecords w2 = (Resolved listing, after_call w2)).
  { apply getAllRecords_run; [apply (proj1 (no_faults_ahead w2 Hf2))|].
    now apply no_null_no_throw. }
  assert (Hnone : filter (is_new listing) incoming = []).
  { apply filter_none. intros r Hr. apply merged_not_new; [exact Hr|].
    rewrite Forall_forall in Hprim. now apply Hprim. }
  exists (List.length added), w2, listing. eexists.
  split.
  { apply (importFromJSON_run document v incoming existing w w1);
      try assumption. subst w1. apply (proj2 (no_faults_ahead w Hfaults)). }
  split; [exact Hread|].
  split.
  { rewrite (importFromJSON_run document v incoming listing w2 (after_call w2));
      try assumption.
    - rewrite Hnone. reflexivity.
    - apply (proj2 (no_faults_ahead w2 Hf2)). }
  rewrite app_nil_r. rewrite getAllRecords_run.
  - unfold stored. simpl. unfold listing.
    now rewrite getAllRecords_sorted_again.
  - unfold lastError, w2. subst w1. simpl. now rewrite Hfaults.
  - apply no_null_no_throw. exact Hlisting.
Qed.

(** Records kept by a filter have distinct ids when all of them had. *)
Lemma distinct_ids_kept (keep : json -> bool) (records : list json) :
  NoDup (map (fun r => field r "id") records) ->
  NoDup (map (fun r => field r "id") (filter keep records)).
Proof.
  induction records as [|r records IH]; simpl; intros Hdistinct.
  - constructor.
  - inversion Hdistinct as [|? ? Hfresh Hrest]; subst.
    destruct (keep r); simpl; [|auto].
    constructor; [|auto].
    intros Hin. apply Hfresh.
    apply in_map_iff in Hin as (r' & Hid & Hin).
    apply filter_In in Hin as [Hin _]. apply in_map_iff. eauto.
Qed.

(** X13.  An import keeps ids apart: when the stored records have
    distinct ids, the records of the document have distinct ids that
    are primitive values, neither list holds a [null] entry and the
    storage does not fail, the records stored after the import have
    distinct ids. *)
Theorem importFromJSON_keeps_ids_distinct
    (document : json) (v : value) (incoming existing : list json)
    (w w1 : World) :
  prop document "records" = Normal v ->
  or_else v (Some (JArr [])) = Some (JArr incoming) ->
  getAllRecords w = (Resolved existing, w1) ->
  lastError w1 = None ->
  existsb is_null existing = false ->
  existsb is_null incoming = false ->
  Forall (fun r => primitive (field r "id") = true) incoming ->
  NoDup (map (fun r => field r "id") existing) ->
  NoDup (map (fun r => field r "id") incoming) ->
  exists n w2 merged,
    importFromJSON (Text document) w = (Resolved n, w2)
    /\ storage w2 = Some merged
    /\ NoDup (map (fun r => field r "id") merged).
Proof.
  intros Hprop Hor Hget Hset Hex Hin Hprim Hnd1 Hnd2.
  eexists _, _, _.
  split; [apply (importFromJSON_run document v incoming existing w w1);
          assumption|].
  split; [reflexivity|].
  rewrite map_app. apply NoDup_app; [exact Hnd1|now apply distinct_ids_kept|].
  intros a Ha Hadded.
  apply in_map_iff in Hadded as (r & <- & Hr).
  apply filter_In in Hr as [Hr Hnew].
  unfold is_new, set_has in Hnew. apply negb_true_iff in Hnew.
  assert (Htrue : existsb (same_value_zero (field r "id"))
                          (map (fun e => field e "id") existing) = true).
  { apply existsb_exists. exists (field r "id"). split; [exact Ha|].
    apply same_value_zero_refl. rewrite Forall_forall in Hprim.
    now apply Hprim. }
  congruence.
Qed.

Lemma goes_after_same_time (a a' b b' : json) :
  createdAt_time a = createdAt_time a' ->
  createdAt_time b = createdAt_time b' ->
  goes_after newest_first a b = goes_after newest_first a' b'.
Proof. intros Ha Hb. now rewrite !goes_after_newest_first, Ha, Hb. Qed.

(** Records of the same instants are in order together. *)
Lemma sorted_same_times (l l' : list json) :
  Forall2 (fun a b => createdAt_time a = createdAt_time b) l l' ->
  Sorted (fun a b => goes_after newest_first a b = false) l ->
  Sorted (fun a b => goes_after newest_first a b = false) l'.
Proof.
  induction 1 as [|x x' l l' Hx Hl IH]; intros Hs.
  - constructor.
  - inversion Hs as [|? ? Hs' Hhd]; subst. constructor; [now apply IH|].
    destruct Hl as [|y y' l l' Hy Hl]; constructor.
    inversion Hhd; subst.
    now rewrite <- (goes_after_same_time x x' y y' Hx Hy).
Qed.

Lemma Forall2_same {A} (R : A -> A -> Prop) (l : list A) :
  (forall x, R x x) -> Forall2 R l l.
Proof. intros HR. induction l; constructor; auto. Qed.

Lemma find_first {A} (p : A -> bool) (before after : list A) (x : A) :
  (forall y, In y before -> p y = false) -> p x = true ->
  find p (before ++ x :: after) = Some x.
Proof.
  intros Hbefore Hx. induction before as [|y before IH]; simpl.
  - now rewrite Hx.
  - rewrite (Hbefore y (or_introl eq_refl)). apply IH.
    intros z Hz. apply Hbefore. now right.
Qed.

(** X14.  An update that supplies neither [id] nor [createdAt] keeps
    the record at its place in the listing, and a look-up of the id
    returns the updated record. *)
Theorem updateRecord_then_lookup
    (id : string) (updates : object) (w w1 : World)
    (before after : list json) (r : json) :
  getAllRecords w = (Resolved (before ++ r :: after), w1) ->
  lastError w1 = None ->
  lastError (after_call w1) = None ->
  existsb is_null before = false ->
  existsb is_null after = false ->
  forallb (fun x => negb (has_id id x)) before = true ->
  has_id id r = true ->
  NoDup (map fst updates) ->
  NoDup (map fst (own_props r)) ->
  get updates "id" = None ->
  get updates "createdAt" = None ->
  exists updated w2 w3,
    updateRecord id updates w = (Resolved (JObj updated), w2)
    /\ getAllRecords w2 = (Resolved (before ++ JObj updated :: after), w3)
    /\ getRecordById id w2 = (Resolved (JObj updated), w3).
Proof.
  intros Hget Hset Hnext Hnb Hna Hbefore Hr Hu Hnd Hid Hcreated.
  apply getAllRecords_resolved in Hget as Hw.
  destruct Hw as (_ & _ & Hsorted & Hw1).
  set (updated := set "updatedAt" (JStr (toISOString (clock (ticks w))))
                    (spread (spread [] (own_props r)) updates)).
  set (w2 := after_call
               (with_storage (Some (before ++ JObj updated :: after))
                  (mkWorld (storage w1) (faults w1) (S (ticks w1))
                           (draws w1)))).
  assert (Hrun : updateRecord id updates w = (Resolved (JObj updated), w2)).
  { unfold updateRecord, bind. rewrite Hget.
    rewrite (findIndex_found id before after r 0 Hnb Hbefore Hr). simpl.
    rewrite nth_middle, assign_index_middle.
    unfold storage_set, lastError in *. simpl in *. rewrite Hset.
    subst w1. reflexivity. }
  assert (Hkey : forall k, k <> "updatedAt" -> get updates k = None ->
                           get updated k = field r k).
  { intros k Hk Hnone. unfold updated. rewrite updated_fields by assumption.
    apply String.eqb_neq in Hk. rewrite String.eqb_sym, Hk, Hnone.
    apply has_id_object in Hr as (o & -> & _). reflexivity. }
  assert (Htime : createdAt_time (JObj updated) = createdAt_time r).
  { unfold createdAt_time. f_equal. unfold field at 1, prop.
    apply Hkey; [discriminate|exact Hcreated]. }
  assert (Hhas : has_id id (JObj updated) = true).
  { unfold has_id, field at 1, prop.
    rewrite Hkey by (discriminate || assumption).
    exact Hr. }
  assert (Hnull : existsb is_null (before ++ JObj updated :: after) = false)
    by (rewrite existsb_app, Hnb; simpl; exact Hna).
  assert (Hread : getAllRecords w2
                  = (Resolved (before ++ JObj updated :: after),
                     after_call w2)).
  { rewrite getAllRecords_run.
    - f_equal. f_equal. unfold stored. simpl. apply sort_fixed.
      apply (sorted_same_times (before ++ r :: after)).
      + apply Forall2_app; [now apply Forall2_same|].
        constructor; [now symmetry|now apply Forall2_same].
      + rewrite Hsorted. apply sort_sorted, newest_first_asymmetric.
    - subst w1. exact Hnext.
    - now apply no_null_no_throw. }
  exists updated, w2, (after_call w2).
  split; [exact Hrun|]. split; [exact Hread|].
  rewrite (getRecordById_run id _ _ _ Hread Hnull).
  rewrite (find_first (has_id id)); [reflexivity| |exact Hhas].
  intros x Hx. rewrite forallb_forall in Hbefore.
  now apply negb_true_iff, Hbefore.
Qed.
End ImportMore.

(** The import of a document into a store of two records, twice. *)
Lemma importFromJSON_replay_witness :
  exists n w2 listing w3,
    RecordStorage.importFromJSON (host := Test.host) (Text Test.document)
      Test.two_records = (Resolved n, w2)
    /\ RecordStorage.getAllRecords (host := Test.host) w2
       = (Resolved listing, after_call w2)
    /\ RecordStorage.importFromJSON (host := Test.host) (Text Test.document) w2
       = (Resolved 0%nat, w3)
    /\ RecordStorage.getAllRecords (host := Test.host) w3
       = (Resolved listing, after_call w3).
Proof.
  apply (importFromJSON_replay (host := Test.host) Test.document
           (Some (JArr [Test.record_a'; Test.record_c]))
           [Test.record_a'; Test.record_c]
           [Test.record_b; Test.record_a]
           Test.two_records (after_call Test.two_records));
    try reflexivity.
  repeat constructor.
Defined.

(** The import of a document of two ids into a store of two ids. *)
Lemma importFromJSON_keeps_ids_distinct_witness :
  exists n w2 merged,
    RecordStorage.importFromJSON (host := Test.host) (Text Test.document)
      Test.two_records = (Resolved n, w2)
    /\ storage w2 = Some merged
    /\ NoDup (map (fun r => RecordStorage.field r "id") merged).
Proof.
  apply (importFromJSON_keeps_ids_distinct (host := Test.host) Test.document
           (Some (JArr [Test.record_a'; Test.record_c]))
           [Test.record_a'; Test.record_c]
           [Test.record_b; Test.record_a]
           Test.two_records (after_call Test.two_records));
    try reflexivity.
  - repeat constructor.
  - repeat constructor; simpl; intuition discriminate.
  - repeat constructor; simpl; intuition discriminate.
Defined.

(** An update of the amount of the older of two records. *)
Lemma updateRecord_then_lookup_witness :
  exists updated w2 w3,
    RecordStorage.updateRecord (host := Test.host) "a" [("amount", num 20)]
      Test.two_records = (Resolved (JObj updated), w2)
    /\ RecordStorage.getAllRecords (host := Test.host) w2
       = (Resolved [Test.record_b; JObj updated], w3)
    /\ RecordStorage.getRecordById (host := Test.host) "a" w2
       = (Resolved (JObj updated), w3).
Proof.
  apply (updateRecord_then_lookup (host := Test.host) "a" [("amount", num 20)]
           Test.two_records (after_call Test.two_records)
           [Test.record_b] [] Test.record_a);
    try reflexivity.
  - repeat constructor; simpl; intuition discriminate.
  - repeat constructor; simpl; intuition discriminate.
Defined.

(* ================================================================== *)
(** * The estimation, and the attempt the popup makes                  *)
(* ================================================================== *)

Section Estimation.
Import Popup PromptAPIWrapper.
Context `{host : Host}.

(** The two shapes of a result: an estimate of the range with its
    confidence and no error, or an error alone. *)
Lemma estimate_shapes (lm : option LanguageModel) (e : Estimate) :
  estimateFlowFromImage lm = Resolved e ->
  (exists v, estimatedVolume e = Some v /\ 0 <= v <= 50
             /\ confidence e = Some (confidence_of v) /\ error e = None)
  \/ (estimatedVolume e = None /\ confidence e = None
      /\ exists m, error e = Some m).
Proof.
  unfold estimateFlowFromImage, try_await, checkAvailability, failed.
  destruct lm as [m|];
    [|intros H; inversion H; subst; right; simpl; eauto].
  destruct (availability m) as [a|err|];
    [destruct (String.eqb a "unavailable"); simpl| |discriminate];
    try (intros H; inversion H; subst; right; simpl; eauto; fail).
  destruct (create m) as [[]|err|];
    [| intros H; inversion H; subst; right; simpl; eauto | discriminate].
  destruct (append m) as [[]|err|];
    [| intros H; inversion H; subst; right; simpl; eauto | discriminate].
  destruct (prompt m) as [result|err|];
    [| intros H; inversion H; subst; right; simpl; eauto | discriminate].
  destruct (parseInt (trim result) (Some 10)) as [v|];
    [| intros H; inversion H; subst; right; simpl; eauto].
  destruct (Z.ltb_spec v 0) as [Hlo|Hlo], (Z.ltb_spec 50 v) as [Hhi|Hhi];
    simpl; intros H; inversion H; subst; simpl;
    try (right; eauto; fail).
  left. exists v. repeat split; auto; lia.
Qed.

Lemma estimate_not_rejected (lm : option LanguageModel) (e : js_error) :
  estimateFlowFromImage lm <> Rejected e.
Proof.
  unfold estimateFlowFromImage, try_await, checkAvailability, failed.
  destruct lm as [m|]; [|discriminate].
  destruct (availability m) as [a|err|];
    [destruct (String.eqb a "unavailable"); simpl| |];
    try discriminate.
  destruct (create m) as [[]|err|]; try discriminate.
  destruct (append m) as [[]|err|]; try discriminate.
  destruct (prompt m) as [result|err|]; try discriminate.
  destruct (parseInt (trim result) (Some 10)) as [v|]; try discriminate.
  destruct ((v <? 0) || (50 <? v)); discriminate.
Qed.

(** X15.  [estimateFlowFromImage] never rejects, and a result it
    resolves with is tagged: either an estimate of [0, 50] with the
    confidence of that estimate and no error, or no estimate, no
    confidence and an error message. *)
Theorem estimate_is_tagged (lm : option LanguageModel) :
  (forall err, estimateFlowFromImage lm <> Rejected err)
  /\ (forall e,
        estimateFlowFromImage lm = Resolved e ->
        (exists v, estimatedVolume e = Some v /\ 0 <= v <= 50
                   /\ confidence e = Some (confidence_of v)
                   /\ error e = None)
        \/ (estimatedVolume e = None /\ confidence e = None
            /\ exists m, error e = Some m)).
Proof.
  split.
  - intros err. exact (estimate_not_rejected lm err).
  - intros e Hrun. exact (estimate_shapes lm e Hrun).
Qed.

(** X16.  When the model is not usable, because the global is not
    defined, or the availability is ['unavailable'], or asking for it
    fails, the estimation resolves with the error
    ['LanguageModel not available'] whatever creating a session,
    appending to it or prompting it would have done. *)
Theorem unavailable_model_fails
    (a : outcome string) (c ap : outcome unit) (pr : outcome string)
    (err : js_error) :
  a = Resolved "unavailable" \/ a = Rejected err ->
  checkAvailability (Some (mkLanguageModel a c ap pr)) = Resolved false
  /\ estimateFlowFromImage (Some (mkLanguageModel a c ap pr))
     = Resolved (mkEstimate None None (Some "LanguageModel not available"))
  /\ checkAvailability None = Resolved false
  /\ estimateFlowFromImage None
     = Resolved (mkEstimate None None (Some "LanguageModel not available")).
Proof.
  intros [->| ->]; repeat split; reflexivity.
Qed.

(** The shapes of what [attemptAIEstimation] resolves with. *)
Lemma attempt_shapes
    (loaded : bool) (probe lm : option LanguageModel) (a : Attempt) :
  attemptAIEstimation loaded probe lm = Resolved a ->
  (ai_success a = true /\ ai_reason a = None
   /\ ((exists v, ai_estimatedVolume a = Some v /\ 0 <= v <= 50
                  /\ ai_confidence a = Some (confidence_of v))
       \/ (ai_estimatedVolume a = None /\ ai_confidence a = None
           /\ exists e, estimateFlowFromImage lm = Resolved e
                        /\ error e = Some "")))
  \/ (ai_success a = false /\ ai_estimatedVolume a = None
      /\ ai_confidence a = None /\ exists m, ai_reason a = Some m).
Proof.
  unfold attemptAIEstimation.
  destruct loaded; simpl;
    [|intros H; inversion H; subst; right; simpl; repeat split; eauto].
  destruct (checkAvailability probe) as [[]|err|];
    try (intros H; inversion H; subst; right; simpl; repeat split; eauto; fail).
  destruct (estimateFlowFromImage lm) as [e|err|] eqn:Hest;
    [| intros H; inversion H; subst; right; simpl; repeat split; eauto
     | discriminate].
  destruct (estimate_shapes lm e Hest)
    as [(v & Hv & Hrange & Hc & Herr)|(Hv & Hc & m & Herr)]; rewrite Herr.
  - intros H. inversion H; subst. left. simpl.
    repeat split; auto. left. eauto.
  - destruct (String.eqb_spec m "") as [->|Hne]; simpl;
      intros H; inversion H; subst; simpl.
    + left. repeat split; auto. right. eauto.
    + right. repeat split; eauto.
Qed.

(** [attemptAIEstimation] catches what it awaits. *)
Lemma attempt_not_rejected
    (loaded : bool) (probe lm : option LanguageModel) (err : js_error) :
  attemptAIEstimation loaded probe lm <> Rejected err.
Proof.
  unfold attemptAIEstimation.
  destruct loaded; simpl; [|discriminate].
  destruct (checkAvailability probe) as [[]|e|]; try discriminate.
  destruct (estimateFlowFromImage lm) as [result|e|]; try discriminate.
  destruct (error result) as [reason|]; [|discriminate].
  destruct (String.eqb reason ""); discriminate.
Qed.

(** X17.  [attemptAIEstimation] never rejects, and what it resolves
    with is a failure with a reason and neither estimate nor
    confidence, or a success without reason; a success carries an
    estimate of [0, 50] with its confidence, unless the estimation
    failed with an empty error message, in which case it carries
    neither. *)
Theorem attempt_is_tagged
    (loaded : bool) (probe lm : option LanguageModel) :
  (forall err, attemptAIEstimation loaded probe lm <> Rejected err)
  /\ (forall a,
        attemptAIEstimation loaded probe lm = Resolved a ->
        (ai_success a = true /\ ai_reason a = None
         /\ ((exists v, ai_estimatedVolume a = Some v /\ 0 <= v <= 50
                        /\ ai_confidence a = Some (confidence_of v))
             \/ (ai_estimatedVolume a = None /\ ai_confidence a = None
                 /\ exists e, estimateFlowFromImage lm = Resolved e
                              /\ error e = Some "")))
        \/ (ai_success a = false /\ ai_estimatedVolume a = None
            /\ ai_confidence a = None /\ exists m, ai_reason a = Some m)).
Proof.
  split.
  - intros err. exact (attempt_not_rejected loaded probe lm err).
  - intros a Hrun. exact (attempt_shapes loaded probe lm a Hrun).
Qed.

(** X18.  An estimation that fails with an empty message is taken for
    a success: when the model is usable and creating the session fails
    with an error whose message is empty, [attemptAIEstimation]
    resolves with [success: true] and no estimate. *)
Theorem empty_message_is_success
    (status : string) (ap : outcome unit) (pr : outcome string) :
  status <> "unavailable" ->
  attemptAIEstimation true
    (Some (mkLanguageModel (Resolved status) (Rejected (Error "")) ap pr))
    (Some (mkLanguageModel (Resolved status) (Rejected (Error "")) ap pr))
  = Resolved (mkAttempt true None None None).
Proof.
  intros Hs. apply String.eqb_neq in Hs.
  unfold attemptAIEstimation, estimateFlowFromImage, try_await,
    checkAvailability. simpl. now rewrite Hs.
Qed.
End Estimation.

(** The estimation on a model that answers 25. *)
Lemma estimate_is_tagged_witness :
  PromptAPIWrapper.estimateFlowFromImage (host := Test.host)
    (Some (Test.model " 25 "))
  = Resolved (PromptAPIWrapper.mkEstimate (Some 25) (Some "high") None)
  /\ (forall err,
        PromptAPIWrapper.estimateFlowFromImage (host := Test.host)
          (Some (Test.model " 25 "))
        <> Rejected err)
  /\ exists v,
       0 <= v <= 50
       /\ PromptAPIWrapper.confidence_of v = "high".
Proof.
  destruct (estimate_is_tagged (host := Test.host)
              (Some (Test.model " 25 "))) as [Hnever Hshape].
  split; [reflexivity|]. split; [exact Hnever|].
  destruct (Hshape (PromptAPIWrapper.mkEstimate (Some 25) (Some "high") None)
              eq_refl)
    as [(v & Hv & Hrange & Hc & _)|(Hv & _)]; [|discriminate Hv].
  exists v. split; [exact Hrange|]. simpl in Hc. congruence.
Defined.

(** A model that reports itself unavailable, with a session that would
    answer. *)
Lemma unavailable_model_fails_witness :
  PromptAPIWrapper.estimateFlowFromImage (host := Test.host)
    (Some (PromptAPIWrapper.mkLanguageModel
             (Resolved "unavailable") (Resolved tt) (Resolved tt)
             (Resolved "25")))
  = Resolved (PromptAPIWrapper.mkEstimate None None
                (Some "LanguageModel not available")).
Proof.
  apply (unavailable_model_fails (host := Test.host)
           (Resolved "unavailable") (Resolved tt)
           (Resolved tt) (Resolved "25") (Error "")).
  left. reflexivity.
Defined.

(** The attempt on a model that answers 25. *)
Lemma attempt_is_tagged_witness :
  Popup.attemptAIEstimation (host := Test.host) true
    (Some (Test.model "25")) (Some (Test.model "25"))
  = Resolved (Popup.mkAttempt true (Some 25) (Some "high") None)
  /\ (forall err,
        Popup.attemptAIEstimation (host := Test.host) true
          (Some (Test.model "25")) (Some (Test.model "25"))
        <> Rejected err)
  /\ exists v,
       0 <= v <= 50
       /\ PromptAPIWrapper.confidence_of v = "high".
Proof.
  destruct (attempt_is_tagged (host := Test.host) true
              (Some (Test.model "25")) (Some (Test.model "25")))
    as [Hnever Hshape].
  split; [reflexivity|]. split; [exact Hnever|].
  destruct (Hshape (Popup.mkAttempt true (Some 25) (Some "high") None)
              eq_refl)
    as [(_ & _ & [(v & Hv & Hrange & Hc)|(Hv & _)])|(Hok & _)];
    [|discriminate Hv|discriminate Hok].
  exists v. split; [exact Hrange|]. simpl in Hc. congruence.
Defined.

(** A model that is available and whose [create] fails without a
    message. *)
Lemma empty_message_is_success_witness :
  Popup.attemptAIEstimation (host := Test.host) true
    (Some (PromptAPIWrapper.mkLanguageModel (Resolved "available")
             (Rejected (Error "")) (Resolved tt) (Resolved "25")))
    (Some (PromptAPIWrapper.mkLanguageModel (Resolved "available")
             (Rejected (Error "")) (Resolved tt) (Resolved "25")))
  = Resolved (Popup.mkAttempt true None None None).
Proof.
  apply (empty_message_is_success (host := Test.host) "available"
           (Resolved tt) (Resolved "25")).
  discriminate.
Defined.

(* ================================================================== *)
(** * The handlers of the popup                                        *)
(* ================================================================== *)

Section Handlers.
Import RecordStorage Spec PromptAPIWrapper Popup.
Context `{host : Host}.

(** A rejected extraction leaves the page as it was. *)
Lemma extractEXIFData_rejected (file : File) (p p' : Page) (e : js_error) :
  extractEXIFData file p = (Rejected e, p') -> p' = p.
Proof.
  unfold extractEXIFData.
  destruct (metadata file) as [e0|e0|[tag|]]; try (intros H; now inversion H).
  destruct (truthy (Some tag)); [|intros H; now inversion H].
  destruct (parseEXIFDate tag); intros H; now inversion H.
Qed.

(** X19.  When the extraction of the timestamp is rejected, the
    handler of the file input shows the error section with
    ['Error processing image: '] and the message, with the loading
    overlay off; the estimation is not consulted, and the inputs and
    the badge are as they were. *)
Theorem exif_failure_is_shown
    (type : string) (file : File) (loaded : bool)
    (probe lm : option LanguageModel) (s : Screen) (e : js_error) (p' : Page) :
  String.prefix "image/" type = true ->
  extractEXIFData file (showLoading true (page s)) = (Rejected e, p') ->
  exists s',
    handleFileSelect (Some (type, file)) loaded probe lm s = (Resolved tt, s')
    /\ visible (page s') = error
    /\ errorMessage (page s')
       = ("Error processing image: " ++ message e)%string
    /\ loading (page s') = false
    /\ dateInput (page s') = dateInput (page s)
    /\ amountInput (page s') = amountInput (page s)
    /\ badge s' = badge s
    /\ selectedFile s' = Some file.
Proof.
  intros Htype Hrun.
  pose proof (extractEXIFData_rejected _ _ _ _ Hrun) as ->.
  unfold handleFileSelect. rewrite Htype. simpl. rewrite Hrun.
  eexists. split; [reflexivity|]. repeat split.
Qed.

(** X20.  A failed estimation does not stop the flow: when the
    extraction resolves and the attempt resolves, the handler shows the
    edit section with the loading overlay off and the date the
    extraction wrote; after a failure the amount is empty and there is
    no badge, after a success the amount is the estimate and the badge
    carries its confidence. *)
Theorem estimation_never_halts
    (type : string) (file : File) (loaded : bool)
    (probe lm : option LanguageModel) (s : Screen) (p1 : Page) (a : Attempt) :
  String.prefix "image/" type = true ->
  extractEXIFData file (showLoading true (page s)) = (Resolved tt, p1) ->
  attemptAIEstimation loaded probe lm = Resolved a ->
  exists s',
    handleFileSelect (Some (type, file)) loaded probe lm s = (Resolved tt, s')
    /\ visible (page s') = edit
    /\ loading (page s') = false
    /\ dateInput (page s') = dateInput p1
    /\ selectedFile s' = Some file
    /\ amountInput (page s')
       = (if ai_success a then input_text (ai_estimatedVolume a) else "")
    /\ badge s' = (if ai_success a then Some (ai_confidence a) else None).
Proof.
  intros Htype Hexif Hattempt.
  unfold handleFileSelect. rewrite Htype. simpl. rewrite Hexif, Hattempt.
  eexists. split; [reflexivity|].
  destruct (ai_success a); repeat split.
Qed.

Lemma updateRecordCount_visible (p p' : Page) (w w' : World)
      (o : outcome unit) :
  updateRecordCount p w = (o, p', w') ->
  visible p' = visible p /\ storage w' = storage w.
Proof.
  unfold updateRecordCount.
  destruct (getAllRecords w) as [[records|e|] w1] eqn:Hget;
    apply getAllRecords_storage in Hget; subst w1;
    intros H; inversion H; subst; split; reflexivity.
Qed.


(** X21.  Whenever the save handler leaves the error section visible,
    the stored array is the one it was: nothing is stored on a
    validation error or on a failed save. *)
Theorem handleSave_error_keeps_store
    (p p' : Page) (w w' : World) (o : outcome unit) :
  handleSave p w = (o, p', w') ->
  visible p' = error ->
  storage w' = storage w.
Proof.
  unfold handleSave.
  destruct (String.eqb (dateInput p) ""); [intros H; now inversion H|].
  destruct (parseFloat (amountInput p)) as [amount|];
    [|intros H; now inversion H].
  destruct (Qc_negative amount); [intros H; now inversion H|].
  cbv zeta.
  change (dateInput (showLoading true p)) with (dateInput p).
  change (memoInput (showLoading true p)) with (memoInput p).
  destruct (Date_value (Some (JStr (dateInput p)))) as [t|];
    [|intros H; now inversion H].
  match goal with
  | |- context [saveRecord ?d w] =>
      destruct (saveRecord d w) as [[r|e|] w1] eqn:Hsave
  end.
  - destruct (updateRecordCount (showSection success (showLoading true p)) w1)
      as [[[[]|e|] q'] w2] eqn:Hcount;
      apply updateRecordCount_visible in Hcount as [Hv _];
      intros H Hvis; inversion H; subst; simpl in *;
      rewrite Hv in Hvis; discriminate Hvis.
  - intros H _. inversion H; subst.
    apply (saveRecord_unresolved _ _ _ _ Hsave). intros r. discriminate.
  - intros H _. inversion H; subst.
    apply (saveRecord_unresolved _ _ _ _ Hsave). intros r. discriminate.
Qed.


(** X23.  Declining the dialog of "delete all" changes nothing.
    Confirming it, when the storage does not fail, removes the stored
    array, empties the record count, and leaves the main section
    visible, the loading overlay off and the toast
    ['All records deleted']. *)
Theorem handleDeleteAll_clears (s : Screen) (w : World) :
  faults w = [] ->
  handleDeleteAll false s w = (Resolved tt, s, w)
  /\ exists s' w',
       handleDeleteAll true s w = (Resolved tt, s', w')
       /\ storage w' = None
       /\ recordCount (page s') = ""
       /\ visible (page s') = main
       /\ loading (page s') = false
       /\ toast s' = Some "All records deleted".
Proof.
  intros Hfaults. split; [reflexivity|].
  destruct w as [st fs tk dr]. simpl in Hfaults. subst fs.
  eexists _, _. split; [reflexivity|]. repeat split.
Qed.

(** X24.  A re-estimation leaves the date, the memo and the selected
    file as they were.  Either the amount and the badge are as they
    were too, or the toast says ['AI estimation updated'], the visible
    section is the one it was, the loading overlay is off, and the
    amount is an integer of [0, 50] with the badge of its confidence,
    or, after an estimation that failed with an empty message, the
    amount is empty and the badge has no confidence. *)
Theorem reestimate_overwrites_on_success
    (loaded : bool) (probe lm : option LanguageModel) (s s' : Screen)
    (o : outcome unit) :
  handleAIReEstimate loaded probe lm s = (o, s') ->
  dateInput (page s') = dateInput (page s)
  /\ memoInput (page s') = memoInput (page s)
  /\ selectedFile s' = selectedFile s
  /\ ((amountInput (page s') = amountInput (page s) /\ badge s' = badge s)
      \/ (toast s' = Some "AI estimation updated"
          /\ visible (page s') = visible (page s)
          /\ loading (page s') = false
          /\ ((exists v, 0 <= v <= 50
                         /\ amountInput (page s') = string_of_Z v
                         /\ badge s' = Some (Some (confidence_of v)))
              \/ (amountInput (page s') = "" /\ badge s' = Some None)))).
Proof.
  assert (Hsame : forall s0 : Screen,
            dateInput (page s0) = dateInput (page s)
            -> memoInput (page s0) = memoInput (page s)
            -> selectedFile s0 = selectedFile s
            -> amountInput (page s0) = amountInput (page s)
            -> badge s0 = badge s
            -> dateInput (page s0) = dateInput (page s)
               /\ memoInput (page s0) = memoInput (page s)
               /\ selectedFile s0 = selectedFile s
               /\ ((amountInput (page s0) = amountInput (page s)
                    /\ badge s0 = badge s)
                   \/ (toast s0 = Some "AI estimation updated"
                       /\ visible (page s0) = visible (page s)
                       /\ loading (page s0) = false
                       /\ ((exists v, 0 <= v <= 50
                                      /\ amountInput (page s0) = string_of_Z v
                                      /\ badge s0
                                         = Some (Some (confidence_of v)))
                           \/ (amountInput (page s0) = ""
                               /\ badge s0 = Some None)))))
    by (intros; repeat split; try assumption; left; now split).
  unfold handleAIReEstimate.
  destruct (selectedFile s) as [file|] eqn:Hfile;
    [|intros H; inversion H; subst; apply Hsame; simpl; auto].
  cbv zeta.
  destruct (attemptAIEstimation loaded probe lm) as [a|e|] eqn:Hattempt;
    [|intros H; inversion H; subst; apply Hsame; simpl; auto..].
  destruct (attempt_shapes loaded probe lm a Hattempt)
    as [(Hok & _ & [(v & Hv & Hrange & Hc)|(Hv & Hc & _)])|(Hok & _)];
    rewrite Hok; intros H; inversion H; subst;
    [| |apply Hsame; simpl; auto];
    simpl; rewrite ?Hfile, ?Hv, ?Hc; simpl;
    (repeat split; try reflexivity; right; repeat split; try reflexivity).
  - left. exists v. auto.
  - right. split; reflexivity.
Qed.
(** X25.  Once the record is written the save handler resolves with
    the success section visible, the loading overlay off and the form
    reset, whether or not the refresh of the record count fails.  When
    the refresh fails the count keeps the text it had; when it does
    not, the count says how many records are stored, ['record'] in the
    singular for one. *)
Theorem handleSave_survives_refresh
    (p : Page) (w : World) (amount : Qc) (t : Z)
    (third : option string) (rest : list (option string)) :
  dateInput p <> "" ->
  parseFloat (amountInput p) = Some amount ->
  Qc_negative amount = false ->
  Date_value (Some (JStr (dateInput p))) = Some t ->
  faults w = None :: None :: third :: rest ->
  existsb is_null (stored w) = false ->
  exists p' w' newRecord,
    handleSave p w = (Resolved tt, p', w')
    /\ visible p' = success
    /\ loading p' = false
    /\ dateInput p' = "" /\ amountInput p' = "" /\ memoInput p' = ""
    /\ storage w' = Some (sort newest_first (stored w) ++ [JObj newRecord])
    /\ recordCount p'
       = match third with
         | Some _ => recordCount p
         | None =>
             ("Saved: "
              ++ string_of_Z (Z.of_nat (S (List.length (stored w))))
              ++ " record"
              ++ (if (0 <? List.length (stored w))%nat then "s" else ""))%string
         end.
Proof.
  intros Hdate Hamount Hneg Ht Hfaults Hnull.
  assert (Hget : getAllRecords w
                 = (Resolved (sort newest_first (stored w)), after_call w)).
  { apply getAllRecords_run; [unfold lastError; now rewrite Hfaults|].
    now apply no_null_no_throw. }
  assert (Hsorted : existsb is_null (sort newest_first (stored w)) = false)
    by now rewrite (existsb_perm _ _ _ (sort_perm newest_first _)).
  set (records := sort newest_first (stored w)) in *.
  set (recordData := recordData_of (toISOString t) amount (trim (memoInput p))).
  assert (Hsave : saveRecord recordData w
                  = (Resolved (saved_record recordData w),
                     after_save recordData records w)).
  { apply saveRecord_run with (w1 := after_call w); [exact Hget|].
    unfold lastError. simpl. now rewrite Hfaults. }
  assert (Hthird : lastError (after_save recordData records w) = third)
    by (unfold lastError; simpl; now rewrite Hfaults).
  apply String.eqb_neq in Hdate.
  unfold handleSave. rewrite Hdate, Hamount, Hneg. cbv zeta.
  change (dateInput (showLoading true p)) with (dateInput p).
  change (memoInput (showLoading true p)) with (memoInput p).
  rewrite Ht. fold recordData. rewrite Hsave. unfold updateRecordCount.
  destruct third as [m|].
  - unfold getAllRecords. rewrite Hthird.
    eexists _, _, _. split; [reflexivity|]. repeat split.
  - rewrite getAllRecords_after_save by assumption.
    eexists _, _, _. split; [reflexivity|]. repeat split.
    cbn [recordCount showLoading resetForm set_recordCount].
    rewrite sort_length, length_app. unfold records.
    rewrite sort_length. simpl List.length.
    rewrite Nat.add_1_r.
    destruct (List.length (stored w)); reflexivity.
Qed.
End Handlers.

(** A photograph whose EXIF date has no time part. *)
Lemma exif_failure_is_shown_witness :
  exists s',
    Popup.handleFileSelect (host := Test.host)
      (Some ("image/jpeg", Test.photo (Popup.Tag (Some (JStr "2024:12:25")))))
      true (Some (Test.model "25")) (Some (Test.model "25"))
      (Test.screen Test.blank)
    = (Resolved tt, s')
    /\ Popup.visible (Popup.page s') = Popup.error
    /\ Popup.errorMessage (Popup.page s')
       = "Error processing image: EXIF parsing error: Cannot read properties of undefined (reading 'split')"
    /\ Popup.amountInput (Popup.page s') = "".
Proof.
  destruct (exif_failure_is_shown (host := Test.host) "image/jpeg"
              (Test.photo (Popup.Tag (Some (JStr "2024:12:25"))))
              true (Some (Test.model "25")) (Some (Test.model "25"))
              (Test.screen Test.blank)
              (Error "EXIF parsing error: Cannot read properties of undefined (reading 'split')")
              (Popup.showLoading true Test.blank))
    as (s' & Hrun & Hvisible & Hmessage & _ & _ & Hamount & _).
  - reflexivity.
  - vm_compute. reflexivity.
  - exists s'. repeat split; assumption.
Defined.

(** A photograph without EXIF date when the wrapper is not loaded, and
    when the model answers 25. *)
Lemma estimation_never_halts_witness :
  (exists s',
      Popup.handleFileSelect (host := Test.host)
        (Some ("image/png", Test.photo (Popup.Tag None)))
        false None None (Test.screen Test.blank)
      = (Resolved tt, s')
      /\ Popup.visible (Popup.page s') = Popup.edit
      /\ Popup.amountInput (Popup.page s') = ""
      /\ Popup.badge s' = None)
  /\ (exists s',
         Popup.handleFileSelect (host := Test.host)
           (Some ("image/png", Test.photo (Popup.Tag None)))
           true (Some (Test.model "25")) (Some (Test.model "25"))
           (Test.screen Test.blank)
         = (Resolved tt, s')
         /\ Popup.visible (Popup.page s') = Popup.edit
         /\ Popup.amountInput (Popup.page s') = "25"
         /\ Popup.badge s' = Some (Some "high")).
Proof.
  split.
  - destruct (estimation_never_halts (host := Test.host) "image/png"
                (Test.photo (Popup.Tag None)) false None None
                (Test.screen Test.blank)
                (snd (Popup.extractEXIFData (host := Test.host)
                        (Test.photo (Popup.Tag None))
                        (Popup.showLoading true Test.blank)))
                (Popup.mkAttempt false None None
                   (Some "API wrapper not loaded")))
      as (s' & Hrun & Hvisible & _ & _ & _ & Hamount & Hbadge);
      try reflexivity.
    exists s'. repeat split; assumption.
  - destruct (estimation_never_halts (host := Test.host) "image/png"
                (Test.photo (Popup.Tag None)) true
                (Some (Test.model "25")) (Some (Test.model "25"))
                (Test.screen Test.blank)
                (snd (Popup.extractEXIFData (host := Test.host)
                        (Test.photo (Popup.Tag None))
                        (Popup.showLoading true Test.blank)))
                (Popup.mkAttempt true (Some 25) (Some "high") None))
      as (s' & Hrun & Hvisible & _ & _ & _ & Hamount & Hbadge);
      try reflexivity.
    exists s'. repeat split; assumption.
Defined.

(** A save without a date, and a save on a store whose write fails. *)
Lemma handleSave_error_keeps_store_witness :
  storage (snd (Popup.handleSave (host := Test.host)
                  (Test.form "" "12" "") Test.two_records))
  = storage Test.two_records
  /\ storage (snd (Popup.handleSave (host := Test.host)
                     (Test.form "2024-01-04T09:30" "12" "")
                     Test.failing_write))
     = storage Test.failing_write.
Proof.
  split.
  - apply (handleSave_error_keeps_store (host := Test.host)
             (Test.form "" "12" "")
             (snd (fst (Popup.handleSave (host := Test.host)
                          (Test.form "" "12" "") Test.two_records)))
             Test.two_records
             (snd (Popup.handleSave (host := Test.host)
                     (Test.form "" "12" "") Test.two_records))
             (fst (fst (Popup.handleSave (host := Test.host)
                          (Test.form "" "12" "") Test.two_records))));
      reflexivity.
  - apply (handleSave_error_keeps_store (host := Test.host)
             (Test.form "2024-01-04T09:30" "12" "")
             (snd (fst (Popup.handleSave (host := Test.host)
                          (Test.form "2024-01-04T09:30" "12" "")
                          Test.failing_write)))
             Test.failing_write
             (snd (Popup.handleSave (host := Test.host)
                     (Test.form "2024-01-04T09:30" "12" "")
                     Test.failing_write))
             (fst (fst (Popup.handleSave (host := Test.host)
                          (Test.form "2024-01-04T09:30" "12" "")
                          Test.failing_write))));
      vm_compute; reflexivity.
Defined.


(** The two answers to the dialog on a store of two records. *)
Lemma handleDeleteAll_clears_witness :
  Popup.handleDeleteAll (host := Test.host) false (Test.screen Test.blank)
    Test.two_records
  = (Resolved tt, Test.screen Test.blank, Test.two_records)
  /\ exists s' w',
       Popup.handleDeleteAll (host := Test.host) true (Test.screen Test.blank)
         Test.two_records
       = (Resolved tt, s', w')
       /\ storage w' = None
       /\ Popup.toast s' = Some "All records deleted".
Proof.
  destruct (handleDeleteAll_clears (host := Test.host)
              (Test.screen Test.blank) Test.two_records)
    as (Hno & s' & w' & Hrun & Hstore & _ & _ & _ & Htoast);
    [reflexivity|].
  split; [exact Hno|]. exists s', w'. repeat split; assumption.
Defined.

(** A re-estimation with a selected photograph and a model that
    answers 25. *)
Lemma reestimate_overwrites_on_success_witness :
  Popup.dateInput
    (Popup.page
       (snd (Popup.handleAIReEstimate (host := Test.host) true
               (Some (Test.model "25")) (Some (Test.model "25"))
               (Popup.mkScreen (Test.form "2024-01-04T09:30" "" "heavy")
                  (Some (Test.photo (Popup.Tag None))) None None))))
  = "2024-01-04T09:30".
Proof.
  apply (reestimate_overwrites_on_success (host := Test.host) true
           (Some (Test.model "25")) (Some (Test.model "25"))
           (Popup.mkScreen (Test.form "2024-01-04T09:30" "" "heavy")
              (Some (Test.photo (Popup.Tag None))) None None)
           (snd (Popup.handleAIReEstimate (host := Test.host) true
                   (Some (Test.model "25")) (Some (Test.model "25"))
                   (Popup.mkScreen (Test.form "2024-01-04T09:30" "" "heavy")
                      (Some (Test.photo (Popup.Tag None))) None None)))
           (fst (Popup.handleAIReEstimate (host := Test.host) true
                   (Some (Test.model "25")) (Some (Test.model "25"))
                   (Popup.mkScreen (Test.form "2024-01-04T09:30" "" "heavy")
                      (Some (Test.photo (Popup.Tag None))) None None)))).
  reflexivity.
Defined.

(** A save into a store of two records whose count cannot be read
    afterwards. *)
Lemma handleSave_survives_refresh_witness :
  exists p' w' newRecord,
    Popup.handleSave (host := Test.host)
      (Popup.set_recordCount "Saved: 2 records"
         (Test.form "2024-01-04T09:30" "12" ""))
      Test.failing_refresh
    = (Resolved tt, p', w')
    /\ Popup.visible p' = Popup.success
    /\ storage w' = Some [Test.record_b; Test.record_a; JObj newRecord]
    /\ Popup.recordCount p' = "Saved: 2 records".
Proof.
  destruct (handleSave_survives_refresh (host := Test.host)
              (Popup.set_recordCount "Saved: 2 records"
                 (Test.form "2024-01-04T09:30" "12" ""))
              Test.failing_refresh (Q2Qc (Qred (Qmake 12 1))) 1704360600000
              (Some "Storage unavailable") [])
    as (p' & w' & r & Hrun & Hvisible & _ & _ & _ & _ & Hstore & Hcount).
  - discriminate.
  - vm_compute. reflexivity.
  - reflexivity.
  - vm_compute. reflexivity.
  - reflexivity.
  - reflexivity.
  - exists p', w', r. repeat split; assumption.
Defined.

(* ================================================================== *)
(** * The date shown with a record                                     *)
(* ================================================================== *)

Section Formatting.
Import RecordStorage Spec Popup.
Context `{host : Host}.

(** A property checked on every number of a range holds on the range. *)
Lemma range_check (P : Z -> bool) (lo n : Z) :
  forallb (fun k => P (Z.of_nat k)) (seq (Z.to_nat lo) (Z.to_nat n)) = true ->
  forall x, 0 <= lo <= x -> x < lo + n -> P x = true.
Proof.
  intros H x Hlo Hhi. rewrite forallb_forall in H.
  specialize (H (Z.to_nat x)). rewrite Z2Nat.id in H by lia.
  apply H, in_seq. lia.
Qed.

Lemma two_digits (x : Z) :
  0 <= x <= 99 ->
  exists a b,
    padStart 2 "0" (string_of_number (Some x)) = String a (String b "")
    /\ is_digit a = true /\ is_digit b = true.
Proof.
  intros Hx.
  assert (H : shaped "dd" (padStart 2 "0" (string_of_number (Some x))) = true).
  { apply (range_check
             (fun x => shaped "dd" (padStart 2 "0" (string_of_number (Some x))))
             0 100); [vm_compute; reflexivity|lia..]. }
  destruct (padStart 2 "0" (string_of_number (Some x)))
    as [|a [|b [|c rest]]];
    cbn [shaped Ascii.eqb Bool.eqb] in H;
    rewrite ?andb_false_r, ?andb_true_r in H; try discriminate.
  apply andb_true_iff in H. exists a, b. tauto.
Qed.

Lemma four_digits (x : Z) :
  1000 <= x <= 9999 ->
  exists a b c d,
    string_of_number (Some x) = String a (String b (String c (String d "")))
    /\ is_digit a = true /\ is_digit b = true
    /\ is_digit c = true /\ is_digit d = true.
Proof.
  intros Hx.
  assert (H : shaped "dddd" (string_of_number (Some x)) = true).
  { apply (range_check (fun x => shaped "dddd" (string_of_number (Some x)))
             1000 9000); [vm_compute; reflexivity|lia..]. }
  destruct (string_of_number (Some x))
    as [|a [|b [|c [|d [|e rest]]]]];
    cbn [shaped Ascii.eqb Bool.eqb] in H;
    rewrite ?andb_false_r, ?andb_true_r in H; try discriminate.
  apply andb_true_iff in H as [Ha H].
  apply andb_true_iff in H as [Hb H].
  apply andb_true_iff in H as [Hc Hd].
  exists a, b, c, d. tauto.
Qed.

(** X26.  [formatDateTime] of a value that [Date] cannot read is
    ['NaN-NaN-NaN NaN:NaN'].  Of a date with a year of four digits it
    is sixteen characters, [YYYY-MM-DD HH:mm] with month, day, hour and
    minute padded to two digits, and it differs from the text
    [formatDateForInput] gives for that date only in the separator
    between day and hour. *)
Theorem formatDateTime_shape (isoString : value) :
  (Date_value isoString = None ->
   formatDateTime isoString = "NaN-NaN-NaN NaN:NaN")
  /\ (forall t,
        Date_value isoString = Some t ->
        1000 <= getFullYear t <= 9999 ->
        0 <= getMonth t <= 11 ->
        1 <= getDate t <= 31 ->
        0 <= getHours t <= 23 ->
        0 <= getMinutes t <= 59 ->
        shaped "dddd-dd-dd dd:dd" (formatDateTime isoString) = true
        /\ shaped "dddd-dd-ddTdd:dd" (formatDateForInput (Some t)) = true
        /\ substring 0 10 (formatDateTime isoString)
           = substring 0 10 (formatDateForInput (Some t))
        /\ substring 11 5 (formatDateTime isoString)
           = substring 11 5 (formatDateForInput (Some t))).
Proof.
  split.
  - intros Hdate. unfold formatDateTime. rewrite Hdate. reflexivity.
  - intros t Hdate Hyear Hmonth Hday Hhours Hminutes.
    unfold formatDateTime, formatDateForInput. rewrite Hdate.
    cbn [option_map].
    destruct (four_digits (getFullYear t) Hyear)
      as (y1 & y2 & y3 & y4 & -> & Hy1 & Hy2 & Hy3 & Hy4).
    assert (Hm : 0 <= getMonth t + 1 <= 99) by lia.
    assert (Hd : 0 <= getDate t <= 99) by lia.
    assert (Hh : 0 <= getHours t <= 99) by lia.
    assert (Hi : 0 <= getMinutes t <= 99) by lia.
    destruct (two_digits _ Hm) as (m1 & m2 & -> & Hm1 & Hm2).
    destruct (two_digits _ Hd) as (d1 & d2 & -> & Hd1 & Hd2).
    destruct (two_digits _ Hh) as (h1 & h2 & -> & Hh1 & Hh2).
    destruct (two_digits _ Hi) as (i1 & i2 & -> & Hi1 & Hi2).
    cbn [String.append shaped substring Ascii.eqb Bool.eqb].
    rewrite Hy1, Hy2, Hy3, Hy4, Hm1, Hm2, Hd1, Hd2, Hh1, Hh2, Hi1, Hi2.
    repeat split; reflexivity.
Qed.
End Formatting.

(** The date of a record saved on 4 January 2024 at 09:30, and a date
    that cannot be read. *)
Lemma formatDateTime_shape_witness :
  RecordStorage.formatDateTime (host := Test.host)
    (Some (JStr "2024-01-04T09:30:00.000Z"))
  = "2024-01-04 09:30"
  /\ Spec.shaped "dddd-dd-dd dd:dd"
       (RecordStorage.formatDateTime (host := Test.host)
          (Some (JStr "2024-01-04T09:30:00.000Z"))) = true
  /\ RecordStorage.formatDateTime (host := Test.host) (Some (JStr "yesterday"))
     = "NaN-NaN-NaN NaN:NaN".
Proof.
  split; [vm_compute; reflexivity|].
  destruct (formatDateTime_shape (host := Test.host)
              (Some (JStr "2024-01-04T09:30:00.000Z"))) as [_ Hvalid].
  destruct (formatDateTime_shape (host := Test.host)
              (Some (JStr "yesterday"))) as [Hinvalid _].
  split.
  - apply (Hvalid 1704360600000);
      [vm_compute; reflexivity|vm_compute; split; discriminate..].
  - apply Hinvalid. vm_compute. reflexivity.
Defined.
